(** * Waste dashboard of Bandung: the data pipeline of [app.py]

    A shallow embedding of [load_data], [build_summary], [build_insights],
    [generate_charts] and the year filter of [index], with the Python and
    pandas primitives they call, followed by the properties of the
    pipeline.

    Conventions of the embedding.
    - A Python exception is a value: every function that can raise returns
      a [result].
    - A pandas DataFrame is the list of its rows in positional order, each
      with its index label; [read_csv] labels the rows 0, 1, 2, ... and
      sorting and filtering carry the labels along.
    - The numeric columns are float64 columns without a missing cell.
      A cell is the rational number ([Q]) that its float64 is, and
      every operation on cells rounds its exact result to the nearest
      float64, a tie to the even one ([Float64.round53]); the sum of a
      column adds in the order numpy adds. The range of the exponent is
      not modelled: no overflow to infinity, no subnormal number. A
      column that [read_csv] reads as int64 adds without rounding; that
      agrees with the model as long as the magnitudes of the column sum
      to no more than [2 ^ 53], which is where the model stops for such
      a column. The year column holds integers, the month column text.
    - pandas is pandas 3: [astype(str)] keeps a missing cell missing, and
      a date read from text is not confined to the years a nanosecond
      timestamp holds. Its [sum] and [mean] are numpy's.
    - Text of the CSV file is a [string] of ASCII characters. Text of the
      query string is a list of [uchar], because [str.isdigit] and [int]
      disagree on some characters outside ASCII. *)

From Stdlib Require Import ZArith QArith Qabs Qpower Qround List Bool Lia Lqa.
From Stdlib Require Import Strings.String Strings.Ascii Numbers.DecimalString.
From Stdlib Require Import Sorting.Sorted Sorting.Permutation.
From Stdlib Require Import Floats.SpecFloat.
Import ListNotations.

Local Open Scope Z_scope.
Local Open Scope list_scope.

(* ================================================================= *)
(** ** Exceptions *)

Module Py.

Inductive exn : Type :=
| ValueError      (* int() of a bad literal, a date that does not parse *)
| IndexError      (* iloc out of bounds *)
| KeyError        (* loc of an absent label *)
| AttributeError. (* a method asked of the wrong kind of object *)

Inductive result (A : Type) : Type :=
| Ok (a : A)
| Raise (e : exn).

Arguments Ok {A} a.
Arguments Raise {A} e.

Definition bind {A B : Type} (m : result A) (k : A -> result B) : result B :=
  match m with
  | Ok a => k a
  | Raise e => Raise e
  end.

Fixpoint mapM {A B : Type} (f : A -> result B) (l : list A) : result (list B) :=
  match l with
  | [] => Ok []
  | x :: l' =>
      bind (f x) (fun y => bind (mapM f l') (fun ys => Ok (y :: ys)))
  end.

End Py.

Export Py.

Notation "x <- m ;; k" := (Py.bind m (fun x => k))
  (at level 61, m at next level, right associativity).

(* ================================================================= *)
(** ** Text of the CSV file *)

Module Str.

Local Open Scope string_scope.

Definition is_lower (c : ascii) : bool :=
  let n := nat_of_ascii c in (Nat.leb 97 n && Nat.leb n 122)%bool.

Definition is_upper (c : ascii) : bool :=
  let n := nat_of_ascii c in (Nat.leb 65 n && Nat.leb n 90)%bool.

Definition is_cased (c : ascii) : bool := (is_lower c || is_upper c)%bool.

Definition to_upper (c : ascii) : ascii :=
  if is_lower c then ascii_of_nat (nat_of_ascii c - 32) else c.

Definition to_lower (c : ascii) : ascii :=
  if is_upper c then ascii_of_nat (nat_of_ascii c + 32) else c.

(** [s.upper()] *)
Fixpoint upper (s : string) : string :=
  match s with
  | EmptyString => EmptyString
  | String c s' => String (to_upper c) (upper s')
  end.

(** [s.title()]: a letter that follows a letter is lowered, any other
    letter is raised. *)
Fixpoint title_from (prev_cased : bool) (s : string) : string :=
  match s with
  | EmptyString => EmptyString
  | String c s' =>
      String (if prev_cased then to_lower c else to_upper c)
             (title_from (is_cased c) s')
  end.

Definition title (s : string) : string := title_from false s.

(** [str(n)] of an integer, also what [astype(str)] and an f-string
    without a format give for an int64. *)
Definition of_Z (n : Z) : string := NilZero.string_of_int (Z.to_int n).

(** [s.split("-")] *)
Fixpoint split_dash_from (cur : string) (s : string) : list string :=
  match s with
  | EmptyString => [cur]
  | String c s' =>
      if Ascii.eqb c "-"%char then cur :: split_dash_from EmptyString s'
      else split_dash_from (cur ++ String c EmptyString) s'
  end.

Definition split_dash (s : string) : list string :=
  split_dash_from EmptyString s.

Definition is_digit (c : ascii) : bool :=
  let n := nat_of_ascii c in (Nat.leb 48 n && Nat.leb n 57)%bool.

Fixpoint all_digits (s : string) : bool :=
  match s with
  | EmptyString => true
  | String c s' => (is_digit c && all_digits s')%bool
  end.

Fixpoint digits_value (acc : Z) (s : string) : Z :=
  match s with
  | EmptyString => acc
  | String c s' => digits_value (10 * acc + (Z.of_nat (nat_of_ascii c) - 48)) s'
  end.

(** A field of one or more ASCII digits, as its value. *)
Definition parse_digits (s : string) : option Z :=
  match s with
  | EmptyString => None
  | _ => if all_digits s then Some (digits_value 0 s) else None
  end.

End Str.

(* ================================================================= *)
(** ** Numbers as text *)

Module Fmt.

(** Round to the nearest integer, a tie to the even one: what the
    presentation [.0f] does to the exact value. *)
Definition round_half_even (q : Q) : Z :=
  let n := Qnum q in
  let d := Zpos (Qden q) in
  let f := n / d in
  let r := n mod d in
  match 2 * r ?= d with
  | Lt => f
  | Gt => f + 1
  | Eq => if Z.even f then f else f + 1
  end.

(** The digits of a number, least significant first, with a comma after
    every third one that has a successor; [k] counts the digits of the
    group being written. *)
Fixpoint commas_rev (k : nat) (l : list ascii) : list ascii :=
  match l with
  | [] => []
  | c :: l' =>
      match k with
      | 3%nat => ","%char :: c :: commas_rev 1 l'
      | _ => c :: commas_rev (S k) l'
      end
  end.

Definition group_thousands (digits : string) : string :=
  string_of_list_ascii
    (rev (commas_rev 0 (rev (list_ascii_of_string digits)))).

(** [f"{q:,.0f}"] of a finite number. A negative value keeps its sign
    when it rounds to zero, as a float does. *)
Definition comma_0f (q : Q) : string :=
  let body := group_thousands (Str.of_Z (Z.abs (round_half_even q))) in
  if Qnum q <? 0 then ("-" ++ body)%string else body.

End Fmt.

(* ================================================================= *)
(** ** float64 arithmetic *)

Module Float64.

Definition pow2 (e : Z) : Q := Qpower 2 e.

(** The magnitude of [q] counted in units of [2 ^ e]. *)
Definition scaled (q : Q) (e : Z) : Q := (Qabs q * pow2 (- e))%Q.

(** The exponent of the last of the 53 bits of the float64 nearest to a
    nonzero [q]: the one that puts the scaled magnitude between
    [2 ^ 52] and [2 ^ 53]. *)
Definition exponent (q : Q) : Z :=
  let e0 := Z.log2 (Z.abs (Qnum q)) - Z.log2 (Zpos (Qden q)) - 52 in
  if Qle_bool (pow2 52) (scaled q e0) then e0 else e0 - 1.

(** The float64 nearest to [q], a tie to the one whose last bit is 0. *)
Definition round53 (q : Q) : Q :=
  if Qnum q =? 0 then 0%Q
  else
    let e := exponent q in
    let m := inject_Z (Fmt.round_half_even (scaled q e)) in
    if Qnum q <? 0 then (- (m * pow2 e))%Q else (m * pow2 e)%Q.

(** [a + b], [a - b] and [a / b] of two float64. *)
Definition add (a b : Q) : Q := round53 (a + b).
Definition sub (a b : Q) : Q := round53 (a - b).
Definition div (a b : Q) : Q := round53 (a / b).

(** Half the distance from 1 to the next float64. *)
Definition unit_roundoff : Q := 1 # 9007199254740992.

End Float64.

(* ================================================================= *)
(** ** numpy: the sum of a float64 array *)

Module Numpy.

(** The additions of a sum, in the order they are made. *)
Inductive expr : Type :=
| Leaf (q : Q)
| Plus (a b : expr).

Fixpoint eval (t : expr) : Q :=
  match t with
  | Leaf q => q
  | Plus a b => Float64.add (eval a) (eval b)
  end.

(** [for x in l: res += x] *)
Definition chain (res : expr) (l : list Q) : expr :=
  fold_left (fun acc x => Plus acc (Leaf x)) l res.

(** The unrolled loop of the pairwise sum: eight running sums take the
    elements eight at a time, and are added two by two when fewer than
    eight elements are left. *)
Fixpoint unrolled (r0 r1 r2 r3 r4 r5 r6 r7 : expr) (l : list Q)
  : expr * list Q :=
  match l with
  | a0 :: a1 :: a2 :: a3 :: a4 :: a5 :: a6 :: a7 :: l' =>
      unrolled (Plus r0 (Leaf a0)) (Plus r1 (Leaf a1)) (Plus r2 (Leaf a2))
               (Plus r3 (Leaf a3)) (Plus r4 (Leaf a4)) (Plus r5 (Leaf a5))
               (Plus r6 (Leaf a6)) (Plus r7 (Leaf a7)) l'
  | _ =>
      (Plus (Plus (Plus r0 r1) (Plus r2 r3)) (Plus (Plus r4 r5) (Plus r6 r7)),
       l)
  end.

(** A block of at most 128 elements: fewer than eight are added to zero
    one after the other; otherwise the first eight start the running
    sums, and the elements the unrolled loop leaves are added last. *)
Definition block (l : list Q) : expr :=
  match l with
  | a0 :: a1 :: a2 :: a3 :: a4 :: a5 :: a6 :: a7 :: l' =>
      let (t, rest) :=
        unrolled (Leaf a0) (Leaf a1) (Leaf a2) (Leaf a3)
                 (Leaf a4) (Leaf a5) (Leaf a6) (Leaf a7) l' in
      chain t rest
  | _ => chain (Leaf 0%Q) l
  end.

(** The pairwise sum: an array of more than 128 elements is cut in two
    near the middle, at a multiple of eight, and the sums of the halves
    are added. Each half is shorter than the array, so as many levels
    as there are elements are more than are ever used. *)
Fixpoint pairwise (levels : nat) (l : list Q) : expr :=
  match levels with
  | O => block l
  | S levels' =>
      let n := List.length l in
      if (n <=? 128)%nat then block l
      else
        let n2 := (n / 2 - (n / 2) mod 8)%nat in
        Plus (pairwise levels' (firstn n2 l)) (pairwise levels' (skipn n2 l))
  end.

(** [np.add.reduce] of a float64 array. *)
Definition add_reduce (l : list Q) : Q := eval (pairwise (List.length l) l).

End Numpy.

(* ================================================================= *)
(** ** Dates *)

Module Date.

(** A cell of a datetime column: a calendar day, or [NaT], the date
    that is missing. *)
Inductive Timestamp : Type :=
| mkTimestamp (ts_year ts_month ts_day : Z)
| NaT.

(** Chronological order: year, then month, then day. A sort puts the
    missing dates after all the others ([na_position="last"]), so [NaT]
    is the greatest here. *)
Definition ts_compare (a b : Timestamp) : comparison :=
  match a, b with
  | mkTimestamp y1 m1 d1, mkTimestamp y2 m2 d2 =>
      match y1 ?= y2 with
      | Eq =>
          match m1 ?= m2 with
          | Eq => d1 ?= d2
          | c => c
          end
      | c => c
      end
  | mkTimestamp _ _ _, NaT => Lt
  | NaT, mkTimestamp _ _ _ => Gt
  | NaT, NaT => Eq
  end.

Definition ts_leb (a b : Timestamp) : bool :=
  match ts_compare a b with
  | Gt => false
  | _ => true
  end.

Definition ts_le (a b : Timestamp) : Prop := ts_leb a b = true.
Definition ts_lt (a b : Timestamp) : Prop := ts_compare a b = Lt.

Definition is_leap (y : Z) : bool :=
  ((y mod 4 =? 0) && (negb (y mod 100 =? 0) || (y mod 400 =? 0)))%bool.

Definition days_in_month (y m : Z) : Z :=
  if m =? 2 then (if is_leap y then 29 else 28)
  else if (m =? 4) || (m =? 6) || (m =? 9) || (m =? 11) then 30
  else 31.

Definition valid_date (y m d : Z) : bool :=
  ((1 <=? y) && (1 <=? m) && (m <=? 12) && (1 <=? d)
   && (d <=? days_in_month y m))%bool.

Definition short_field (s : string) : bool :=
  (Nat.leb (String.length s) 2)%nat.

(** The texts [to_datetime] takes for a missing date. *)
Definition nat_strings : list string :=
  [ EmptyString; "NaT"; "nat"; "NAT"; "nan"; "NaN"; "NAN" ]%string.

(** A day written year-month-day: a year of four digits, a month and a
    day of one or two, joined by dashes. *)
Definition read_ymd (s : string) : result Timestamp :=
  match Str.split_dash s with
  | [y; m; d] =>
      if (Nat.eqb (String.length y) 4 && short_field m && short_field d)%bool
      then
        match Str.parse_digits y, Str.parse_digits m, Str.parse_digits d with
        | Some y', Some m', Some d' =>
            if valid_date y' m' d' then Ok (mkTimestamp y' m' d')
            else Raise ValueError
        | _, _, _ => Raise ValueError
        end
      else Raise ValueError
  | _ => Raise ValueError
  end.

(** [pd.to_datetime] of one cell. A missing cell ([None]) and the texts
    of [nat_strings] give [NaT]. Of the layouts pandas reads, one is
    modelled: year-month-day with a year of four digits, which is what
    [load_data] writes for a file without a date column, and what an
    ISO date in a [tanggal] column is. For any other text the model
    answers [ValueError], whether pandas raises for it or reads it by
    other rules (as it does 2021/01/01, or a year of two digits): no
    property below rests on that answer. *)
Definition to_datetime1 (cell : option string) : result Timestamp :=
  match cell with
  | None => Ok NaT
  | Some s =>
      if existsb (String.eqb s) nat_strings then Ok NaT else read_ymd s
  end.

(** [pd.to_datetime] of a column: every cell, or the first error
    ([errors="raise"] is the default). *)
Definition to_datetime (col : list (option string)) : result (list Timestamp) :=
  mapM to_datetime1 col.

End Date.

Export Date.

(* ================================================================= *)
(** ** Text of the query string *)

Module Query.

Inductive digit : Type := D0 | D1 | D2 | D3 | D4 | D5 | D6 | D7 | D8 | D9.

Definition digit_value (d : digit) : Z :=
  match d with
  | D0 => 0 | D1 => 1 | D2 => 2 | D3 => 3 | D4 => 4
  | D5 => 5 | D6 => 6 | D7 => 7 | D8 => 8 | D9 => 9
  end.

(** A character of a query argument: its code point, and what the
    Unicode database says of it as a number.
    - [UDecimal]: Numeric_Type=Decimal, a digit of a positional system,
      with its value: ASCII 0 to 9 (U+0030 to U+0039), the Arabic-Indic
      digits, the fullwidth digits, ...
    - [UDigit]: Numeric_Type=Digit, a digit that forms no numeral: the
      superscript two U+00B2, the circled digits, ...
    - [UOther]: every other character (letters, signs, blanks, ...). *)
Inductive uchar : Type :=
| UDecimal (cp : N) (v : digit)
| UDigit (cp : N)
| UOther (cp : N).

Definition ustr : Type := list uchar.

Definition char_isdigit (c : uchar) : bool :=
  match c with
  | UDecimal _ _ | UDigit _ => true
  | UOther _ => false
  end.

(** [s.isdigit()]: at least one character and every character a digit
    (Numeric_Type Digit or Decimal). *)
Definition isdigit (s : ustr) : bool :=
  match s with
  | [] => false
  | _ => forallb char_isdigit s
  end.

(** The most digits [int] converts, [sys.int_info.default_max_str_digits]. *)
Definition max_str_digits : nat := 4300.

Fixpoint decimal_value (acc : Z) (s : ustr) : result Z :=
  match s with
  | [] => Ok acc
  | UDecimal _ v :: s' => decimal_value (10 * acc + digit_value v) s'
  | _ :: _ => Raise ValueError
  end.

(** [int(s)] on a string of digits, the only strings the program hands
    to it: the decimal digits are read in base ten; a digit that is not
    decimal is an invalid literal, and so is a string longer than the
    conversion limit. (Signs, blanks and underscores, which [int] also
    reads, are [UOther] and never reach it.) *)
Definition int_ (s : ustr) : result Z :=
  match s with
  | [] => Raise ValueError
  | _ =>
      if Nat.ltb max_str_digits (List.length s) then Raise ValueError
      else decimal_value 0 s
  end.

(** The truth value of [request.args.get(...)]: [None] and the empty
    string are false. *)
Definition truthy (a : option ustr) : bool :=
  match a with
  | None | Some [] => false
  | Some (_ :: _) => true
  end.

(** [a or ""] *)
Definition or_empty (a : option ustr) : ustr :=
  match a with
  | None => []
  | Some s => s
  end.

(** An ASCII literal as query text. *)
Definition of_ascii_char (c : ascii) : uchar :=
  let n := nat_of_ascii c in
  match (n - 48)%nat with
  | 0%nat => if Nat.eqb n 48 then UDecimal 48 D0 else UOther (N.of_nat n)
  | 1%nat => UDecimal 49 D1
  | 2%nat => UDecimal 50 D2
  | 3%nat => UDecimal 51 D3
  | 4%nat => UDecimal 52 D4
  | 5%nat => UDecimal 53 D5
  | 6%nat => UDecimal 54 D6
  | 7%nat => UDecimal 55 D7
  | 8%nat => UDecimal 56 D8
  | 9%nat => UDecimal 57 D9
  | _ => UOther (N.of_nat n)
  end.

Definition of_ascii (s : string) : ustr :=
  map of_ascii_char (list_ascii_of_string s).

(** The superscript two, U+00B2. *)
Definition superscript_two : uchar := UDigit 178.

End Query.

(* ================================================================= *)
(** ** pandas: Series and DataFrame *)

Module Pandas.

(** A value a reduction may give: a finite number, or NaN (the mean of
    no number). *)
Inductive value : Type :=
| Num (q : Q)
| NaN.

(** A Series: the values in positional order, each with its label. *)
Definition Series (A : Type) : Type := list (nat * A).

Definition values {A : Type} (s : Series A) : list A := map snd s.
Definition labels {A : Type} (s : Series A) : list nat := map fst s.

(** [s.sum()] of a float64 column without a missing cell: numpy adds
    its values. (An int64 column adds in int64; the two agree on whole
    numbers whose magnitudes sum to no more than [2 ^ 53].) *)
Definition sum (s : Series Q) : Q := Numpy.add_reduce (values s).

(** [s.mean()]: the sum divided by the count, both float64. *)
Definition mean (s : Series Q) : value :=
  match s with
  | [] => NaN
  | _ => Num (Float64.div (sum s) (inject_Z (Z.of_nat (List.length s))))
  end.

(** [s.iloc[i]]: a negative position counts from the end; a position
    outside the Series raises. *)
Definition iloc {A : Type} (s : Series A) (i : Z) : result A :=
  let n := Z.of_nat (List.length s) in
  let j := if i <? 0 then n + i else i in
  if (0 <=? j) && (j <? n) then
    match nth_error (values s) (Z.to_nat j) with
    | Some v => Ok v
    | None => Raise IndexError
    end
  else Raise IndexError.

(** [s.min()] and [s.max()] of a column of integers; [None] is the NaN
    of an empty column. *)
Definition min (s : Series Z) : option Z :=
  match values s with
  | [] => None
  | v :: vs => Some (fold_left Z.min vs v)
  end.

Definition max (s : Series Z) : option Z :=
  match values s with
  | [] => None
  | v :: vs => Some (fold_left Z.max vs v)
  end.

(** One pass over the Series that keeps the best entry seen; a later
    entry replaces it only when it is strictly better. *)
Fixpoint arg_best (better : Q -> Q -> bool) (best : nat * Q)
    (s : Series Q) : nat * Q :=
  match s with
  | [] => best
  | (i, v) :: s' =>
      if better v (snd best) then arg_best better (i, v) s'
      else arg_best better best s'
  end.

Definition gtb (a b : Q) : bool := negb (Qle_bool a b).
Definition ltb (a b : Q) : bool := negb (Qle_bool b a).

(** [s.idxmax()] and [s.idxmin()]: the label of the first occurrence of
    the greatest (least) value; an empty Series raises. *)
Definition idxmax (s : Series Q) : result nat :=
  match s with
  | [] => Raise ValueError
  | e :: s' => Ok (fst (arg_best gtb e s'))
  end.

Definition idxmin (s : Series Q) : result nat :=
  match s with
  | [] => Raise ValueError
  | e :: s' => Ok (fst (arg_best ltb e s'))
  end.

(** What [df.loc[label]] is: the row when one row bears the label, a
    frame of the rows when several do. *)
Inductive located (R : Type) : Type :=
| OneRow (r : R)
| SubFrame (rows : list (nat * R)).

Arguments OneRow {R} r.
Arguments SubFrame {R} rows.

Definition loc {R : Type} (df : list (nat * R)) (label : nat)
  : result (located R) :=
  match filter (fun e => Nat.eqb (fst e) label) df with
  | [] => Raise KeyError
  | [e] => Ok (OneRow (snd e))
  | es => Ok (SubFrame es)
  end.

(** [df[mask]]: the rows where the mask holds, in order, labels kept. *)
Definition select {R : Type} (mask : R -> bool) (df : list (nat * R))
  : list (nat * R) :=
  filter (fun e => mask (snd e)) df.

(** [df.tail(n)] *)
Definition tail {R : Type} (n : nat) (df : list (nat * R)) : list (nat * R) :=
  skipn (List.length df - n) df.

(** [df.sort_values(key)]: the rows in ascending order of the key. The
    order pandas gives to rows of equal key is not fixed by its default
    sort; here they keep their order. *)
Fixpoint insert_by {R : Type} (leb : R -> R -> bool) (e : nat * R)
    (l : list (nat * R)) : list (nat * R) :=
  match l with
  | [] => [e]
  | e' :: l' =>
      if leb (snd e) (snd e') then e :: e' :: l'
      else e' :: insert_by leb e l'
  end.

Definition sort_values {R : Type} (leb : R -> R -> bool)
    (df : list (nat * R)) : list (nat * R) :=
  fold_right (insert_by leb) [] df.

(** The RangeIndex [read_csv] gives: row [k] has label [k]. *)
Definition range_index {R : Type} (rows : list R) : list (nat * R) :=
  combine (seq 0 (List.length rows)) rows.

End Pandas.

(* ================================================================= *)
(** ** The application *)

Module App.

Import Pandas.
Local Open Scope string_scope.

(** The columns the CSV file gives for one month. *)
Record Cells : Type := mkCells
  { tahun : Z;
    bulan : string;
    jumlah_sampah : Q;
    penanganan_estimasi : Q;
    sisa_sampah : Q;
    akumulasi : Q;
    skn_BAU : Q;
    skn_70 : Q;
    skn_80 : Q }.

(** A row once [load_data] is done with it: the date is there, and the
    month number when it had to be looked up. *)
Record Row : Type := mkRow
  { cells : Cells;
    tanggal : Timestamp;
    bulan_num : option Z }.

Definition DataFrame : Type := list (nat * Row).

(** [df[name]] *)
Definition col {A : Type} (f : Cells -> A) (df : DataFrame) : Series A :=
  map (fun e => (fst e, f (cells (snd e)))) df.

Definition col_tanggal (df : DataFrame) : Series Timestamp :=
  map (fun e => (fst e, tanggal (snd e))) df.

(** What [read_csv] found: a file with a [tanggal] column (its cells are
    text still), or a file without one. *)
Inductive Csv : Type :=
| CsvDated (rows : list (string * Cells))
| CsvMonthly (rows : list Cells).

(** The cells [read_csv] takes for missing, its default [na_values]. *)
Definition na_values : list string :=
  [ EmptyString; "#N/A"; "#N/A N/A"; "#NA"; "-1.#IND"; "-1.#QNAN"; "-NaN"; "-nan";
    "1.#IND"; "1.#QNAN"; "<NA>"; "N/A"; "NA"; "NULL"; "NaN"; "None";
    "n/a"; "nan"; "null" ].

(** A cell of a text column as [read_csv] hands it on. *)
Definition read_cell (s : string) : option string :=
  if existsb (String.eqb s) na_values then None else Some s.

Definition bulan_map : list (string * Z) :=
  [ ("JANUARI", 1); ("FEBRUARI", 2); ("MARET", 3); ("APRIL", 4);
    ("MEI", 5); ("JUNI", 6); ("JULI", 7); ("AGUSTUS", 8);
    ("SEPTEMBER", 9); ("OKTOBER", 10); ("NOVEMBER", 11); ("DESEMBER", 12) ]%Z.

(** The lookup [Series.map(dict)] does; [None] is the NaN of a key that
    is not there. *)
Fixpoint dict_get (d : list (string * Z)) (k : string) : option Z :=
  match d with
  | [] => None
  | (k', v) :: d' => if String.eqb k k' then Some v else dict_get d' k
  end.

Definition is_some {A : Type} (o : option A) : bool :=
  match o with
  | Some _ => true
  | None => false
  end.

(** [astype(str)] of the looked-up month numbers: a column without NaN
    is int64 and prints 1, 2, ...; one NaN makes the column float64,
    which prints 1.0, 2.0, ..., and a NaN stays a missing cell of the
    text column. *)
Definition astype_str_num (column : list (option Z)) : list (option string) :=
  if forallb is_some column then
    map (option_map Str.of_Z) column
  else
    map (option_map (fun m => Str.of_Z m ++ ".0")) column.

(** The text handed to [to_datetime] for one row. *)
Definition date_text (year month : string) : string :=
  year ++ "-" ++ month ++ "-01".

(** Line 27: joining text to a missing cell gives a missing cell. *)
Definition date_cell (year : string) (month : option string) : option string :=
  option_map (date_text year) month.

Definition by_tanggal (a b : Row) : bool := ts_leb (tanggal a) (tanggal b).

(** Lines 16 to 28: the frame with its [tanggal] column, not sorted yet. *)
Definition dated_frame (csv : Csv) : result DataFrame :=
  match csv with
  | CsvDated rows =>
      ts <- to_datetime (map (fun r => read_cell (fst r)) rows) ;;
      Ok (range_index
            (map (fun ct => mkRow (fst ct) (snd ct) None)
                 (combine (map snd rows) ts)))
  | CsvMonthly rows =>
      let nums := map (fun c => dict_get bulan_map (Str.upper (bulan c))) rows in
      let text :=
        map (fun ym => date_cell (fst ym) (snd ym))
            (combine (map (fun c => Str.of_Z (tahun c)) rows)
                     (astype_str_num nums)) in
      ts <- to_datetime text ;;
      Ok (range_index
            (map (fun ctn => mkRow (fst (fst ctn)) (snd (fst ctn)) (snd ctn))
                 (combine (combine rows ts) nums)))
  end.

Definition load_data (csv : Csv) : result DataFrame :=
  df <- dated_frame csv ;;
  Ok (sort_values by_tanggal df).

(** The dictionary [build_summary] returns. *)
Record Summary : Type := mkSummary
  { periode : string;
    total_sampah : string;
    total_sampah_value : value;
    rata_penanganan : string;
    rata_penanganan_value : value;
    sisa_akhir : string;
    sisa_akhir_value : value;
    akumulasi_akhir : string;
    akumulasi_akhir_value : value }.

(** [f"{v:,.0f}"] *)
Definition fmt (v : value) : string :=
  match v with
  | Num q => Fmt.comma_0f q
  | NaN => "nan"
  end.

(** [f"{y}"] of a minimum or maximum of the year column. *)
Definition fmt_year (y : option Z) : string :=
  match y with
  | Some n => Str.of_Z n
  | None => "nan"
  end.

Definition build_summary (df : DataFrame) : result Summary :=
  let total := sum (col jumlah_sampah df) in
  let rata := mean (col penanganan_estimasi df) in
  sisa <- iloc (col sisa_sampah df) (-1) ;;
  akum <- iloc (col akumulasi df) (-1) ;;
  let periode_ :=
    fmt_year (min (col tahun df)) ++ " - " ++ fmt_year (max (col tahun df)) in
  Ok {| periode := periode_;
        total_sampah := fmt (Num total) ++ " ton";
        total_sampah_value := Num total;
        rata_penanganan := fmt rata ++ " ton/bulan";
        rata_penanganan_value := rata;
        sisa_akhir := fmt (Num sisa) ++ " ton";
        sisa_akhir_value := Num sisa;
        akumulasi_akhir := fmt (Num akum) ++ " ton";
        akumulasi_akhir_value := Num akum |}.

(** Line 52: [df.loc[df["jumlah_sampah"].idxmax()]]. *)
Definition highest_of (df : DataFrame) : result (located Row) :=
  i <- idxmax (col jumlah_sampah df) ;;
  loc df i.

(** Line 53: [df.loc[df["jumlah_sampah"].idxmin()]]. *)
Definition lowest_of (df : DataFrame) : result (located Row) :=
  i <- idxmin (col jumlah_sampah df) ;;
  loc df i.

(** The row an f-string of [build_insights] reads its fields from: a
    frame in the place of a row has no [title] on its month column. *)
Definition as_row (l : located Row) : result Row :=
  match l with
  | OneRow r => Ok r
  | SubFrame _ => Raise AttributeError
  end.

Definition puncak_text (r : Row) : string :=
  "Puncak timbulan terjadi pada " ++ Str.title (bulan (cells r)) ++ " "
    ++ Str.of_Z (tahun (cells r)) ++ " sebesar "
    ++ Fmt.comma_0f (jumlah_sampah (cells r)) ++ " ton.".

Definition terendah_text (r : Row) : string :=
  "Periode terendah adalah " ++ Str.title (bulan (cells r)) ++ " "
    ++ Str.of_Z (tahun (cells r)) ++ " dengan "
    ++ Fmt.comma_0f (jumlah_sampah (cells r)) ++ " ton.".

Definition skenario_text (delta : Q) : string :=
  "Skenario 80% menurunkan akumulasi akhir sebesar "
    ++ Fmt.comma_0f delta ++ " ton dibanding BAU.".

Definition build_insights (df : DataFrame) : result (list string) :=
  highest <- highest_of df ;;
  lowest <- lowest_of df ;;
  best_intervention <- iloc (col skn_80 df) (-1) ;;
  bau_end <- iloc (col skn_BAU df) (-1) ;;
  let delta := Float64.sub bau_end best_intervention in
  h <- as_row highest ;;
  l <- as_row lowest ;;
  Ok [ puncak_text h; terendah_text l; skenario_text delta ].

(** A Plotly trace and figure, as far as the data goes. *)
Record Trace : Type := mkTrace
  { tr_name : string;
    tr_mode : string;
    tr_x : list Timestamp;
    tr_y : list Q }.

Record Figure : Type := mkFigure
  { fig_title : string;
    fig_traces : list Trace }.

(** [px.line(df, x="tanggal", y=..., markers=True)]: with no grouping
    column, one trace, a point per row, in the order of the frame (for
    a frame without rows, a trace without points). *)
Definition px_line (df : DataFrame) (y : Cells -> Q) (ttl : string) : Figure :=
  mkFigure ttl
    [ mkTrace "" "lines+markers" (values (col_tanggal df)) (values (col y df)) ].

(** [go.Scatter(x=df["tanggal"], y=df[...], mode=..., name=...)] *)
Definition scatter (df : DataFrame) (y : Cells -> Q) (mode name : string)
  : Trace :=
  mkTrace name mode (values (col_tanggal df)) (values (col y df)).

(** Lines 70 to 124: the three figures before they are rendered. *)
Definition chart_figures (df : DataFrame) : Figure * Figure * Figure :=
  let fig_tren := px_line df jumlah_sampah "Tren Jumlah Sampah Bulanan" in
  let fig_akumulasi := px_line df akumulasi "Akumulasi Sampah (BAU)" in
  let fig_skenario :=
    mkFigure "Perbandingan Skenario Kebijakan"
      [ scatter df skn_BAU "lines" "BAU (60%)";
        scatter df skn_70 "lines+markers" "Skenario 70%";
        scatter df skn_80 "lines+markers" "Skenario 80%" ] in
  (fig_tren, fig_akumulasi, fig_skenario).

(** Lines 140 to 144: the view after the bounds that are given. *)
Definition apply_bounds (df : DataFrame) (year_from year_to : option Query.ustr)
  : result DataFrame :=
  v1 <- (if (Query.truthy year_from && Query.isdigit (Query.or_empty year_from))%bool
         then n <- Query.int_ (Query.or_empty year_from) ;;
              Ok (select (fun r => tahun (cells r) >=? n)%Z df)
         else Ok df) ;;
  if (Query.truthy year_to && Query.isdigit (Query.or_empty year_to))%bool
  then n <- Query.int_ (Query.or_empty year_to) ;;
       Ok (select (fun r => tahun (cells r) <=? n)%Z v1)
  else Ok v1.

(** [df.empty] *)
Definition empty (df : DataFrame) : bool :=
  match df with
  | [] => true
  | _ :: _ => false
  end.

(** Lines 140 to 149: the view and the two arguments as the rest of
    [index] sees them. *)
Definition year_filter (df : DataFrame) (year_from year_to : option Query.ustr)
  : result (DataFrame * option Query.ustr * option Query.ustr) :=
  df_view <- apply_bounds df year_from year_to ;;
  if empty df_view then Ok (df, Some [], Some [])
  else Ok (df_view, year_from, year_to).

(** [sorted(df["tahun"].unique())] *)
Fixpoint insert_year (y : Z) (l : list Z) : list Z :=
  match l with
  | [] => [y]
  | z :: l' =>
      if (y <? z)%Z then y :: z :: l'
      else if (y =? z)%Z then z :: l'
      else z :: insert_year y l'
  end.

Definition sorted_years (df : DataFrame) : list Z :=
  fold_right insert_year [] (values (col tahun df)).

(** What [index] hands to the template. *)
Record Page : Type := mkPage
  { pg_table : list Row;
    pg_tren : string;
    pg_akumulasi : string;
    pg_skenario : string;
    pg_summary : Summary;
    pg_insights : list string;
    pg_years : list Z;
    pg_year_from : Query.ustr;
    pg_year_to : Query.ustr }.

Section Rendering.

(** [fig.to_html(...)], the work of Plotly. *)
Variable render_plotly : Figure -> string.

Definition generate_charts (df : DataFrame) : string * string * string :=
  let '(fig_tren, fig_akumulasi, fig_skenario) := chart_figures df in
  (render_plotly fig_tren, render_plotly fig_akumulasi,
   render_plotly fig_skenario).

Definition index (csv : Csv) (year_from year_to : option Query.ustr)
  : result Page :=
  df <- load_data csv ;;
  let years := sorted_years df in
  st <- year_filter df year_from year_to ;;
  let '(df_view, year_from', year_to') := st in
  summary <- build_summary df_view ;;
  insights <- build_insights df_view ;;
  let '(tren_html, akumulasi_html, skenario_html) := generate_charts df_view in
  Ok {| pg_table := values (tail 24 df_view);
        pg_tren := tren_html;
        pg_akumulasi := akumulasi_html;
        pg_skenario := skenario_html;
        pg_summary := summary;
        pg_insights := insights;
        pg_years := years;
        pg_year_from := Query.or_empty year_from';
        pg_year_to := Query.or_empty year_to' |}.

End Rendering.

End App.

(* ================================================================= *)
(** * The vocabulary of the properties *)

Import Float64 Numpy Pandas App.

Definition rows (df : DataFrame) : list Row := map snd df.

(** No two rows bear the same label. *)
Definition unique_labels (df : DataFrame) : Prop := NoDup (map fst df).

Definition earlier (a b : nat * Row) : Prop :=
  ts_le (tanggal (snd a)) (tanggal (snd b)).

(** The rows go forward in time. *)
Definition chronological (df : DataFrame) : Prop := StronglySorted earlier df.

(** The sum of a column over the rows, row by row. *)
Fixpoint total_of (f : Cells -> Q) (l : list Row) : Q :=
  match l with
  | [] => 0%Q
  | r :: l' => (f (cells r) + total_of f l')%Q
  end.

(** A reduction gave the finite number [q]. *)
Definition is_num (v : value) (q : Q) : Prop :=
  match v with
  | Num q' => (q' == q)%Q
  | NaN => False
  end.

(** The sum of the magnitudes of a column over the rows. *)
Definition mass_of (f : Cells -> Q) (l : list Row) : Q :=
  total_of (fun c => Qabs (f c)) l.

(** A whole number. *)
Definition whole (q : Q) : Prop := exists z, (q == inject_Z z)%Q.

(** What an addition tree adds up when no addition rounds: a weight of
    each leaf. With the leaf itself for weight it is the sum of the
    leaves, with its magnitude the sum of their magnitudes. *)
Fixpoint weigh (w : Q -> Q) (t : expr) : Q :=
  match t with
  | Leaf q => w q
  | Plus a b => (weigh w a + weigh w b)%Q
  end.

Definition leaf_sum (t : expr) : Q := weigh (fun q => q) t.
Definition leaf_mass (t : expr) : Q := weigh Qabs t.

(** The most additions a leaf goes through. *)
Fixpoint height (t : expr) : nat :=
  match t with
  | Leaf _ => 0%nat
  | Plus a b => S (Nat.max (height a) (height b))
  end.

Fixpoint whole_leaves (t : expr) : Prop :=
  match t with
  | Leaf q => whole q
  | Plus a b => whole_leaves a /\ whole_leaves b
  end.

(** [(1 + u) ^ k] for the unit roundoff [u], and how far [k] roundings
    in a row can carry a sum, relative to the magnitudes added. *)
Fixpoint compound (k : nat) : Q :=
  match k with
  | O => 1%Q
  | S k' => (compound k' * (1 + Float64.unit_roundoff))%Q
  end.

Definition drift (k : nat) : Q := (compound k - 1)%Q.

Fixpoint total_by (w : Q -> Q) (l : list Q) : Q :=
  match l with
  | [] => 0%Q
  | x :: l' => (w x + total_by w l')%Q
  end.

(** The number that a float of the Standard Library's specification
    of IEEE 754 is, the binary64 nearest to a ratio of two small
    integers, and a grid of such ratios on which to compare an
    operation of [Float64] with the specification's. *)
Definition SF2Q (x : spec_float) : Q :=
  match x with
  | S754_finite s m e =>
      ((if s then inject_Z (Zneg m) else inject_Z (Zpos m)) * Float64.pow2 e)%Q
  | _ => 0%Q
  end.

Definition SF_of_Z (n : Z) : spec_float := binary_normalize 53 1024 n 0 false.

Definition SF_ratio (n d : Z) : spec_float :=
  SFdiv 53 1024 (SF_of_Z n) (SF_of_Z d).

Definition grid : list Z := map (fun k => Z.of_nat k - 12) (seq 0 25).

Definition agree (op : Q -> Q -> Q)
    (sop : spec_float -> spec_float -> spec_float) (a b : Z) : bool :=
  let x := SF_ratio a 10 in
  let y := SF_ratio b 7 in
  Qeq_bool (op (SF2Q x) (SF2Q y)) (SF2Q (sop x y)).

Definition agree_on_grid (op : Q -> Q -> Q)
    (sop : spec_float -> spec_float -> spec_float) : bool :=
  forallb (fun a => forallb (agree op sop a) grid) grid.

(** [s.lower()] *)
Fixpoint lower (s : string) : string :=
  match s with
  | EmptyString => EmptyString
  | String c s' => String (Str.to_lower c) (lower s')
  end.

(** The month name [s] is, whatever its case, the key of number [m]. *)
Definition month_named (s : string) (m : Z) : Prop :=
  exists k, In (k, m) bulan_map /\ lower s = lower k.

(** The bound a query argument asks for: a nonempty string of decimal
    digits is its value in base ten, anything else is no bound. *)
Definition bound_of (a : option Query.ustr) : option Z :=
  match a with
  | Some (c :: s) =>
      match Query.decimal_value 0 (c :: s) with
      | Ok n => Some n
      | Raise _ => None
      end
  | _ => None
  end.

Definition is_decimal (c : Query.uchar) : Prop :=
  match c with
  | Query.UDecimal _ _ => True
  | _ => False
  end.

(** A query argument on which [isdigit] and [int] agree: when it is a
    string of digits, the digits are decimal and no more than [int]
    converts. *)
Definition plain (a : option Query.ustr) : Prop :=
  forall s, a = Some s -> Query.isdigit s = true ->
            Forall is_decimal s /\ (List.length s <= Query.max_str_digits)%nat.

Definition within (lo hi : option Z) (r : Row) : bool :=
  (match lo with Some n => n <=? tahun (cells r) | None => true end
   && match hi with Some n => tahun (cells r) <=? n | None => true end)%bool.

(** A file of four months without a date column, out of order, with a
    tie for the greatest amount, and the same months with one. *)
Definition sample_cells : list Cells :=
  [ mkCells 2021 "januari" 150 90 60 250 400 350 300;
    mkCells 2020 "Mei" 100 60 40 40 100 95 90;
    mkCells 2022 "DESEMBER" 90 54 36 346 500 420 350;
    mkCells 2021 "maret" 150 90 60 310 450 380 320 ]%Q.

Definition sample_csv : Csv := CsvMonthly sample_cells.

Definition sample_csv_dated : Csv :=
  CsvDated
    (combine ["2021-01-01"; "2020-05-01"; "2022-12-01"; "2021-03-01"]%string
             sample_cells).

(** The frame [load_data] makes of it, and the one it dates first. *)
Definition sample_dated : DataFrame :=
  match dated_frame sample_csv with
  | Ok df => df
  | Raise _ => []
  end.

Definition sample_frame : DataFrame := sort_values by_tanggal sample_dated.

Definition years_of (df : DataFrame) : list Z :=
  map (fun r => tahun (cells r)) (rows df).

(** The years from 1678 to 2261, and the check that a year and a month
    number, written as [load_data] writes them, are read back as the
    first day of that month. *)
Definition year_range : list Z := map (fun k => 1678 + Z.of_nat k) (seq 0 584).
Definition month_range : list Z := map (fun k => 1 + Z.of_nat k) (seq 0 12).

Definition reads_back (y m : Z) : bool :=
  match to_datetime1 (Some (date_text (Str.of_Z y) (Str.of_Z m))) with
  | Ok t =>
      match ts_compare t (mkTimestamp y m 1) with
      | Eq => true
      | _ => false
      end
  | Raise _ => false
  end.

(** A file whose month names are not in the dictionary. *)
Definition sample_cells_unknown : list Cells :=
  [ mkCells 2021 "Januar" 150 90 60 250 400 350 300;
    mkCells 2021 "Febuari" 100 60 40 290 420 360 310 ]%Q.

Definition sample_csv_unknown : Csv := CsvMonthly sample_cells_unknown.

(** The number line 25 finds for the month of a row, 0 when it finds
    none. *)
Definition month_number (c : Cells) : Z :=
  match dict_get bulan_map (Str.upper (bulan c)) with
  | Some m => m
  | None => 0
  end.

(** Four months whose amounts and whose last scenario values are
    float64 that are not whole: 1778.6, 1594.2, 2275.9 and 1983.8 tons,
    and at the end 1000.3 against 0.8. *)
Definition rounding_cells : list Cells :=
  [ mkCells 2021 "JANUARI" (3911182762324787 # 2199023255552) 90 60 250 400 350 300;
    mkCells 2021 "FEBRUARI" (7011365748001997 # 4398046511104) 90 60 310 450 380 320;
    mkCells 2021 "MARET" (5004757027310797 # 2199023255552) 90 60 370 500 420 350;
    mkCells 2021 "APRIL" (8724844668728115 # 4398046511104) 90 60 430
            (4399365925057331 # 4398046511104) 500
            (3602879701896397 # 4503599627370496) ]%Q.

Definition rounding_csv : Csv := CsvMonthly rounding_cells.

(** Three years with 100, 150 and 90 tons, and the query text 2025. *)
Definition scenario_csv : Csv :=
  CsvMonthly
    [ mkCells 2020 "JANUARI" 100 60 40 40 100 95 90;
      mkCells 2021 "JANUARI" 150 90 60 100 250 230 200;
      mkCells 2022 "JANUARI" 90 54 36 136 500 420 350 ]%Q.

Definition text_2025 : Query.ustr := Query.of_ascii "2025".

(** One ASCII zero more than [int] converts. *)
Definition long_zeros : Query.ustr :=
  repeat (Query.UDecimal 48 Query.D0) (S Query.max_str_digits).

(** A row with another month name, and a frame with other names. *)
Definition rename_month (f : string -> string) (c : Cells) : Cells :=
  mkCells (tahun c) (f (bulan c)) (jumlah_sampah c) (penanganan_estimasi c)
          (sisa_sampah c) (akumulasi c) (skn_BAU c) (skn_70 c) (skn_80 c).

Definition with_months (f : string -> string) (df : DataFrame) : DataFrame :=
  map (fun e => (fst e, mkRow (rename_month f (cells (snd e)))
                              (tanggal (snd e)) (bulan_num (snd e)))) df.

(** The rows of the file, as [read_csv] read them. *)
Definition csv_cells (csv : Csv) : list Cells :=
  match csv with
  | CsvDated rows => map snd rows
  | CsvMonthly rows => rows
  end.

(** A query argument the guard lets through and [int] refuses: a
    string of digits with a digit that is not decimal, or longer than
    [int] converts. *)
Definition unreadable (a : option Query.ustr) : Prop :=
  exists s, a = Some s /\ Query.isdigit s = true /\
            (~ Forall is_decimal s \/
             (Query.max_str_digits < List.length s)%nat).

(** The months of 2021 and later of the sample file. *)
Definition sample_view_2021 : DataFrame :=
  select (within (Some 2021) None) sample_frame.

(** [s.replace(",", "")] *)
Definition not_comma (c : ascii) : bool := negb (Ascii.eqb c ","%char).

Definition strip_commas (s : string) : string :=
  string_of_list_ascii (filter not_comma (list_ascii_of_string s)).

(** The text [display] shows the value [v] with the unit [suffix]:
    without its commas it is the sign of the value, the decimal digits
    of an integer no further than one half from the value, and the
    unit. *)
Definition shows (display : string) (v : value) (suffix : string) : Prop :=
  exists q z,
    v = Num q /\
    (inject_Z z - (1 # 2) <= q)%Q /\ (q <= inject_Z z + (1 # 2))%Q /\
    strip_commas display =
      ((if (Qnum q <? 0)%Z then "-" else "") ++ Str.of_Z (Z.abs z) ++ suffix)%string.

(** A year as the text of a query argument, and the check that [int]
    reads the text back as the year. *)
Definition year_text (y : Z) : Query.ustr := Query.of_ascii (Str.of_Z y).

Definition year_text_read (y : Z) : bool :=
  match Query.int_ (year_text y) with
  | Ok n => (n =? y) && Query.isdigit (year_text y)
  | Raise _ => false
  end.

Definition years_to_9999 : list Z :=
  map Z.of_nat (seq 0 (Z.to_nat 10000)).

(** The order of the calendar on the rows of a file: by year, then by
    the number of the month. *)
Definition calendar_le (a b : Cells) : Prop :=
  tahun a < tahun b \/ (tahun a = tahun b /\ month_number a <= month_number b).

(* ================================================================= *)
(** * Properties *)

(** ** The result monad *)

Lemma bind_ok {A B : Type} (m : result A) (k : A -> result B) (b : B) :
  (x <- m ;; k x) = Ok b -> exists a, m = Ok a /\ k a = Ok b.
Proof.
  destruct m as [a | e]; simpl; intros H.
  - exists a. split; [reflexivity | exact H].
  - discriminate H.
Qed.

Lemma mapM_ok {A B : Type} (f : A -> result B) (g : A -> B) (l : list A) :
  (forall x, In x l -> f x = Ok (g x)) -> mapM f l = Ok (map g l).
Proof.
  induction l as [| x l IH]; intros H; simpl.
  - reflexivity.
  - rewrite (H x (or_introl eq_refl)). simpl.
    rewrite IH by (intros y Hy; apply H; right; exact Hy).
    reflexivity.
Qed.

Lemma mapM_length {A B : Type} (f : A -> result B) (l : list A) (r : list B) :
  mapM f l = Ok r -> List.length r = List.length l.
Proof.
  revert r. induction l as [| x l IH]; simpl; intros r H.
  - injection H as <-. reflexivity.
  - destruct (f x) as [y | e]; simpl in H; [| discriminate].
    destruct (mapM f l) as [ys | e]; simpl in H; [| discriminate].
    injection H as <-. simpl. f_equal. apply IH. reflexivity.
Qed.

(** ** The order of dates *)

Ltac ts_order :=
  unfold ts_le, ts_lt, ts_leb, ts_compare in *;
  repeat match goal with
         | t : Timestamp |- _ => destruct t
         end;
  simpl in *;
  repeat match goal with
         | H : context [?a ?= ?b] |- _ =>
             destruct (Z.compare_spec a b); try discriminate
         | |- context [?a ?= ?b] =>
             destruct (Z.compare_spec a b); try discriminate
         end;
  subst; try reflexivity; try discriminate; try lia.

Lemma ts_compare_eq (a b : Timestamp) : ts_compare a b = Eq -> a = b.
Proof. intros H. ts_order. Qed.

Lemma ts_compare_refl (a : Timestamp) : ts_compare a a = Eq.
Proof. ts_order. Qed.

Lemma ts_leb_total (a b : Timestamp) : ts_leb a b = false -> ts_leb b a = true.
Proof. intros H. ts_order. Qed.

Lemma ts_le_trans (a b c : Timestamp) : ts_le a b -> ts_le b c -> ts_le a c.
Proof. intros H1 H2. ts_order. Qed.

Lemma ts_le_neq_lt (a b : Timestamp) : ts_le a b -> a <> b -> ts_lt a b.
Proof.
  intros H Hne. unfold ts_le, ts_leb in H. unfold ts_lt.
  destruct (ts_compare a b) eqn:Hc; try reflexivity; try discriminate.
  apply ts_compare_eq in Hc. contradiction.
Qed.

Lemma ts_lt_le (a b : Timestamp) : ts_lt a b -> ts_le a b.
Proof. unfold ts_lt, ts_le, ts_leb. intros ->. reflexivity. Qed.

(** ** Frames: labels, order, sorting *)

Lemma insert_by_perm (e : nat * Row) (l : DataFrame) :
  Permutation (e :: l) (insert_by by_tanggal e l).
Proof.
  induction l as [| e' l IH]; simpl.
  - apply Permutation_refl.
  - destruct (by_tanggal (snd e) (snd e')).
    + apply Permutation_refl.
    + eapply perm_trans; [apply perm_swap |].
      apply perm_skip. exact IH.
Qed.

Lemma sort_values_perm (df : DataFrame) :
  Permutation df (sort_values by_tanggal df).
Proof.
  induction df as [| e df IH]; simpl.
  - apply perm_nil.
  - eapply perm_trans; [apply perm_skip; exact IH |].
    apply insert_by_perm.
Qed.

Lemma insert_by_sorted (e : nat * Row) (l : DataFrame) :
  chronological l -> chronological (insert_by by_tanggal e l).
Proof.
  unfold chronological.
  induction l as [| e' l IH]; simpl; intros Hs.
  - constructor; constructor.
  - destruct (by_tanggal (snd e) (snd e')) eqn:Hle.
    + constructor; [exact Hs |].
      inversion Hs as [| ? ? Hs' Hall]; subst.
      constructor; [exact Hle |].
      rewrite Forall_forall in *. intros x Hx.
      unfold earlier in *. eapply ts_le_trans; [exact Hle | apply Hall, Hx].
    + inversion Hs as [| ? ? Hs' Hall]; subst.
      constructor; [apply IH; exact Hs' |].
      rewrite Forall_forall in *. intros x Hx.
      apply Permutation_in with (l' := e :: l) in Hx;
        [| apply Permutation_sym, insert_by_perm].
      destruct Hx as [<- | Hx].
      * unfold earlier. apply ts_leb_total. exact Hle.
      * apply Hall, Hx.
Qed.

Lemma sort_values_sorted (df : DataFrame) :
  chronological (sort_values by_tanggal df).
Proof.
  induction df as [| e df IH]; simpl.
  - constructor.
  - apply insert_by_sorted. exact IH.
Qed.

Lemma select_sublist (mask : Row -> bool) (df : DataFrame) :
  forall e, In e (select mask df) -> In e df.
Proof. intros e H. unfold select in H. apply filter_In in H. tauto. Qed.

Lemma select_chronological (mask : Row -> bool) (df : DataFrame) :
  chronological df -> chronological (select mask df).
Proof.
  unfold chronological, select.
  induction 1 as [| e l Hs IH Hall]; simpl.
  - constructor.
  - destruct (mask (snd e)); [| exact IH].
    constructor; [exact IH |].
    rewrite Forall_forall in *. intros x Hx.
    apply Hall. apply filter_In in Hx. tauto.
Qed.

Lemma select_unique_labels (mask : Row -> bool) (df : DataFrame) :
  unique_labels df -> unique_labels (select mask df).
Proof.
  unfold unique_labels, select.
  induction df as [| e l IH]; simpl; intros Hn.
  - constructor.
  - inversion Hn as [| ? ? Hnotin Hn']; subst.
    destruct (mask (snd e)); simpl; [| apply IH; exact Hn'].
    constructor; [| apply IH; exact Hn'].
    intros Hin. apply Hnotin.
    apply in_map_iff in Hin. destruct Hin as [x [Hx Hin]].
    apply filter_In in Hin. apply in_map_iff. exists x. tauto.
Qed.

Lemma range_index_labels (l : list Row) :
  map fst (range_index l) = seq 0 (List.length l).
Proof.
  unfold range_index.
  generalize 0%nat. induction l as [| r l IH]; intros n; simpl.
  - reflexivity.
  - f_equal. apply IH.
Qed.

Lemma range_index_rows (l : list Row) : rows (range_index l) = l.
Proof.
  unfold rows, range_index.
  generalize 0%nat. induction l as [| r l IH]; intros n; simpl.
  - reflexivity.
  - f_equal. apply IH.
Qed.

Lemma range_index_unique (l : list Row) : unique_labels (range_index l).
Proof. unfold unique_labels. rewrite range_index_labels. apply seq_NoDup. Qed.

Lemma chronological_strict (df : DataFrame) :
  chronological df ->
  NoDup (map tanggal (rows df)) ->
  StronglySorted ts_lt (map tanggal (rows df)).
Proof.
  unfold chronological, rows.
  induction 1 as [| e l Hs IH Hall]; simpl; intros Hn.
  - constructor.
  - inversion Hn as [| ? ? Hnotin Hn']; subst.
    constructor; [apply IH; exact Hn' |].
    rewrite Forall_forall in *. intros t Ht.
    rewrite map_map in Ht, Hnotin.
    apply in_map_iff in Ht. destruct Ht as [x [<- Hx]].
    apply ts_le_neq_lt; [apply Hall, Hx |].
    intros Heq. apply Hnotin. rewrite Heq.
    apply in_map_iff. exists x. auto.
Qed.

Lemma dated_frame_unique (csv : Csv) (df : DataFrame) :
  dated_frame csv = Ok df -> unique_labels df.
Proof.
  destruct csv as [l | l]; simpl; intros H;
    apply bind_ok in H; destruct H as [ts [_ H]];
    injection H as <-; apply range_index_unique.
Qed.

(** What [load_data] returns has one row per label and goes forward in
    time. *)
Lemma load_data_frame (csv : Csv) (df : DataFrame) :
  load_data csv = Ok df -> unique_labels df /\ chronological df.
Proof.
  unfold load_data. intros H. apply bind_ok in H.
  destruct H as [df0 [H0 H]]. injection H as <-. split.
  - unfold unique_labels.
    eapply Permutation_NoDup;
      [apply Permutation_map, sort_values_perm |].
    eapply dated_frame_unique. exact H0.
  - apply sort_values_sorted.
Qed.

(** C3. Whenever the months of the file have pairwise distinct dates,
    [load_data] returns the rows of the frame it dated, rearranged so
    that the date strictly increases from each row to the next. *)
Theorem load_data_strictly_increasing (csv : Csv) (df0 : DataFrame) :
  dated_frame csv = Ok df0 ->
  NoDup (map tanggal (rows df0)) ->
  exists df,
    load_data csv = Ok df /\
    Permutation df0 df /\
    StronglySorted ts_lt (map tanggal (rows df)).
Proof.
  intros H0 Hn. exists (sort_values by_tanggal df0).
  unfold load_data. rewrite H0. simpl.
  split; [reflexivity |]. split; [apply sort_values_perm |].
  apply chronological_strict; [apply sort_values_sorted |].
  eapply Permutation_NoDup; [| exact Hn].
  unfold rows. apply Permutation_map, Permutation_map, sort_values_perm.
Qed.

(** ** Rounding to an integer *)

Lemma round_half_even_integer (q : Q) (z : Z) :
  (q == inject_Z z)%Q -> Fmt.round_half_even q = z.
Proof.
  unfold Qeq, Fmt.round_half_even. destruct q as [n d]. simpl.
  intros H. rewrite Z.mul_1_r in H. subst n.
  rewrite Z.div_mul, Z.mod_mul by discriminate.
  simpl. reflexivity.
Qed.

Lemma round_half_even_bounds (n : Z) (d : positive) :
  (2 * Fmt.round_half_even (n # d) - 1) * Z.pos d <= 2 * n /\
  2 * n <= (2 * Fmt.round_half_even (n # d) + 1) * Z.pos d.
Proof.
  unfold Fmt.round_half_even. cbn [Qnum Qden].
  pose proof (Z.div_mod n (Z.pos d) ltac:(discriminate)) as Hdm.
  pose proof (Z.mod_pos_bound n (Z.pos d) ltac:(reflexivity)) as Hr.
  set (f := n / Z.pos d) in *. set (r := n mod Z.pos d) in *.
  destruct (Z.compare_spec (2 * r) (Z.pos d)) as [He | Hl | Hg];
    [destruct (Z.even f) |..]; split; nia.
Qed.

Lemma round_half_even_near (q : Q) :
  (inject_Z (Fmt.round_half_even q) - (1 # 2) <= q)%Q /\
  (q <= inject_Z (Fmt.round_half_even q) + (1 # 2))%Q.
Proof.
  destruct q as [n d].
  destruct (round_half_even_bounds n d) as [Hlo Hhi].
  set (z := Fmt.round_half_even (n # d)) in *.
  unfold Qle, Qminus, Qplus, Qopp, inject_Z. cbn [Qnum Qden].
  split; nia.
Qed.

(** ** Rounding to a float64 *)

Lemma pow2_pos (e : Z) : (0 < pow2 e)%Q.
Proof. unfold pow2. apply Qpower_0_lt. reflexivity. Qed.

Lemma pow2_add (a b : Z) : (pow2 (a + b) == pow2 a * pow2 b)%Q.
Proof. unfold pow2. apply Qpower_plus. discriminate. Qed.

Lemma pow2_inject (k : Z) : 0 <= k -> (pow2 k == inject_Z (2 ^ k))%Q.
Proof. intros H. unfold pow2. rewrite Zpower_Qpower by exact H. reflexivity. Qed.

Lemma pow2_cancel (e : Z) : (pow2 (- e) * pow2 e == 1)%Q.
Proof. rewrite <- pow2_add. replace (- e + e) with 0 by lia. reflexivity. Qed.

Lemma pow2_le (a b : Z) : a <= b -> (pow2 a <= pow2 b)%Q.
Proof.
  intros H. replace b with (a + (b - a)) by lia. rewrite pow2_add.
  assert (H1 : (1 <= pow2 (b - a))%Q).
  { rewrite pow2_inject by lia. change 1%Q with (inject_Z 1).
    rewrite <- Zle_Qle. assert (0 < 2 ^ (b - a)) by (apply Z.pow_pos_nonneg; lia). lia. }
  pose proof (pow2_pos a). nra.
Qed.

Lemma Qabs_make (n : Z) (d : positive) :
  (Qabs (n # d) * inject_Z (Zpos d) == inject_Z (Z.abs n))%Q.
Proof.
  unfold Qabs, Qeq, Qmult, inject_Z. simpl. lia.
Qed.

Lemma exponent_lower (q : Q) :
  Qnum q <> 0 -> (pow2 52 <= scaled q (exponent q))%Q.
Proof.
  intros Hn. unfold exponent.
  destruct (Qle_bool (pow2 52) (scaled q _)) eqn:Ht.
  - apply Qle_bool_iff. exact Ht.
  - clear Ht. unfold scaled. destruct q as [n d]. cbn [Qnum Qden] in *.
    pose proof (Qabs_make n d) as Habs.
    pose proof (Z.log2_spec (Z.abs n) ltac:(lia)) as [Hla _].
    pose proof (Z.log2_spec (Z.pos d) ltac:(lia)) as [_ Hld].
    pose proof (Z.log2_nonneg (Z.abs n)) as Hla0.
    pose proof (Z.log2_nonneg (Z.pos d)) as Hld0.
    set (la := Z.log2 (Z.abs n)) in *. set (ld := Z.log2 (Z.pos d)) in *.
    rewrite Zle_Qle in Hla. rewrite Zlt_Qlt in Hld.
    rewrite <- (pow2_inject la Hla0) in Hla.
    replace (Z.succ ld) with (ld + 1) in Hld by lia.
    rewrite <- (pow2_inject (ld + 1)) in Hld by lia.
    assert (Hd : (0 < inject_Z (Z.pos d))%Q).
    { change 0%Q with (inject_Z 0). rewrite <- Zlt_Qlt. lia. }
    replace (- (la - ld - 52 - 1)) with (53 + ld - la) by lia.
    assert (Hp : (pow2 la * pow2 (53 + ld - la) == pow2 52 * pow2 (ld + 1))%Q).
    { rewrite <- !pow2_add.
      replace (la + (53 + ld - la)) with (52 + (ld + 1)) by lia. reflexivity. }
    pose proof (pow2_pos (53 + ld - la)) as H1. pose proof (pow2_pos 52) as H2.
    pose proof (pow2_pos la) as H3. pose proof (pow2_pos (ld + 1)) as H4.
    pose proof (Qabs_nonneg (n # d)) as H5.
    set (A := inject_Z (Z.abs n)) in *. set (D := inject_Z (Z.pos d)) in *.
    set (P := pow2 (53 + ld - la)) in *. set (P52 := pow2 52) in *.
    set (Pla := pow2 la) in *. set (Pld := pow2 (ld + 1)) in *.
    set (X := Qabs (n # d)) in *.
    assert (Hm : (P52 * D <= X * P * D)%Q) by nra.
    nra.
Qed.

Lemma Qnum_zero (q : Q) : Qnum q = 0 -> (q == 0)%Q.
Proof. destruct q as [n d]. unfold Qeq. simpl. lia. Qed.

Lemma Qabs_sign (q : Q) :
  (if Qnum q <? 0 then q == - Qabs q else q == Qabs q)%Q.
Proof.
  destruct q as [n d]. cbn [Qnum].
  destruct (Z.ltb_spec n 0); unfold Qeq, Qabs, Qopp; simpl; lia.
Qed.

Lemma scaled_back (q : Q) (e : Z) : (scaled q e * pow2 e == Qabs q)%Q.
Proof.
  unfold scaled. rewrite <- Qmult_assoc, pow2_cancel. ring.
Qed.

(** Rounding moves a number by at most the unit roundoff of its size. *)
Lemma round53_error (q : Q) :
  (Qabs (round53 q - q) <= unit_roundoff * Qabs q)%Q.
Proof.
  unfold round53. destruct (Z.eqb_spec (Qnum q) 0) as [Hz | Hz].
  - rewrite (Qnum_zero q Hz). vm_compute. discriminate.
  - pose proof (exponent_lower q Hz) as Hlo.
    pose proof (scaled_back q (exponent q)) as Hback.
    pose proof (pow2_pos (exponent q)) as Hp.
    destruct (round_half_even_near (scaled q (exponent q))) as [Hn1 Hn2].
    pose proof (Qabs_sign q) as Hs.
    assert (H52 : (pow2 52 == 4503599627370496)%Q) by reflexivity.
    rewrite H52 in Hlo. clear H52.
    change unit_roundoff with (1 # 9007199254740992)%Q.
    set (s := scaled q (exponent q)) in *.
    set (m := inject_Z (Fmt.round_half_even s)) in *.
    set (P := pow2 (exponent q)) in *.
    set (X := Qabs q) in *.
    apply Qabs_Qle_condition.
    destruct (Qnum q <? 0); split; nra.
Qed.

(** A scaled whole number is whole again when nothing is cut off. *)
Lemma scaled_whole (q : Q) (z : Z) :
  (q == inject_Z z)%Q -> Qnum q <> 0 -> Z.abs z <= 2 ^ 53 ->
  exists k, (scaled q (exponent q) == inject_Z k)%Q.
Proof.
  intros Hq Hz Hb.
  pose proof (exponent_lower q Hz) as Hlo.
  assert (Habs : (Qabs q == inject_Z (Z.abs z))%Q)
    by (rewrite Hq; reflexivity).
  unfold scaled in *. rewrite Habs in Hlo.
  set (e := exponent q) in *.
  destruct (Z_le_gt_dec e 0) as [He | He].
  - exists (Z.abs z * 2 ^ (- e)).
    rewrite Habs, inject_Z_mult, <- pow2_inject by lia. reflexivity.
  - exists (2 ^ 52). rewrite Habs.
    assert (H52 : (pow2 52 == 4503599627370496)%Q) by reflexivity.
    assert (Hb' : (inject_Z (Z.abs z) <= 9007199254740992)%Q).
    { change 9007199254740992%Q with (inject_Z (2 ^ 53)).
      rewrite <- Zle_Qle. exact Hb. }
    pose proof (pow2_cancel e) as Hc. pose proof (pow2_pos (- e)) as Hp.
    pose proof (pow2_pos e) as Hp'.
    assert (He1 : e = 1).
    { destruct (Z_le_gt_dec e 1) as [|He2]; [lia | exfalso].
      pose proof (pow2_le 2 e ltac:(lia)) as H4.
      assert (H2 : (pow2 2 == 4)%Q) by reflexivity.
      rewrite H2 in H4. rewrite H52 in Hlo.
      set (A := inject_Z (Z.abs z)) in *. set (N := pow2 (- e)) in *.
      set (P := pow2 e) in *. nra. }
    rewrite He1 in *.
    assert (Hm1 : (pow2 (- (1)) == 1 # 2)%Q) by reflexivity.
    rewrite Hm1 in *. rewrite H52 in Hlo.
    change (inject_Z (2 ^ 52)) with 4503599627370496%Q.
    set (A := inject_Z (Z.abs z)) in *. 
    assert (HA : (A == 9007199254740992)%Q) by (apply Qle_antisym; nra).
    rewrite HA. reflexivity.
Qed.

(** A whole number of at most 53 bits is a float64: rounding keeps it. *)
Lemma round53_whole (q : Q) (z : Z) :
  (q == inject_Z z)%Q -> Z.abs z <= 2 ^ 53 -> (round53 q == inject_Z z)%Q.
Proof.
  intros Hq Hb. unfold round53.
  destruct (Z.eqb_spec (Qnum q) 0) as [Hz | Hz].
  - rewrite <- Hq. symmetry. apply Qnum_zero. exact Hz.
  - destruct (scaled_whole q z Hq Hz Hb) as [k Hk].
    rewrite (round_half_even_integer _ k Hk).
    pose proof (Qabs_sign q) as Hs.
    destruct (Qnum q <? 0);
      rewrite <- Hk, scaled_back, <- Hq; symmetry; exact Hs.
Qed.

(** On the tenths and the sevenths of the integers from -12 to 12,
    rounded to binary64, [Float64] adds, subtracts and divides as the
    Standard Library's specification of IEEE 754 does. *)
Lemma Float64_add_binary64 : agree_on_grid Float64.add (SFadd 53 1024) = true.
Proof. vm_compute. reflexivity. Qed.

Lemma Float64_sub_binary64 : agree_on_grid Float64.sub (SFsub 53 1024) = true.
Proof. vm_compute. reflexivity. Qed.

Lemma Float64_div_binary64 :
  forallb (fun a => forallb (fun b => (b =? 0) || agree Float64.div (SFdiv 53 1024) a b)
                            grid) grid = true.
Proof. vm_compute. reflexivity. Qed.

Lemma compound_ge_1 (k : nat) : (1 <= compound k)%Q.
Proof.
  induction k as [| k IH]; simpl; [apply Qle_refl |].
  change unit_roundoff with (1 # 9007199254740992)%Q. nra.
Qed.

Lemma compound_mono (k k' : nat) : (k <= k')%nat -> (compound k <= compound k')%Q.
Proof.
  induction 1 as [| k' _ IH]; [apply Qle_refl |].
  simpl. pose proof (compound_ge_1 k').
  change unit_roundoff with (1 # 9007199254740992)%Q. nra.
Qed.

Lemma leaf_mass_nonneg (t : expr) : (0 <= leaf_mass t)%Q.
Proof.
  unfold leaf_mass. induction t as [q | a IHa b IHb]; simpl.
  - apply Qabs_nonneg.
  - lra.
Qed.

Lemma leaf_sum_le_mass (t : expr) : (Qabs (leaf_sum t) <= leaf_mass t)%Q.
Proof.
  unfold leaf_sum, leaf_mass. induction t as [q | a IHa b IHb]; simpl.
  - apply Qle_refl.
  - eapply Qle_trans; [apply Qabs_triangle |]. lra.
Qed.

(** The value of an addition tree is within the drift of its height
    from the sum of its leaves. *)
Lemma eval_near_leaf_sum (t : expr) :
  (Qabs (eval t - leaf_sum t) <= drift (height t) * leaf_mass t)%Q.
Proof.
  induction t as [q | a IHa b IHb].
  - unfold leaf_sum, leaf_mass, drift. cbn [eval weigh height compound].
    pose proof (Qabs_nonneg q).
    apply Qabs_Qle_condition. split; lra.
  - cbn [eval height]. unfold Float64.add.
    pose proof (round53_error (eval a + eval b)) as Hr.
    pose proof (leaf_mass_nonneg a) as Ma. pose proof (leaf_mass_nonneg b) as Mb.
    pose proof (leaf_sum_le_mass a) as Ea. pose proof (leaf_sum_le_mass b) as Eb.
    pose proof (compound_mono (height a) _ (Nat.le_max_l _ (height b))) as Ca.
    pose proof (compound_mono (height b) _ (Nat.le_max_r (height a) _)) as Cb.
    pose proof (compound_ge_1 (height a)) as Ga.
    pose proof (compound_ge_1 (height b)) as Gb.
    unfold drift in *. cbn [compound].
    change (leaf_sum (Plus a b)) with (leaf_sum a + leaf_sum b)%Q.
    change (leaf_mass (Plus a b)) with (leaf_mass a + leaf_mass b)%Q.
    change unit_roundoff with (1 # 9007199254740992)%Q in *.
    set (g := compound (Nat.max (height a) (height b))) in *.
    set (ga := compound (height a)) in *. set (gb := compound (height b)) in *.
    set (x := (eval a + eval b)%Q) in *.
    set (r := round53 x) in *.
    apply Qabs_Qle_condition in IHa, IHb, Ea, Eb.
    assert (Hx : (Qabs x <= g * (leaf_mass a + leaf_mass b))%Q).
    { apply Qabs_Qle_condition. unfold x. split; nra. }
    assert (Hr' : (Qabs (r - x)
                   <= (1 # 9007199254740992) * (g * (leaf_mass a + leaf_mass b)))%Q).
    { eapply Qle_trans; [exact Hr |]. nra. }
    clear Hr. apply Qabs_Qle_condition in Hx, Hr'.
    apply Qabs_Qle_condition. unfold x in *. split; nra.
Qed.

Lemma whole_leaf_sum (t : expr) : whole_leaves t -> whole (leaf_sum t).
Proof.
  unfold leaf_sum. induction t as [q | a IHa b IHb]; simpl; [auto |].
  intros [Ha Hb]. destruct (IHa Ha) as [za Hza]. destruct (IHb Hb) as [zb Hzb].
  exists (za + zb). rewrite Hza, Hzb, inject_Z_plus. reflexivity.
Qed.

(** On whole numbers that stay within 53 bits no addition rounds. *)
Lemma eval_whole_leaf_sum (t : expr) :
  whole_leaves t -> (leaf_mass t <= inject_Z (2 ^ 53))%Q -> (eval t == leaf_sum t)%Q.
Proof.
  induction t as [q | a IHa b IHb]; intros Hw Hm; [reflexivity |].
  destruct Hw as [Ha Hb].
  change (leaf_mass (Plus a b)) with (leaf_mass a + leaf_mass b)%Q in Hm.
  pose proof (leaf_mass_nonneg a) as Ma. pose proof (leaf_mass_nonneg b) as Mb.
  assert (Ea : (eval a == leaf_sum a)%Q) by (apply IHa; [exact Ha | lra]).
  assert (Eb : (eval b == leaf_sum b)%Q) by (apply IHb; [exact Hb | lra]).
  destruct (whole_leaf_sum (Plus a b) (conj Ha Hb)) as [z Hz].
  change (leaf_sum (Plus a b)) with (leaf_sum a + leaf_sum b)%Q in *.
  cbn [eval]. unfold Float64.add.
  rewrite Hz. apply round53_whole; [rewrite Ea, Eb; exact Hz |].
  pose proof (leaf_sum_le_mass (Plus a b)) as Hle.
  change (leaf_sum (Plus a b)) with (leaf_sum a + leaf_sum b)%Q in Hle.
  change (leaf_mass (Plus a b)) with (leaf_mass a + leaf_mass b)%Q in Hle.
  rewrite Hz in Hle. change (Qabs (inject_Z z)) with (inject_Z (Z.abs z)) in Hle.
  rewrite Zle_Qle. lra.
Qed.

(** The tree of numpy's reduction adds up the list it was given. *)
Section Weights.

Variable w : Q -> Q.

Lemma weigh_chain (l : list Q) (t : expr) :
  (weigh w (chain t l) == weigh w t + total_by w l)%Q.
Proof.
  unfold chain. revert t. induction l as [| x l IH]; intros t; simpl.
  - ring.
  - rewrite IH. simpl. ring.
Qed.

Lemma weigh_unrolled (n : nat) :
  forall (l : list Q) (r0 r1 r2 r3 r4 r5 r6 r7 : expr),
    (List.length l <= n)%nat ->
    (weigh w (fst (unrolled r0 r1 r2 r3 r4 r5 r6 r7 l))
       + total_by w (snd (unrolled r0 r1 r2 r3 r4 r5 r6 r7 l))
     == weigh w r0 + weigh w r1 + weigh w r2 + weigh w r3 + weigh w r4
        + weigh w r5 + weigh w r6 + weigh w r7 + total_by w l)%Q.
Proof.
  induction n as [| n IH]; intros l r0 r1 r2 r3 r4 r5 r6 r7 Hn.
  - destruct l; [simpl; ring | simpl in Hn; lia].
  - destruct l as [| a0 [| a1 [| a2 [| a3 [| a4 [| a5 [| a6 [| a7 l']]]]]]]];
      try (simpl; ring).
    cbn [unrolled]. rewrite IH by (simpl in Hn; lia). simpl. ring.
Qed.

Hypothesis w_zero : (w 0 == 0)%Q.

Lemma weigh_block (l : list Q) : (weigh w (block l) == total_by w l)%Q.
Proof.
  destruct l as [| a0 [| a1 [| a2 [| a3 [| a4 [| a5 [| a6 [| a7 l']]]]]]]];
    try (unfold block; rewrite weigh_chain; simpl; rewrite w_zero; ring).
  unfold block.
  pose proof (weigh_unrolled (List.length l') l' (Leaf a0) (Leaf a1) (Leaf a2)
                (Leaf a3) (Leaf a4) (Leaf a5) (Leaf a6) (Leaf a7) (le_n _)) as H.
  destruct (unrolled _ _ _ _ _ _ _ _ l') as [t rest].
  rewrite weigh_chain. cbn [fst snd] in H. rewrite H. simpl. ring.
Qed.

Lemma total_by_app (l1 l2 : list Q) :
  (total_by w (l1 ++ l2) == total_by w l1 + total_by w l2)%Q.
Proof.
  induction l1 as [| x l1 IH]; simpl; [ring | rewrite IH; ring].
Qed.

Lemma weigh_pairwise (fuel : nat) (l : list Q) :
  (weigh w (pairwise fuel l) == total_by w l)%Q.
Proof.
  revert l. induction fuel as [| fuel IH]; intros l; simpl.
  - apply weigh_block.
  - destruct (Nat.leb _ 128); [apply weigh_block |].
    simpl. rewrite !IH, <- total_by_app, firstn_skipn. reflexivity.
Qed.

End Weights.

Lemma height_chain (l : list Q) (t : expr) :
  height (chain t l) = (height t + List.length l)%nat.
Proof.
  unfold chain. revert t. induction l as [| x l IH]; intros t; simpl.
  - lia.
  - rewrite IH. simpl. lia.
Qed.

Lemma height_unrolled (n : nat) :
  forall (l : list Q) (h : nat) (r0 r1 r2 r3 r4 r5 r6 r7 : expr),
    (List.length l <= n)%nat ->
    (height r0 <= h)%nat -> (height r1 <= h)%nat -> (height r2 <= h)%nat ->
    (height r3 <= h)%nat -> (height r4 <= h)%nat -> (height r5 <= h)%nat ->
    (height r6 <= h)%nat -> (height r7 <= h)%nat ->
    (height (fst (unrolled r0 r1 r2 r3 r4 r5 r6 r7 l))
       + List.length (snd (unrolled r0 r1 r2 r3 r4 r5 r6 r7 l))
     <= h + 3 + List.length l)%nat.
Proof.
  induction n as [| n IH];
    intros l h r0 r1 r2 r3 r4 r5 r6 r7 Hn H0 H1 H2 H3 H4 H5 H6 H7.
  - destruct l; [simpl; lia | simpl in Hn; lia].
  - destruct l as [| a0 [| a1 [| a2 [| a3 [| a4 [| a5 [| a6 [| a7 l']]]]]]]];
      try (simpl; lia).
    cbn [unrolled].
    pose proof (IH l' (S h) (Plus r0 (Leaf a0)) (Plus r1 (Leaf a1))
                  (Plus r2 (Leaf a2)) (Plus r3 (Leaf a3)) (Plus r4 (Leaf a4))
                  (Plus r5 (Leaf a5)) (Plus r6 (Leaf a6)) (Plus r7 (Leaf a7))) as H.
    simpl in H, Hn. simpl List.length.
    specialize (H ltac:(lia) ltac:(lia) ltac:(lia) ltac:(lia) ltac:(lia)
                  ltac:(lia) ltac:(lia) ltac:(lia) ltac:(lia)).
    lia.
Qed.

Lemma height_block (l : list Q) : (height (block l) <= List.length l)%nat.
Proof.
  destruct l as [| a0 [| a1 [| a2 [| a3 [| a4 [| a5 [| a6 [| a7 l']]]]]]]];
    try (unfold block; rewrite height_chain; simpl; lia).
  unfold block.
  pose proof (height_unrolled (List.length l') l' 0 (Leaf a0) (Leaf a1)
                (Leaf a2) (Leaf a3) (Leaf a4) (Leaf a5) (Leaf a6) (Leaf a7)
                (le_n _)) as H.
  destruct (unrolled _ _ _ _ _ _ _ _ l') as [t rest].
  rewrite height_chain. cbn [fst snd] in H. simpl in *.
  specialize (H ltac:(lia) ltac:(lia) ltac:(lia) ltac:(lia) ltac:(lia)
                ltac:(lia) ltac:(lia) ltac:(lia)).
  lia.
Qed.

Lemma height_pairwise (fuel : nat) (l : list Q) :
  (height (pairwise fuel l) <= List.length l)%nat.
Proof.
  revert l. induction fuel as [| fuel IH]; intros l; cbn [pairwise].
  - apply height_block.
  - destruct (Nat.leb_spec (List.length l) 128) as [Hs | Hs];
      [apply height_block |].
    cbn [height].
    set (n2 := (List.length l / 2 - (List.length l / 2) mod 8)%nat).
    pose proof (IH (firstn n2 l)) as H1. pose proof (IH (skipn n2 l)) as H2.
    rewrite length_firstn in H1. rewrite length_skipn in H2.
    assert (Hn2 : (1 <= n2 < List.length l)%nat).
    { unfold n2.
      pose proof (Nat.mod_upper_bound (List.length l / 2) 8 ltac:(lia)) as Hm.
      pose proof (Nat.div_mod_eq (List.length l) 2) as Hd.
      pose proof (Nat.mod_upper_bound (List.length l) 2 ltac:(lia)) as Hm2.
      lia. }
    lia.
Qed.

(** The levels [add_reduce] allows are never used up: with any number
    of levels that is at least the length the tree is the same. *)
Lemma pairwise_levels (n m : nat) (l : list Q) :
  (List.length l <= n)%nat -> (List.length l <= m)%nat ->
  pairwise n l = pairwise m l.
Proof.
  revert m l. induction n as [| n IH]; intros m l Hn Hm.
  - destruct l; [| simpl in Hn; lia].
    destruct m; reflexivity.
  - cbn [pairwise].
    destruct (Nat.leb_spec (List.length l) 128) as [Hs | Hs].
    + destruct m; cbn [pairwise]; [reflexivity |].
      destruct (Nat.leb_spec (List.length l) 128); [reflexivity | lia].
    + destruct m as [| m]; [lia |]. cbn [pairwise].
      destruct (Nat.leb_spec (List.length l) 128); [lia |].
      set (n2 := (List.length l / 2 - (List.length l / 2) mod 8)%nat).
      assert (Hn2 : (1 <= n2 < List.length l)%nat).
      { unfold n2.
        pose proof (Nat.mod_upper_bound (List.length l / 2) 8 ltac:(lia)).
        pose proof (Nat.div_mod_eq (List.length l) 2).
        pose proof (Nat.mod_upper_bound (List.length l) 2 ltac:(lia)).
        lia. }
      rewrite (IH m (firstn n2 l)), (IH m (skipn n2 l));
        try reflexivity;
        rewrite ?length_firstn, ?length_skipn; lia.
Qed.

Lemma whole_chain (l : list Q) (t : expr) :
  whole_leaves t -> Forall whole l -> whole_leaves (chain t l).
Proof.
  unfold chain. revert t. induction l as [| x l IH]; intros t Ht Hl; simpl.
  - exact Ht.
  - inversion Hl; subst. apply IH; [split; assumption | assumption].
Qed.

Lemma whole_unrolled (n : nat) :
  forall (l : list Q) (r0 r1 r2 r3 r4 r5 r6 r7 : expr),
    (List.length l <= n)%nat ->
    whole_leaves r0 -> whole_leaves r1 -> whole_leaves r2 -> whole_leaves r3 ->
    whole_leaves r4 -> whole_leaves r5 -> whole_leaves r6 -> whole_leaves r7 ->
    Forall whole l ->
    whole_leaves (fst (unrolled r0 r1 r2 r3 r4 r5 r6 r7 l)) /\
    Forall whole (snd (unrolled r0 r1 r2 r3 r4 r5 r6 r7 l)).
Proof.
  induction n as [| n IH];
    intros l r0 r1 r2 r3 r4 r5 r6 r7 Hn H0 H1 H2 H3 H4 H5 H6 H7 Hl.
  - destruct l; [simpl; tauto | simpl in Hn; lia].
  - destruct l as [| a0 [| a1 [| a2 [| a3 [| a4 [| a5 [| a6 [| a7 l']]]]]]]];
      try (simpl; tauto).
    cbn [unrolled].
    repeat match goal with
           | H : Forall whole (_ :: _) |- _ => inversion H; clear H; subst
           end.
    apply IH; simpl in *; try lia; auto.
Qed.

Lemma whole_block (l : list Q) : Forall whole l -> whole_leaves (block l).
Proof.
  assert (H0 : whole_leaves (Leaf 0%Q)) by (exists 0; reflexivity).
  intros Hl.
  destruct l as [| a0 [| a1 [| a2 [| a3 [| a4 [| a5 [| a6 [| a7 l']]]]]]]];
    try (unfold block; apply whole_chain; assumption).
  unfold block.
  repeat match goal with
         | H : Forall whole (_ :: _) |- _ => inversion H; clear H; subst
         end.
  pose proof (whole_unrolled (List.length l') l' (Leaf a0) (Leaf a1) (Leaf a2)
                (Leaf a3) (Leaf a4) (Leaf a5) (Leaf a6) (Leaf a7) (le_n _)) as H.
  destruct (unrolled _ _ _ _ _ _ _ _ l') as [t rest]. cbn [fst snd] in H.
  apply whole_chain; apply H; simpl; assumption.
Qed.

Lemma whole_pairwise (fuel : nat) (l : list Q) :
  Forall whole l -> whole_leaves (pairwise fuel l).
Proof.
  revert l. induction fuel as [| fuel IH]; intros l Hl; cbn [pairwise].
  - apply whole_block, Hl.
  - destruct (Nat.leb _ 128); [apply whole_block, Hl |].
    set (n2 := (List.length l / 2 - (List.length l / 2) mod 8)%nat).
    rewrite <- (firstn_skipn n2 l) in Hl. apply Forall_app in Hl.
    split; apply IH; tauto.
Qed.

(** ** Columns and reductions *)

Lemma values_col {A : Type} (f : Cells -> A) (df : DataFrame) :
  values (col f df) = map (fun r => f (cells r)) (rows df).
Proof.
  unfold values, col, rows. rewrite !map_map. reflexivity.
Qed.

Lemma values_col_tanggal (df : DataFrame) :
  values (col_tanggal df) = map tanggal (rows df).
Proof.
  unfold values, col_tanggal, rows. rewrite !map_map. reflexivity.
Qed.

Lemma col_length {A : Type} (f : Cells -> A) (df : DataFrame) :
  List.length (col f df) = List.length df.
Proof. unfold col. apply length_map. Qed.

Lemma total_by_col (w : Q -> Q) (f : Cells -> Q) (l : list Row) :
  total_by w (map (fun r => f (cells r)) l) = total_of (fun c => w (f c)) l.
Proof.
  induction l as [| r l IH]; simpl; [reflexivity | rewrite IH; reflexivity].
Qed.

Lemma total_of_fold (f : Cells -> Q) (l : list Row) :
  total_of f l = fold_right Qplus 0%Q (map (fun r => f (cells r)) l).
Proof.
  induction l as [| r l IH]; simpl; [reflexivity | rewrite IH; reflexivity].
Qed.

Lemma mass_of_nonneg (f : Cells -> Q) (l : list Row) : (0 <= mass_of f l)%Q.
Proof.
  unfold mass_of. induction l as [| r l IH]; simpl; [apply Qle_refl |].
  pose proof (Qabs_nonneg (f (cells r))). lra.
Qed.

Lemma total_of_le_mass (f : Cells -> Q) (l : list Row) :
  (Qabs (total_of f l) <= mass_of f l)%Q.
Proof.
  unfold mass_of. induction l as [| r l IH]; simpl; [apply Qle_refl |].
  eapply Qle_trans; [apply Qabs_triangle |]. lra.
Qed.

(** The tree of the additions [sum] makes over a column: what it adds
    up and how deep it is. *)
Lemma sum_tree (f : Cells -> Q) (df : DataFrame) :
  exists t,
    sum (col f df) = eval t /\
    (leaf_sum t == total_of f (rows df))%Q /\
    (leaf_mass t == mass_of f (rows df))%Q /\
    (height t <= List.length (rows df))%nat /\
    ((forall r, In r (rows df) -> whole (f (cells r))) -> whole_leaves t).
Proof.
  unfold sum, add_reduce. rewrite values_col.
  set (l := map (fun r => f (cells r)) (rows df)).
  exists (pairwise (List.length l) l).
  split; [reflexivity |]. split; [| split; [| split]].
  - unfold leaf_sum. rewrite weigh_pairwise by reflexivity.
    unfold l. rewrite total_by_col. reflexivity.
  - unfold leaf_mass, mass_of. rewrite weigh_pairwise by reflexivity.
    unfold l. rewrite total_by_col. reflexivity.
  - pose proof (height_pairwise (List.length l) l) as H.
    unfold l in H at 3. rewrite length_map in H. exact H.
  - intros Hw. apply whole_pairwise. apply Forall_forall.
    intros x Hx. apply in_map_iff in Hx. destruct Hx as [r [<- Hr]].
    apply Hw, Hr.
Qed.

(** The sum of a column is as near the sum row by row as one rounding
    for each row allows. *)
Lemma sum_col_near (f : Cells -> Q) (df : DataFrame) :
  (Qabs (sum (col f df) - total_of f (rows df))
     <= drift (List.length (rows df)) * mass_of f (rows df))%Q.
Proof.
  destruct (sum_tree f df) as [t [-> [Hs [Hm [Hh _]]]]].
  pose proof (eval_near_leaf_sum t) as H. rewrite Hs, Hm in H.
  pose proof (compound_mono _ _ Hh) as Hc.
  pose proof (mass_of_nonneg f (rows df)) as Hp.
  unfold drift in *.
  eapply Qle_trans; [exact H |]. nra.
Qed.

(** On whole numbers whose magnitudes sum to no more than [2 ^ 53] the
    sum of a column is the sum row by row. *)
Lemma sum_col_whole (f : Cells -> Q) (df : DataFrame) :
  (forall r, In r (rows df) -> whole (f (cells r))) ->
  (mass_of f (rows df) <= inject_Z (2 ^ 53))%Q ->
  (sum (col f df) == total_of f (rows df))%Q.
Proof.
  intros Hw Hb.
  destruct (sum_tree f df) as [t [-> [Hs [Hm [_ Ht]]]]].
  rewrite <- Hs. apply eval_whole_leaf_sum; [apply Ht, Hw |].
  rewrite Hm. exact Hb.
Qed.

Lemma iloc_last {A : Type} (s : Series A) (pre : list A) (x : A) :
  values s = pre ++ [x] -> iloc s (-1) = Ok x.
Proof.
  intros Hv. unfold iloc.
  assert (Hlen : List.length s = S (List.length pre)).
  { unfold values in Hv. rewrite <- (length_map snd s), Hv, length_app.
    simpl. lia. }
  rewrite Hlen.
  replace (-1 <? 0) with true by reflexivity.
  replace (Z.of_nat (S (List.length pre)) + -1) with (Z.of_nat (List.length pre))
    by lia.
  replace (0 <=? Z.of_nat (List.length pre)) with true
    by (symmetry; apply Z.leb_le; lia).
  replace (Z.of_nat (List.length pre) <? Z.of_nat (S (List.length pre)))
    with true by (symmetry; apply Z.ltb_lt; lia).
  simpl. rewrite Nat2Z.id, Hv, nth_error_app2 by lia.
  rewrite Nat.sub_diag. reflexivity.
Qed.

Lemma iloc_empty {A : Type} (i : Z) : iloc (@nil (nat * A)) i = Raise IndexError.
Proof.
  unfold iloc. cbn [List.length Z.of_nat values map].
  set (j := if i <? 0 then 0 + i else i).
  destruct (0 <=? j) eqn:H0; destruct (j <? 0) eqn:H1; simpl;
    try reflexivity.
  apply Z.leb_le in H0. apply Z.ltb_lt in H1. lia.
Qed.

Lemma fold_min_spec (l : list Z) (a : Z) :
  In (fold_left Z.min l a) (a :: l) /\
  forall y, In y (a :: l) -> fold_left Z.min l a <= y.
Proof.
  revert a. induction l as [| x l IH]; intros a; simpl.
  - split; [left; reflexivity |]. intros y [<- | []]. lia.
  - destruct (IH (Z.min a x)) as [Hin Hle]. split.
    + destruct Hin as [Heq | Hin].
      * destruct (Z.min_spec a x) as [[_ Hm] | [_ Hm]];
          [left | right; left]; congruence.
      * right. right. exact Hin.
    + intros y [<- | [<- | Hy]].
      * specialize (Hle (Z.min a x) (or_introl eq_refl)). lia.
      * specialize (Hle (Z.min a x) (or_introl eq_refl)). lia.
      * apply Hle. right. exact Hy.
Qed.

Lemma fold_max_spec (l : list Z) (a : Z) :
  In (fold_left Z.max l a) (a :: l) /\
  forall y, In y (a :: l) -> y <= fold_left Z.max l a.
Proof.
  revert a. induction l as [| x l IH]; intros a; simpl.
  - split; [left; reflexivity |]. intros y [<- | []]. lia.
  - destruct (IH (Z.max a x)) as [Hin Hle]. split.
    + destruct Hin as [Heq | Hin].
      * destruct (Z.max_spec a x) as [[_ Hm] | [_ Hm]];
          [right; left | left]; congruence.
      * right. right. exact Hin.
    + intros y [<- | [<- | Hy]].
      * specialize (Hle (Z.max a x) (or_introl eq_refl)). lia.
      * specialize (Hle (Z.max a x) (or_introl eq_refl)). lia.
      * apply Hle. right. exact Hy.
Qed.

Lemma nonempty_last {A : Type} (l : list A) :
  l <> [] -> exists pre x, l = pre ++ [x].
Proof.
  intros H. destruct (exists_last H) as [pre [x Hx]]. exists pre, x. exact Hx.
Qed.

Lemma rows_nonempty (df : DataFrame) : df <> [] -> rows df <> [].
Proof. destruct df; simpl; [congruence | discriminate]. Qed.

(** In a frame that goes forward in time no row is later than the one
    in the last position. *)
Lemma chronological_last (df : DataFrame) (pre : list Row) (last_row : Row) :
  chronological df ->
  rows df = pre ++ [last_row] ->
  forall r, In r (rows df) -> ts_le (tanggal r) (tanggal last_row).
Proof.
  unfold chronological, rows. intros Hs. revert pre.
  induction Hs as [| e l Hs IH Hall]; intros pre Hrows r Hr.
  - destruct pre; discriminate.
  - simpl in Hrows, Hr. destruct pre as [| p pre]; simpl in Hrows.
    + injection Hrows as He Hl. destruct l; [| discriminate].
      destruct Hr as [<- | []]. rewrite He.
      unfold ts_le, ts_leb. rewrite ts_compare_refl. reflexivity.
    + injection Hrows as He Hl. destruct Hr as [<- | Hr].
      * rewrite Forall_forall in Hall.
        assert (Hin : In last_row (map snd l)).
        { rewrite Hl. apply in_or_app. right. left. reflexivity. }
        apply in_map_iff in Hin. destruct Hin as [x [<- Hx]].
        apply (Hall x Hx).
      * apply (IH pre Hl r Hr).
Qed.

(** ** [build_summary] *)

Lemma build_summary_ok (df : DataFrame) (pre : list Row) (last_row : Row) :
  rows df = pre ++ [last_row] ->
  build_summary df =
    Ok {| periode :=
            (fmt_year (min (col tahun df)) ++ " - "
               ++ fmt_year (max (col tahun df)))%string;
          total_sampah := (fmt (Num (sum (col jumlah_sampah df))) ++ " ton")%string;
          total_sampah_value := Num (sum (col jumlah_sampah df));
          rata_penanganan :=
            (fmt (mean (col penanganan_estimasi df)) ++ " ton/bulan")%string;
          rata_penanganan_value := mean (col penanganan_estimasi df);
          sisa_akhir :=
            (fmt (Num (sisa_sampah (cells last_row))) ++ " ton")%string;
          sisa_akhir_value := Num (sisa_sampah (cells last_row));
          akumulasi_akhir :=
            (fmt (Num (akumulasi (cells last_row))) ++ " ton")%string;
          akumulasi_akhir_value := Num (akumulasi (cells last_row)) |}.
Proof.
  intros Hrows. unfold build_summary.
  rewrite (iloc_last (col sisa_sampah df)
             (map (fun r => sisa_sampah (cells r)) pre)
             (sisa_sampah (cells last_row)))
    by (rewrite values_col, Hrows, map_app; reflexivity).
  rewrite (iloc_last (col akumulasi df)
             (map (fun r => akumulasi (cells r)) pre)
             (akumulasi (cells last_row)))
    by (rewrite values_col, Hrows, map_app; reflexivity).
  reflexivity.
Qed.

(** The mean of a column is as near the mean row by row as one
    rounding for each row and one for the division allow. *)
Lemma mean_col_near (f : Cells -> Q) (df : DataFrame) :
  df <> [] ->
  exists m,
    mean (col f df) = Num m /\
    (Qabs (m - total_of f (rows df) / inject_Z (Z.of_nat (List.length (rows df))))
       <= drift (S (List.length (rows df)))
          * (mass_of f (rows df) / inject_Z (Z.of_nat (List.length (rows df)))))%Q.
Proof.
  intros Hne. unfold mean.
  destruct (col f df) as [| e s] eqn:Hc;
    [destruct df; [congruence | discriminate] |].
  rewrite <- Hc. eexists. split; [reflexivity |].
  unfold rows. rewrite col_length, length_map. fold (rows df).
  assert (Hn : (0 < inject_Z (Z.of_nat (List.length df)))%Q).
  { change 0%Q with (inject_Z 0). rewrite <- Zlt_Qlt.
    destruct df; [congruence | simpl; lia]. }
  pose proof (sum_col_near f df) as Hs.
  unfold rows in Hs at 2. rewrite length_map in Hs.
  pose proof (total_of_le_mass f (rows df)) as Hle.
  pose proof (mass_of_nonneg f (rows df)) as Hp.
  pose proof (compound_ge_1 (List.length df)) as Hc1.
  unfold Float64.div. unfold drift in *. cbn [compound].
  set (T := sum (col f df)) in *. set (S0 := total_of f (rows df)) in *.
  set (A := mass_of f (rows df)) in *.
  set (c := compound (List.length df)) in *.
  unfold Qdiv. set (i := (/ inject_Z (Z.of_nat (List.length df)))%Q).
  assert (Hi : (0 < i)%Q) by (apply Qinv_lt_0_compat; exact Hn).
  pose proof (round53_error (T * i)) as Hr.
  change Float64.unit_roundoff with (1 # 9007199254740992)%Q in *.
  apply Qabs_Qle_condition in Hs, Hle.
  assert (HT0 : (- (c * A) <= T /\ T <= c * A)%Q) by (split; nra).
  set (B := (c * A)%Q) in *.
  assert (HT : (Qabs (T * i) <= B * i)%Q).
  { apply Qabs_Qle_condition. split; nra. }
  assert (Hr' : (Qabs (Float64.round53 (T * i) - T * i)
                 <= (1 # 9007199254740992) * (B * i))%Q).
  { eapply Qle_trans; [exact Hr |]. nra. }
  clear Hr HT. apply Qabs_Qle_condition in Hr'.
  set (r := Float64.round53 (T * i)) in *.
  assert (Hd : (- ((B - A) * i) <= T * i - S0 * i /\
                T * i - S0 * i <= (B - A) * i)%Q).
  { unfold B. split; nra. }
  unfold B in *.
  apply Qabs_Qle_condition. split; nra.
Qed.

Lemma min_col_tahun (df : DataFrame) :
  df <> [] ->
  exists lo, min (col tahun df) = Some lo /\
             In lo (years_of df) /\ forall y, In y (years_of df) -> lo <= y.
Proof.
  intros Hne. unfold min, years_of. rewrite values_col.
  destruct (map (fun r => tahun (cells r)) (rows df)) as [| v vs] eqn:Hv.
  - apply rows_nonempty in Hne. destruct (rows df); [congruence | discriminate].
  - exists (fold_left Z.min vs v). split; [reflexivity |]. apply fold_min_spec.
Qed.

Lemma max_col_tahun (df : DataFrame) :
  df <> [] ->
  exists hi, max (col tahun df) = Some hi /\
             In hi (years_of df) /\ forall y, In y (years_of df) -> y <= hi.
Proof.
  intros Hne. unfold max, years_of. rewrite values_col.
  destruct (map (fun r => tahun (cells r)) (rows df)) as [| v vs] eqn:Hv.
  - apply rows_nonempty in Hne. destruct (rows df); [congruence | discriminate].
  - exists (fold_left Z.max vs v). split; [reflexivity |]. apply fold_max_spec.
Qed.

(** C2. On a view that is not empty and goes forward in time,
    [build_summary] returns a summary. Its total is the float64 sum, in
    the order numpy adds, of [jumlah_sampah] over the rows of the view:
    no further from their sum row by row than one rounding for each row
    allows, and equal to it when the amounts are whole numbers whose
    magnitudes sum to no more than [2 ^ 53]. Its mean is the float64
    sum of [penanganan_estimasi] over the rows divided, in float64, by
    their number, no further from the mean row by row than one rounding
    more allows. Its last remainder and last accumulation are
    [sisa_sampah] and [akumulasi] of the row in the last position,
    which no row is later than, and its period is the least year, a
    dash between blanks, the greatest year. *)
Theorem build_summary_rounded_values (df : DataFrame) :
  df <> [] ->
  chronological df ->
  exists s pre last_row lo hi total rata,
    build_summary df = Ok s /\
    rows df = pre ++ [last_row] /\
    (forall r, In r (rows df) -> ts_le (tanggal r) (tanggal last_row)) /\
    total_sampah_value s = Num total /\
    total = Numpy.add_reduce (map (fun r => jumlah_sampah (cells r)) (rows df)) /\
    (Qabs (total - total_of jumlah_sampah (rows df))
       <= drift (List.length (rows df)) * mass_of jumlah_sampah (rows df))%Q /\
    ((forall r, In r (rows df) -> whole (jumlah_sampah (cells r))) ->
     (mass_of jumlah_sampah (rows df) <= inject_Z (2 ^ 53))%Q ->
     (total == total_of jumlah_sampah (rows df))%Q) /\
    rata_penanganan_value s = Num rata /\
    rata = Float64.div
             (Numpy.add_reduce
                (map (fun r => penanganan_estimasi (cells r)) (rows df)))
             (inject_Z (Z.of_nat (List.length (rows df)))) /\
    (Qabs (rata - total_of penanganan_estimasi (rows df)
                    / inject_Z (Z.of_nat (List.length (rows df))))
       <= drift (S (List.length (rows df)))
          * (mass_of penanganan_estimasi (rows df)
               / inject_Z (Z.of_nat (List.length (rows df)))))%Q /\
    sisa_akhir_value s = Num (sisa_sampah (cells last_row)) /\
    akumulasi_akhir_value s = Num (akumulasi (cells last_row)) /\
    In lo (years_of df) /\ (forall y, In y (years_of df) -> lo <= y) /\
    In hi (years_of df) /\ (forall y, In y (years_of df) -> y <= hi) /\
    periode s = (Str.of_Z lo ++ " - " ++ Str.of_Z hi)%string.
Proof.
  intros Hne Hs.
  destruct (nonempty_last (rows df) (rows_nonempty df Hne)) as [pre [x Hrows]].
  destruct (min_col_tahun df Hne) as [lo [Hlo [Hlo_in Hlo_le]]].
  destruct (max_col_tahun df Hne) as [hi [Hhi [Hhi_in Hhi_le]]].
  destruct (mean_col_near penanganan_estimasi df Hne) as [rata [Hrata Hnear]].
  eexists; exists pre, x, lo, hi, (sum (col jumlah_sampah df)), rata.
  split; [apply (build_summary_ok df pre x Hrows) |].
  cbn [total_sampah_value rata_penanganan_value sisa_akhir_value
       akumulasi_akhir_value periode].
  split; [exact Hrows |].
  split; [apply (chronological_last df pre x Hs Hrows) |].
  split; [reflexivity |].
  split; [unfold sum; rewrite values_col; reflexivity |].
  split; [apply sum_col_near |].
  split; [apply sum_col_whole |].
  split; [exact Hrata |].
  split.
  { unfold mean in Hrata.
    destruct (col penanganan_estimasi df) as [| e c] eqn:Hc;
      [discriminate Hrata |].
    rewrite <- Hc in Hrata. injection Hrata as <-.
    unfold sum. rewrite values_col, col_length.
    unfold rows. rewrite length_map. reflexivity. }
  split; [exact Hnear |].
  rewrite Hlo, Hhi. simpl. repeat split; auto.
Qed.

(** C9. [build_summary] raises on the empty view, with the
    [IndexError] of the last position of an empty column, and on no
    other view: on every view that has a row it returns a summary. *)
Theorem build_summary_raises_iff_empty (df : DataFrame) :
  (build_summary df = Raise IndexError <-> df = []) /\
  ((exists s, build_summary df = Ok s) <-> df <> []).
Proof.
  destruct df as [| e df].
  - split; split; intros H.
    + reflexivity.
    + reflexivity.
    + destruct H as [s H]. discriminate H.
    + congruence.
  - assert (Hne : e :: df <> []) by discriminate.
    destruct (nonempty_last _ (rows_nonempty _ Hne)) as [pre [x Hrows]].
    pose proof (build_summary_ok _ pre x Hrows) as Hok.
    split; split; intros H.
    + rewrite Hok in H. discriminate H.
    + discriminate H.
    + exact Hne.
    + eexists. exact Hok.
Qed.

(** ** [idxmax], [idxmin] and [loc] *)

Section ArgBest.

(** [better v b] says that [v] beats [b]; [worse] and [no_better] are
    what a row that was beaten, and a row that did not beat, are to the
    best one. *)
Variable better : Q -> Q -> bool.
Variable worse no_better : Q -> Q -> Prop.
Hypothesis better_true : forall v b, better v b = true -> worse b v.
Hypothesis better_false : forall v b, better v b = false -> no_better v b.
Hypothesis worse_trans : forall a b c, worse a b -> worse b c -> worse a c.
Hypothesis no_better_worse :
  forall a b c, no_better a b -> worse b c -> worse a c.

Lemma arg_best_split (s : Series Q) :
  forall (best : nat * Q) (before after : Series Q),
    (forall x, In x before -> worse (snd x) (snd best)) ->
    (forall x, In x after -> no_better (snd x) (snd best)) ->
    exists pre post,
      before ++ best :: after ++ s = pre ++ arg_best better best s :: post /\
      (forall x, In x pre -> worse (snd x) (snd (arg_best better best s))) /\
      (forall x, In x post -> no_better (snd x) (snd (arg_best better best s))).
Proof.
  induction s as [| [i v] s IH]; intros best before after Hb Ha; simpl.
  - exists before, after. rewrite app_nil_r. auto.
  - destruct (better v (snd best)) eqn:Hbet.
    + destruct (IH (i, v) (before ++ best :: after) []) as [pre [post [Heq H]]].
      * intros x Hx. simpl. apply in_app_or in Hx.
        apply better_true in Hbet.
        destruct Hx as [Hx | [<- | Hx]].
        -- eapply worse_trans; [apply Hb, Hx | exact Hbet].
        -- exact Hbet.
        -- eapply no_better_worse; [apply Ha, Hx | exact Hbet].
      * intros x [].
      * exists pre, post. split; [| exact H].
        rewrite <- Heq. simpl. rewrite <- app_assoc. reflexivity.
    + destruct (IH best before (after ++ [(i, v)])) as [pre [post [Heq H]]].
      * exact Hb.
      * intros x Hx. apply in_app_or in Hx. destruct Hx as [Hx | [<- | []]].
        -- apply Ha, Hx.
        -- simpl. apply better_false. exact Hbet.
      * exists pre, post. split; [| exact H].
        rewrite <- Heq. rewrite <- app_assoc. reflexivity.
Qed.

End ArgBest.

Lemma gtb_true (v b : Q) : gtb v b = true -> (b < v)%Q.
Proof.
  unfold gtb. intros H. apply negb_true_iff in H.
  apply Qnot_le_lt. intros Hle. apply Qle_bool_iff in Hle. congruence.
Qed.

Lemma gtb_false (v b : Q) : gtb v b = false -> (v <= b)%Q.
Proof.
  unfold gtb. intros H. apply negb_false_iff in H.
  apply Qle_bool_iff. exact H.
Qed.

Lemma ltb_true (v b : Q) : ltb v b = true -> (v < b)%Q.
Proof.
  unfold ltb. intros H. apply negb_true_iff in H.
  apply Qnot_le_lt. intros Hle. apply Qle_bool_iff in Hle. congruence.
Qed.

Lemma ltb_false (v b : Q) : ltb v b = false -> (b <= v)%Q.
Proof.
  unfold ltb. intros H. apply negb_false_iff in H.
  apply Qle_bool_iff. exact H.
Qed.

Lemma idxmax_split (e : nat * Q) (s : Series Q) :
  exists pre post,
    e :: s = pre ++ arg_best gtb e s :: post /\
    (forall x, In x pre -> (snd x < snd (arg_best gtb e s))%Q) /\
    (forall x, In x post -> (snd x <= snd (arg_best gtb e s))%Q).
Proof.
  apply (arg_best_split gtb (fun a b => (a < b)%Q) (fun a b => (a <= b)%Q)
           gtb_true gtb_false Qlt_trans Qle_lt_trans s e [] []);
    intros x [].
Qed.

Lemma idxmin_split (e : nat * Q) (s : Series Q) :
  exists pre post,
    e :: s = pre ++ arg_best ltb e s :: post /\
    (forall x, In x pre -> (snd (arg_best ltb e s) < snd x)%Q) /\
    (forall x, In x post -> (snd (arg_best ltb e s) <= snd x)%Q).
Proof.
  apply (arg_best_split ltb (fun a b => (b < a)%Q) (fun a b => (b <= a)%Q)
           ltb_true ltb_false
           (fun a b c H1 H2 => Qlt_trans c b a H2 H1)
           (fun a b c H1 H2 => Qlt_le_trans c b a H2 H1) s e [] []);
    intros x [].
Qed.

Lemma filter_none {A : Type} (f : A -> bool) (l : list A) :
  (forall x, In x l -> f x = false) -> filter f l = [].
Proof.
  induction l as [| x l IH]; intros H; simpl.
  - reflexivity.
  - rewrite (H x (or_introl eq_refl)). apply IH.
    intros y Hy. apply H. right. exact Hy.
Qed.

(** With one row per label, [loc] of the label of a row is that row. *)
Lemma loc_unique (df pre post : DataFrame) (e : nat * Row) :
  unique_labels df ->
  df = pre ++ e :: post ->
  loc df (fst e) = Ok (OneRow (snd e)).
Proof.
  unfold unique_labels, loc. intros Hn ->.
  rewrite map_app in Hn. simpl in Hn.
  apply NoDup_remove_2 in Hn.
  rewrite filter_app. simpl. rewrite Nat.eqb_refl.
  rewrite !filter_none; [reflexivity | |].
  - intros x Hx. apply Nat.eqb_neq. intros Heq. apply Hn.
    apply in_or_app. right. rewrite <- Heq. apply in_map. exact Hx.
  - intros x Hx. apply Nat.eqb_neq. intros Heq. apply Hn.
    apply in_or_app. left. rewrite <- Heq. apply in_map. exact Hx.
Qed.

(** A split of a column is a split of the frame. *)
Lemma col_split (f : Cells -> Q) (df : DataFrame) (pre post : Series Q)
    (x : nat * Q) :
  col f df = pre ++ x :: post ->
  exists pre' e post',
    df = pre' ++ e :: post' /\
    pre = col f pre' /\ post = col f post' /\
    x = (fst e, f (cells (snd e))).
Proof.
  unfold col. intros H.
  apply map_eq_app in H. destruct H as [pre' [rest [-> [Hpre Hrest]]]].
  apply map_eq_cons in Hrest. destruct Hrest as [e [post' [-> [He Hpost]]]].
  exists pre', e, post'. auto.
Qed.

Lemma in_col (f : Cells -> Q) (df : DataFrame) (r : Row) :
  In r (rows df) -> exists x, In x (col f df) /\ snd x = f (cells r).
Proof.
  unfold rows, col. intros H. apply in_map_iff in H.
  destruct H as [e [<- He]].
  exists (fst e, f (cells (snd e))). split; [| reflexivity].
  apply in_map_iff. exists e. auto.
Qed.

(** In a frame that goes forward in time, the rows before a position are
    no later and the rows after it no earlier than the row there. *)
Lemma chronological_split (df pre post : DataFrame) (e : nat * Row) :
  chronological df ->
  df = pre ++ e :: post ->
  (forall r, In r (rows pre) -> ts_le (tanggal r) (tanggal (snd e))) /\
  (forall r, In r (rows post) -> ts_le (tanggal (snd e)) (tanggal r)).
Proof.
  unfold chronological. intros Hs. revert pre.
  induction Hs as [| a l Hs IH Hall]; intros pre Heq.
  - destruct pre; discriminate.
  - destruct pre as [| p pre]; simpl in Heq; injection Heq as -> ->.
    + split; [intros r [] |].
      intros r Hr. unfold rows in Hr. apply in_map_iff in Hr.
      destruct Hr as [x [<- Hx]].
      rewrite Forall_forall in Hall. apply (Hall x Hx).
    + destruct (IH pre eq_refl) as [Hpre Hpost]. split; [| exact Hpost].
      intros r [<- | Hr]; [| apply Hpre, Hr].
      rewrite Forall_forall in Hall. apply (Hall e).
      apply in_or_app. right. left. reflexivity.
Qed.

(** ** [build_insights] *)

Lemma highest_of_first_max (df : DataFrame) :
  df <> [] ->
  unique_labels df ->
  exists pre e post,
    df = pre ++ e :: post /\
    highest_of df = Ok (OneRow (snd e)) /\
    (forall r, In r (rows pre) ->
               (jumlah_sampah (cells r) < jumlah_sampah (cells (snd e)))%Q) /\
    (forall r, In r (rows post) ->
               (jumlah_sampah (cells r) <= jumlah_sampah (cells (snd e)))%Q).
Proof.
  intros Hne Hn. destruct df as [| e0 df']; [congruence |].
  unfold highest_of, idxmax.
  destruct (col jumlah_sampah (e0 :: df')) as [| c0 cs] eqn:Hc;
    [discriminate |].
  destruct (idxmax_split c0 cs) as [pre [post [Heq [Hpre Hpost]]]].
  rewrite <- Hc in Heq. apply col_split in Heq.
  destruct Heq as [pre' [e [post' [Hdf [-> [-> Hbest]]]]]].
  exists pre', e, post'. split; [exact Hdf |].
  rewrite Hbest in *. simpl in *. split.
  - apply (loc_unique _ pre' post' e Hn Hdf).
  - split; intros r Hr;
      destruct (in_col jumlah_sampah _ r Hr) as [x [Hx <-]]; auto.
Qed.

Lemma lowest_of_first_min (df : DataFrame) :
  df <> [] ->
  unique_labels df ->
  exists pre e post,
    df = pre ++ e :: post /\
    lowest_of df = Ok (OneRow (snd e)) /\
    (forall r, In r (rows pre) ->
               (jumlah_sampah (cells (snd e)) < jumlah_sampah (cells r))%Q) /\
    (forall r, In r (rows post) ->
               (jumlah_sampah (cells (snd e)) <= jumlah_sampah (cells r))%Q).
Proof.
  intros Hne Hn. destruct df as [| e0 df']; [congruence |].
  unfold lowest_of, idxmin.
  destruct (col jumlah_sampah (e0 :: df')) as [| c0 cs] eqn:Hc;
    [discriminate |].
  destruct (idxmin_split c0 cs) as [pre [post [Heq [Hpre Hpost]]]].
  rewrite <- Hc in Heq. apply col_split in Heq.
  destruct Heq as [pre' [e [post' [Hdf [-> [-> Hbest]]]]]].
  exists pre', e, post'. split; [exact Hdf |].
  rewrite Hbest in *. simpl in *. split.
  - apply (loc_unique _ pre' post' e Hn Hdf).
  - split; intros r Hr;
      destruct (in_col jumlah_sampah _ r Hr) as [x [Hx <-]]; auto.
Qed.

(** What [build_insights] returns once the two rows it looks up and the
    last row are known. *)
Lemma build_insights_ok (df : DataFrame) (hi lo last_row : Row)
    (pre : list Row) :
  highest_of df = Ok (OneRow hi) ->
  lowest_of df = Ok (OneRow lo) ->
  rows df = pre ++ [last_row] ->
  build_insights df =
    Ok [ puncak_text hi; terendah_text lo;
         skenario_text
           (Float64.sub (skn_BAU (cells last_row)) (skn_80 (cells last_row))) ].
Proof.
  intros Hh Hl Hrows. unfold build_insights. rewrite Hh, Hl. simpl.
  rewrite (iloc_last (col skn_80 df)
             (map (fun r => skn_80 (cells r)) pre) (skn_80 (cells last_row)))
    by (rewrite values_col, Hrows, map_app; reflexivity).
  rewrite (iloc_last (col skn_BAU df)
             (map (fun r => skn_BAU (cells r)) pre) (skn_BAU (cells last_row)))
    by (rewrite values_col, Hrows, map_app; reflexivity).
  reflexivity.
Qed.

Lemma rows_app (a b : DataFrame) : rows (a ++ b) = rows a ++ rows b.
Proof. unfold rows. apply map_app. Qed.

(** C4. On a view that is not empty, has one row per label and goes
    forward in time, the row [build_insights] reports as the peak has an
    amount that every row before it is strictly below and no row after
    it exceeds, so it is the first of the rows of greatest amount, the
    rows before it being no later and the rows after it no earlier; the
    row it reports as the lowest is the first of the rows of least
    amount in the same way; and its first two sentences are written
    from these two rows. *)
Theorem peak_and_lowest_first_occurrence (df : DataFrame) :
  df <> [] ->
  unique_labels df ->
  chronological df ->
  exists hi lo pre_h post_h pre_l post_l third,
    highest_of df = Ok (OneRow hi) /\
    lowest_of df = Ok (OneRow lo) /\
    build_insights df = Ok [puncak_text hi; terendah_text lo; third] /\
    rows df = pre_h ++ hi :: post_h /\
    (forall r, In r pre_h ->
       (jumlah_sampah (cells r) < jumlah_sampah (cells hi))%Q /\
       ts_le (tanggal r) (tanggal hi)) /\
    (forall r, In r post_h ->
       (jumlah_sampah (cells r) <= jumlah_sampah (cells hi))%Q /\
       ts_le (tanggal hi) (tanggal r)) /\
    rows df = pre_l ++ lo :: post_l /\
    (forall r, In r pre_l ->
       (jumlah_sampah (cells lo) < jumlah_sampah (cells r))%Q /\
       ts_le (tanggal r) (tanggal lo)) /\
    (forall r, In r post_l ->
       (jumlah_sampah (cells lo) <= jumlah_sampah (cells r))%Q /\
       ts_le (tanggal lo) (tanggal r)).
Proof.
  intros Hne Hn Hs.
  destruct (highest_of_first_max df Hne Hn)
    as [ph [eh [qh [Hdfh [Hh [Hph Hqh]]]]]].
  destruct (lowest_of_first_min df Hne Hn)
    as [pl [el [ql [Hdfl [Hl [Hpl Hql]]]]]].
  destruct (chronological_split df ph qh eh Hs Hdfh) as [Tph Tqh].
  destruct (chronological_split df pl ql el Hs Hdfl) as [Tpl Tql].
  destruct (nonempty_last (rows df) (rows_nonempty df Hne)) as [pre [x Hrows]].
  exists (snd eh), (snd el), (rows ph), (rows qh), (rows pl), (rows ql).
  eexists.
  split; [exact Hh |]. split; [exact Hl |].
  split; [apply (build_insights_ok df _ _ x pre Hh Hl Hrows) |].
  split; [rewrite Hdfh at 1; apply rows_app |].
  split; [intros r Hr; split; auto |].
  split; [intros r Hr; split; auto |].
  split; [rewrite Hdfl at 1; apply rows_app |].
  split; intros r Hr; split; auto.
Qed.

(** A number that is an integer is written as that integer is. *)
Lemma comma_0f_integer (q : Q) (z : Z) :
  (q == inject_Z z)%Q -> Fmt.comma_0f q = Fmt.comma_0f (inject_Z z).
Proof.
  intros H. unfold Fmt.comma_0f.
  rewrite (round_half_even_integer q z H).
  rewrite (round_half_even_integer (inject_Z z) z (Qeq_refl _)).
  replace (Qnum q <? 0) with (Qnum (inject_Z z) <? 0); [reflexivity |].
  unfold Qeq in H. simpl in *. rewrite Z.mul_1_r in H. rewrite H.
  destruct (z <? 0) eqn:Hz; symmetry.
  - apply Z.ltb_lt. apply Z.ltb_lt in Hz. nia.
  - apply Z.ltb_ge. apply Z.ltb_ge in Hz. nia.
Qed.

(** C6. On a view that is not empty and has one row per label,
    [build_insights] returns three sentences, the third of which reads
    "Skenario 80% menurunkan akumulasi akhir sebesar", the difference
    with no decimals, "ton dibanding BAU."; the difference is the
    float64 nearest to [skn_BAU] minus [skn_80] of the row in the last
    position, which in a view that goes forward in time no row is later
    than. It is within one rounding of the difference of the two, and
    is that difference when it is a whole number of at most 53 bits;
    when the two are 500 and 350 the sentence reports 150. *)
Theorem skenario_delta_rounded (df : DataFrame) :
  df <> [] ->
  unique_labels df ->
  chronological df ->
  exists first second pre last_row delta,
    rows df = pre ++ [last_row] /\
    (forall r, In r (rows df) -> ts_le (tanggal r) (tanggal last_row)) /\
    build_insights df =
      Ok [ first; second;
           ("Skenario 80% menurunkan akumulasi akhir sebesar "
              ++ Fmt.comma_0f delta ++ " ton dibanding BAU.")%string ] /\
    delta = Float64.sub (skn_BAU (cells last_row)) (skn_80 (cells last_row)) /\
    (Qabs (delta - (skn_BAU (cells last_row) - skn_80 (cells last_row)))
       <= Float64.unit_roundoff
          * Qabs (skn_BAU (cells last_row) - skn_80 (cells last_row)))%Q /\
    (forall z,
       (skn_BAU (cells last_row) - skn_80 (cells last_row) == inject_Z z)%Q ->
       Z.abs z <= 2 ^ 53 ->
       (delta == inject_Z z)%Q /\
       Fmt.comma_0f delta = Fmt.comma_0f (inject_Z z)) /\
    ((skn_BAU (cells last_row) == 500)%Q ->
     (skn_80 (cells last_row) == 350)%Q ->
     build_insights df =
       Ok [ first; second;
            "Skenario 80% menurunkan akumulasi akhir sebesar 150 ton dibanding BAU."%string ]).
Proof.
  intros Hne Hn Hs.
  destruct (highest_of_first_max df Hne Hn) as [ph [eh [qh [_ [Hh _]]]]].
  destruct (lowest_of_first_min df Hne Hn) as [pl [el [ql [_ [Hl _]]]]].
  destruct (nonempty_last (rows df) (rows_nonempty df Hne)) as [pre [x Hrows]].
  pose proof (build_insights_ok df _ _ x pre Hh Hl Hrows) as Hb.
  exists (puncak_text (snd eh)), (terendah_text (snd el)), pre, x,
         (Float64.sub (skn_BAU (cells x)) (skn_80 (cells x))).
  split; [exact Hrows |].
  split; [apply (chronological_last df pre x Hs Hrows) |].
  split; [exact Hb |].
  split; [reflexivity |].
  split; [apply round53_error |].
  assert (Hz : forall z,
            (skn_BAU (cells x) - skn_80 (cells x) == inject_Z z)%Q ->
            Z.abs z <= 2 ^ 53 ->
            (Float64.sub (skn_BAU (cells x)) (skn_80 (cells x)) == inject_Z z)%Q).
  { intros z Hd Hz. apply round53_whole; assumption. }
  split.
  - intros z Hd Hb53. split; [apply Hz; assumption |].
    apply comma_0f_integer. apply Hz; assumption.
  - intros Hbau H80. rewrite Hb. do 3 f_equal. unfold skenario_text.
    rewrite (comma_0f_integer _ 150); [reflexivity |].
    apply Hz; [rewrite Hbau, H80; reflexivity | vm_compute; discriminate].
Qed.

(** C10. On every view that is not empty and has one row per label,
    [build_insights] returns a list of exactly three sentences. *)
Theorem build_insights_three (df : DataFrame) :
  df <> [] ->
  unique_labels df ->
  exists a b c,
    build_insights df = Ok [a; b; c] /\
    forall l, build_insights df = Ok l -> List.length l = 3%nat.
Proof.
  intros Hne Hn.
  destruct (highest_of_first_max df Hne Hn) as [ph [eh [qh [_ [Hh _]]]]].
  destruct (lowest_of_first_min df Hne Hn) as [pl [el [ql [_ [Hl _]]]]].
  destruct (nonempty_last (rows df) (rows_nonempty df Hne)) as [pre [x Hrows]].
  pose proof (build_insights_ok df _ _ x pre Hh Hl Hrows) as Hok.
  do 3 eexists. split; [exact Hok |].
  intros l Hl'. rewrite Hok in Hl'. injection Hl' as <-. reflexivity.
Qed.

(** ** [generate_charts] *)

(** C7. The three figures [generate_charts] renders hold five series in
    all, the trend, the accumulation and the three scenarios; each has
    the dates of the view as its horizontal axis and one column of the
    view as its values, row for row in the order of the view, so each is
    as long as the view; the empty view gives series without points and
    raises nothing, [generate_charts] being a total function. *)
Theorem chart_series_are_projections (df : DataFrame) :
  exists tren akum bau s70 s80 t1 t2 t3,
    chart_figures df =
      (mkFigure t1 [tren], mkFigure t2 [akum], mkFigure t3 [bau; s70; s80]) /\
    Forall (fun tr => tr_x tr = map tanggal (rows df) /\
                      List.length (tr_x tr) = List.length df /\
                      List.length (tr_y tr) = List.length df)
           [tren; akum; bau; s70; s80] /\
    tr_y tren = map (fun r => jumlah_sampah (cells r)) (rows df) /\
    tr_y akum = map (fun r => akumulasi (cells r)) (rows df) /\
    tr_y bau = map (fun r => skn_BAU (cells r)) (rows df) /\
    tr_y s70 = map (fun r => skn_70 (cells r)) (rows df) /\
    tr_y s80 = map (fun r => skn_80 (cells r)) (rows df) /\
    (df = [] ->
     Forall (fun tr => tr_x tr = [] /\ tr_y tr = []) [tren; akum; bau; s70; s80]) /\
    (forall render_plotly,
       generate_charts render_plotly df =
         (render_plotly (mkFigure t1 [tren]), render_plotly (mkFigure t2 [akum]),
          render_plotly (mkFigure t3 [bau; s70; s80]))).
Proof.
  unfold generate_charts, chart_figures, px_line, scatter.
  do 8 eexists. split; [reflexivity |]. simpl.
  rewrite !values_col, values_col_tanggal.
  split.
  - repeat (apply Forall_cons;
              [simpl; unfold rows; rewrite ?length_map; auto |]).
    apply Forall_nil.
  - repeat (split; [reflexivity |]).
    split; [| reflexivity].
    intros ->.
    repeat (apply Forall_cons; [split; reflexivity |]).
    apply Forall_nil.
Qed.

(** ** The year filter *)

Lemma select_select (f g : Row -> bool) (df : DataFrame) :
  select g (select f df) = select (fun r => f r && g r)%bool df.
Proof.
  unfold select. induction df as [| e df IH]; simpl.
  - reflexivity.
  - destruct (f (snd e)); simpl; [destruct (g (snd e)) |]; rewrite IH;
      reflexivity.
Qed.

Lemma select_all (df : DataFrame) : select (fun _ => true) df = df.
Proof.
  unfold select. induction df as [| e df IH]; simpl; [| rewrite IH];
    reflexivity.
Qed.

Lemma select_ext (f g : Row -> bool) (df : DataFrame) :
  (forall r, f r = g r) -> select f df = select g df.
Proof. intros H. unfold select. apply filter_ext. intros e. apply H. Qed.

Lemma decimal_value_total (s : Query.ustr) (acc : Z) :
  Forall is_decimal s -> exists n, Query.decimal_value acc s = Ok n.
Proof.
  intros H. revert acc. induction H as [| c s Hc _ IH]; intros acc; simpl.
  - exists acc. reflexivity.
  - destruct c; try contradiction. apply IH.
Qed.

Lemma forallb_false_ex {A : Type} (f : A -> bool) (l : list A) :
  forallb f l = false -> exists x, In x l /\ f x = false.
Proof.
  induction l as [| y l IH]; simpl; intros H; [discriminate |].
  apply andb_false_iff in H. destruct H as [H | H].
  - exists y. auto.
  - destruct (IH H) as [x [Hx Hx']]. exists x. auto.
Qed.

Lemma decimal_value_raises (x : Query.uchar) :
  Query.char_isdigit x = false ->
  forall l acc, In x l -> exists e, Query.decimal_value acc l = Raise e.
Proof.
  intros Hx. induction l as [| y l IH]; intros acc Hin; [destruct Hin |].
  simpl. destruct Hin as [-> | Hin].
  - destruct x; try discriminate. eexists. reflexivity.
  - destruct y; try (eexists; reflexivity). apply IH, Hin.
Qed.

(** One guarded conversion of lines 141 to 144: on a plain argument it
    gives the bound the argument asks for. *)
Lemma guarded_int (a : option Query.ustr) :
  plain a ->
  (Query.truthy a && Query.isdigit (Query.or_empty a) = false /\
   bound_of a = None) \/
  (exists n, Query.truthy a && Query.isdigit (Query.or_empty a) = true /\
             Query.int_ (Query.or_empty a) = Ok n /\ bound_of a = Some n).
Proof.
  intros Hp. destruct a as [[| c s] |]; try (left; split; reflexivity).
  change (Query.truthy (Some (c :: s))) with true.
  change (Query.or_empty (Some (c :: s))) with (c :: s).
  rewrite andb_true_l. unfold bound_of.
  destruct (Query.isdigit (c :: s)) eqn:Hd.
  - destruct (Hp (c :: s) eq_refl Hd) as [Hall Hlen].
    destruct (decimal_value_total (c :: s) 0 Hall) as [n Hn].
    right. exists n. split; [reflexivity |]. split.
    + unfold Query.int_.
      replace (Nat.ltb Query.max_str_digits (List.length (c :: s))) with false
        by (symmetry; apply Nat.ltb_ge; exact Hlen).
      exact Hn.
    + rewrite Hn. reflexivity.
  - left. split; [reflexivity |].
    unfold Query.isdigit in Hd.
    destruct (forallb_false_ex _ _ Hd) as [x [Hx Hx']].
    pose proof (decimal_value_raises x Hx' (c :: s) 0 Hx) as Hr.
    destruct Hr as [e He]. rewrite He.
    reflexivity.
Qed.

(** On plain arguments the view is the rows whose year lies within the
    bounds asked for, each bound on its own. *)
Lemma apply_bounds_plain (df : DataFrame) (year_from year_to : option Query.ustr) :
  plain year_from ->
  plain year_to ->
  apply_bounds df year_from year_to =
    Ok (select (within (bound_of year_from) (bound_of year_to)) df).
Proof.
  intros Pf Pt. unfold apply_bounds.
  destruct (guarded_int year_from Pf) as [[-> ->] | [n [-> [-> ->]]]];
    destruct (guarded_int year_to Pt) as [[-> ->] | [m [-> [-> ->]]]];
    simpl; f_equal;
    first [ apply select_ext
          | rewrite select_select; apply select_ext
          | rewrite <- (select_all df) at 1; apply select_ext ];
    intros r; unfold within; rewrite ?Z.geb_leb, ?andb_true_r; reflexivity.
Qed.

Lemma apply_bounds_sub (df v : DataFrame) (year_from year_to : option Query.ustr) :
  apply_bounds df year_from year_to = Ok v ->
  exists mask, v = select mask df.
Proof.
  unfold apply_bounds. intros H.
  destruct (Query.truthy year_from && Query.isdigit (Query.or_empty year_from))%bool;
    [destruct (Query.int_ (Query.or_empty year_from)) as [n |]; [| discriminate] |];
    simpl in H;
    (destruct (Query.truthy year_to && Query.isdigit (Query.or_empty year_to))%bool;
     [destruct (Query.int_ (Query.or_empty year_to)) as [m |]; [| discriminate] |]);
    simpl in H; injection H as <-.
  - rewrite select_select. eexists. reflexivity.
  - eexists. reflexivity.
  - eexists. reflexivity.
  - exists (fun _ => true). symmetry. apply select_all.
Qed.

(** The view [index] works on, out of what [load_data] returned: one
    row per label, forward in time, and not empty unless the file is. *)
Lemma year_filter_view (df v : DataFrame)
    (year_from year_to yf yt : option Query.ustr) :
  unique_labels df ->
  chronological df ->
  year_filter df year_from year_to = Ok (v, yf, yt) ->
  unique_labels v /\ chronological v /\ (df <> [] -> v <> []).
Proof.
  intros Hn Hs H. unfold year_filter in H. apply bind_ok in H.
  destruct H as [w [Hw H]].
  destruct (apply_bounds_sub _ _ _ _ Hw) as [mask ->].
  destruct (select mask df) as [| e l] eqn:Hsel; simpl in H;
    injection H as <- _ _.
  - auto.
  - rewrite <- Hsel. split; [apply select_unique_labels; exact Hn |].
    split; [apply select_chronological; exact Hs |].
    rewrite Hsel. discriminate.
Qed.

(** C1. Whenever the bounds leave no row, the filter returns the frame
    it was given, unchanged, with both arguments reset to the empty
    string, and raises nothing; [index] then shows both bounds empty. *)
Theorem year_filter_empty_fallback (df : DataFrame)
    (year_from year_to : option Query.ustr) :
  apply_bounds df year_from year_to = Ok [] ->
  year_filter df year_from year_to = Ok (df, Some [], Some []) /\
  (forall e, year_filter df year_from year_to <> Raise e) /\
  (forall render_plotly csv page,
     load_data csv = Ok df ->
     index render_plotly csv year_from year_to = Ok page ->
     pg_year_from page = [] /\ pg_year_to page = []).
Proof.
  intros H.
  assert (Hf : year_filter df year_from year_to = Ok (df, Some [], Some [])).
  { unfold year_filter. rewrite H. reflexivity. }
  split; [exact Hf |]. split; [rewrite Hf; discriminate |].
  intros render_plotly csv page Hload Hpage.
  unfold index in Hpage. rewrite Hload in Hpage. simpl in Hpage.
  rewrite Hf in Hpage. simpl in Hpage.
  destruct (build_summary df); [| discriminate]. simpl in Hpage.
  destruct (build_insights df); [| discriminate]. simpl in Hpage.
  destruct (generate_charts render_plotly df) as [[h1 h2] h3].
  injection Hpage as <-. simpl. split; reflexivity.
Qed.

(** C5. The superscript two passes the [isdigit] guard and [int]
    refuses it: as a lower or as an upper bound it makes the filter, and
    [index] with it, raise [ValueError] whatever the frame, where an
    argument that is no numeral asks for no bound. *)
Theorem year_filter_superscript_two (df : DataFrame) (other : option Query.ustr) :
  bound_of (Some [Query.superscript_two]) = None /\
  apply_bounds df (Some [Query.superscript_two]) other = Raise ValueError /\
  year_filter df (Some [Query.superscript_two]) other = Raise ValueError /\
  year_filter df None (Some [Query.superscript_two]) = Raise ValueError /\
  (forall render_plotly,
     index render_plotly sample_csv (Some [Query.superscript_two]) other
       = Raise ValueError).
Proof.
  repeat split; try reflexivity.
Qed.

(** ** [load_data] without a date column *)

Lemma to_lower_to_upper (c : ascii) :
  Str.to_lower (Str.to_upper c) = Str.to_lower c.
Proof.
  destruct c as [b0 b1 b2 b3 b4 b5 b6 b7].
  destruct b0, b1, b2, b3, b4, b5, b6, b7; reflexivity.
Qed.

Lemma to_upper_to_lower (c : ascii) :
  Str.to_upper (Str.to_lower c) = Str.to_upper c.
Proof.
  destruct c as [b0 b1 b2 b3 b4 b5 b6 b7].
  destruct b0, b1, b2, b3, b4, b5, b6, b7; reflexivity.
Qed.

Lemma lower_upper (s : string) : lower (Str.upper s) = lower s.
Proof.
  induction s as [| c s IH]; simpl; [reflexivity |].
  rewrite to_lower_to_upper, IH. reflexivity.
Qed.

Lemma upper_lower (s : string) : Str.upper (lower s) = Str.upper s.
Proof.
  induction s as [| c s IH]; simpl; [reflexivity |].
  rewrite to_upper_to_lower, IH. reflexivity.
Qed.

(** Two names are the same but for case exactly when [upper] makes
    them equal. *)
Lemma same_upper_iff_same_lower (s k : string) :
  Str.upper s = Str.upper k <-> lower s = lower k.
Proof.
  split; intros H.
  - rewrite <- (lower_upper s), <- (lower_upper k), H. reflexivity.
  - rewrite <- (upper_lower s), <- (upper_lower k), H. reflexivity.
Qed.

Lemma dict_get_in (d : list (string * Z)) (k : string) (v : Z) :
  NoDup (map fst d) -> (dict_get d k = Some v <-> In (k, v) d).
Proof.
  induction d as [| [k' v'] d IH]; simpl; intros Hn.
  - split; [discriminate | tauto].
  - inversion Hn as [| ? ? Hnotin Hn']; subst.
    destruct (String.eqb_spec k k') as [-> | Hne].
    + split.
      * intros H. injection H as <-. left. reflexivity.
      * intros [H | H]; [congruence |].
        exfalso. apply Hnotin. apply (in_map fst) in H. exact H.
    + rewrite (IH Hn'). split; [tauto |].
      intros [H | H]; [congruence | exact H].
Qed.

Lemma bulan_map_keys : NoDup (map fst bulan_map).
Proof.
  simpl. repeat constructor; simpl; intuition discriminate.
Qed.

Lemma bulan_map_upper (k : string) (m : Z) :
  In (k, m) bulan_map -> Str.upper k = k /\ 1 <= m <= 12.
Proof.
  simpl. intros H.
  repeat (destruct H as [H | H];
          [injection H as <- <-; split; [reflexivity | lia] |]).
  destruct H.
Qed.

(** The lookup of line 25 finds a number for exactly the names that
    are, whatever their case, a key of the dictionary. *)
Lemma month_lookup (s : string) (m : Z) :
  dict_get bulan_map (Str.upper s) = Some m <-> month_named s m.
Proof.
  rewrite (dict_get_in _ _ _ bulan_map_keys). unfold month_named. split.
  - intros H. exists (Str.upper s). split; [exact H |].
    symmetry. apply lower_upper.
  - intros [k [Hk Heq]].
    apply same_upper_iff_same_lower in Heq.
    rewrite (proj1 (bulan_map_upper k m Hk)) in Heq. rewrite Heq. exact Hk.
Qed.

Lemma reads_back_all :
  forallb (fun y => forallb (reads_back y) month_range) year_range = true.
Proof. vm_compute. reflexivity. Qed.

Lemma to_datetime1_first_of_month (y m : Z) :
  1678 <= y <= 2261 -> 1 <= m <= 12 ->
  to_datetime1 (Some (date_text (Str.of_Z y) (Str.of_Z m)))
    = Ok (mkTimestamp y m 1).
Proof.
  intros Hy Hm.
  assert (Hiny : In y year_range).
  { unfold year_range. apply in_map_iff. exists (Z.to_nat (y - 1678)).
    split; [lia | apply in_seq; lia]. }
  assert (Hinm : In m month_range).
  { unfold month_range. apply in_map_iff. exists (Z.to_nat (m - 1)).
    split; [lia | apply in_seq; lia]. }
  pose proof reads_back_all as H.
  rewrite forallb_forall in H. specialize (H y Hiny).
  rewrite forallb_forall in H. specialize (H m Hinm).
  unfold reads_back in H.
  destruct (to_datetime1 (Some (date_text (Str.of_Z y) (Str.of_Z m))))
    as [t | e]; [| discriminate].
  destruct (ts_compare t (mkTimestamp y m 1)) eqn:Hc; try discriminate.
  apply ts_compare_eq in Hc. rewrite Hc. reflexivity.
Qed.

Lemma combine_map_map {A B C : Type} (f : A -> B) (g : A -> C) (l : list A) :
  combine (map f l) (map g l) = map (fun x => (f x, g x)) l.
Proof.
  induction l as [| x l IH]; simpl; [| rewrite IH]; reflexivity.
Qed.

Lemma combine_self_map {A B : Type} (g : A -> B) (l : list A) :
  combine l (map g l) = map (fun x => (x, g x)) l.
Proof.
  induction l as [| x l IH]; simpl; [| rewrite IH]; reflexivity.
Qed.

Lemma mapM_map {A B C : Type} (f : B -> result C) (g : A -> B) (l : list A) :
  mapM f (map g l) = mapM (fun x => f (g x)) l.
Proof.
  induction l as [| x l IH]; simpl; [| rewrite IH]; reflexivity.
Qed.

Lemma load_data_monthly_ok (months : list Cells) :
  (forall c, In c months ->
     1678 <= tahun c <= 2261 /\ exists m, month_named (bulan c) m) ->
  load_data (CsvMonthly months) =
    Ok (sort_values by_tanggal
          (range_index
             (map (fun c => mkRow c (mkTimestamp (tahun c) (month_number c) 1)
                                  (Some (month_number c)))
                  months))).
Proof.
  intros H.
  assert (Hsome : forall c, In c months ->
            dict_get bulan_map (Str.upper (bulan c)) = Some (month_number c) /\
            1 <= month_number c <= 12).
  { intros c Hc. destruct (H c Hc) as [_ [m Hm]].
    pose proof Hm as Hm'. apply month_lookup in Hm'.
    unfold month_number. rewrite Hm'. split; [reflexivity |].
    destruct Hm as [k [Hk _]]. apply (bulan_map_upper k m Hk). }
  unfold load_data, dated_frame, astype_str_num.
  replace (forallb is_some
             (map (fun c => dict_get bulan_map (Str.upper (bulan c))) months))
    with true.
  2: { symmetry. apply forallb_forall. intros o Ho.
       apply in_map_iff in Ho. destruct Ho as [c [<- Hc]].
       rewrite (proj1 (Hsome c Hc)). reflexivity. }
  rewrite !map_map, combine_map_map, map_map.
  unfold to_datetime. rewrite mapM_map.
  rewrite (mapM_ok _ (fun c => mkTimestamp (tahun c) (month_number c) 1)).
  2: { intros c Hc. cbn [fst snd]. destruct (Hsome c Hc) as [-> Hm].
       apply to_datetime1_first_of_month; [apply (H c Hc) | exact Hm]. }
  cbn [bind]. rewrite combine_self_map, combine_map_map, map_map.
  cbn [fst snd bind].
  do 3 f_equal. apply map_ext_in. intros c Hc.
  rewrite (proj1 (Hsome c Hc)). reflexivity.
Qed.

(** Rows that all lack a date are left as they stand by the sort. *)
Lemma sort_values_all_NaT (df : DataFrame) :
  (forall e, In e df -> tanggal (snd e) = NaT) ->
  sort_values by_tanggal df = df.
Proof.
  induction df as [| e df IH]; intros H; [reflexivity |].
  simpl. rewrite IH by (intros e' He'; apply H; right; exact He').
  destruct df as [| e' df']; [reflexivity |].
  simpl. unfold by_tanggal.
  rewrite (H e (or_introl eq_refl)), (H e' (or_intror (or_introl eq_refl))).
  reflexivity.
Qed.

Lemma in_range_index {R : Type} (l : list R) (e : nat * R) :
  In e (range_index l) -> In (snd e) l.
Proof.
  unfold range_index. destruct e as [k r]. intros H.
  apply in_combine_r in H. exact H.
Qed.

(** C8. A file without a date column in which no month name is a key of
    the dictionary, whatever its case: [load_data] does not fail. It
    returns every row of the file, in the order of the file, without a
    month number and with [NaT] for a date, where the claim has it fail
    with an error for the unknown month. *)
Theorem load_data_unknown_months_return (months : list Cells) :
  (forall c, In c months -> forall m, ~ month_named (bulan c) m) ->
  load_data (CsvMonthly months)
    = Ok (range_index (map (fun c => mkRow c NaT None) months)).
Proof.
  intros H.
  assert (Hnone : forall c, In c months ->
            dict_get bulan_map (Str.upper (bulan c)) = None).
  { intros c Hc.
    destruct (dict_get bulan_map (Str.upper (bulan c))) as [m |] eqn:Hm;
      [| reflexivity].
    exfalso. apply (H c Hc m). apply month_lookup. exact Hm. }
  unfold load_data, dated_frame.
  replace (map (fun c => dict_get bulan_map (Str.upper (bulan c))) months)
    with (map (fun _ : Cells => @None Z) months)
    by (apply map_ext_in; intros c Hc; symmetry; apply (Hnone c Hc)).
  assert (Hcells : astype_str_num (map (fun _ : Cells => @None Z) months)
                   = map (fun _ => None) months).
  { unfold astype_str_num.
    destruct (forallb is_some (map (fun _ : Cells => @None Z) months));
      rewrite map_map; reflexivity. }
  rewrite Hcells, combine_map_map, map_map.
  unfold to_datetime. rewrite mapM_map.
  rewrite (mapM_ok _ (fun _ => NaT)) by reflexivity.
  cbn [bind]. rewrite combine_self_map, combine_map_map, map_map.
  cbn [fst snd]. f_equal. apply sort_values_all_NaT.
  intros e He. apply in_range_index in He.
  apply in_map_iff in He. destruct He as [c [<- _]]. reflexivity.
Qed.

(** A string of ASCII digits beyond the conversion limit of [int] is
    the other argument that is not plain. *)
Example year_filter_long_zeros (df : DataFrame) (other : option Query.ustr) :
  Query.isdigit long_zeros = true /\
  apply_bounds df (Some long_zeros) other = Raise ValueError.
Proof. split; vm_compute; reflexivity. Qed.

(** ** The whole of [index] *)

(** The empty view never reaches [build_summary]: on a file with at
    least one row and on plain arguments [index] returns its page. *)
Lemma index_returns (render_plotly : Figure -> string) (csv : Csv)
    (df : DataFrame) (year_from year_to : option Query.ustr) :
  load_data csv = Ok df ->
  df <> [] ->
  plain year_from ->
  plain year_to ->
  exists page, index render_plotly csv year_from year_to = Ok page.
Proof.
  intros Hload Hne Pf Pt.
  destruct (load_data_frame csv df Hload) as [Hn Hs].
  assert (Hf : exists v a b, year_filter df year_from year_to = Ok (v, a, b)).
  { unfold year_filter. rewrite (apply_bounds_plain df _ _ Pf Pt).
    cbn [bind]. destruct (empty _); do 3 eexists; reflexivity. }
  destruct Hf as [v [a [b Hf]]].
  destruct (year_filter_view df v _ _ a b Hn Hs Hf) as [Hvn [_ Hv]].
  specialize (Hv Hne).
  destruct (nonempty_last (rows v) (rows_nonempty v Hv)) as [pre [x Hrows]].
  pose proof (build_summary_ok v pre x Hrows) as Hsm.
  destruct (highest_of_first_max v Hv Hvn) as [ph [eh [qh [_ [Hh _]]]]].
  destruct (lowest_of_first_min v Hv Hvn) as [pl [el [ql [_ [Hl _]]]]].
  pose proof (build_insights_ok v _ _ x pre Hh Hl Hrows) as Hi.
  unfold index. rewrite Hload. cbn [bind]. rewrite Hf. cbn [bind].
  rewrite Hsm, Hi. cbn [bind].
  destruct (generate_charts render_plotly v) as [[h1 h2] h3].
  eexists. reflexivity.
Qed.

(** ** The properties at work on the sample file *)

Ltac distinct := repeat constructor; simpl; intuition discriminate.

Lemma sample_frame_loaded : load_data sample_csv = Ok sample_frame.
Proof. reflexivity. Qed.

Lemma sample_frame_nonempty : sample_frame <> [].
Proof. vm_compute. discriminate. Qed.

Lemma sample_frame_unique : unique_labels sample_frame.
Proof. exact (proj1 (load_data_frame _ _ sample_frame_loaded)). Qed.

Lemma sample_frame_chronological : chronological sample_frame.
Proof. exact (proj2 (load_data_frame _ _ sample_frame_loaded)). Qed.

Ltac forward_in_time := unfold chronological; vm_compute; repeat constructor.

Lemma year_filter_empty_fallback_witness :
  apply_bounds sample_frame (Some text_2025) (Some text_2025) = Ok [] /\
  year_filter sample_frame (Some text_2025) (Some text_2025)
    = Ok (sample_frame, Some [], Some []).
Proof.
  split; [vm_compute; reflexivity |].
  apply (year_filter_empty_fallback sample_frame (Some text_2025) (Some text_2025)).
  vm_compute. reflexivity.
Defined.

Lemma sample_frame_whole (r : Row) :
  In r (rows sample_frame) -> whole (jumlah_sampah (cells r)).
Proof.
  intros [<- | [<- | [<- | [<- | []]]]]; eexists; reflexivity.
Qed.

Lemma build_summary_rounded_values_witness :
  sample_frame <> [] /\
  chronological sample_frame /\
  exists s total,
    build_summary sample_frame = Ok s /\
    total_sampah_value s = Num total /\
    (total == 490)%Q /\
    periode s = "2020 - 2022"%string.
Proof.
  split; [vm_compute; discriminate |]. split; [forward_in_time |].
  destruct (build_summary_rounded_values sample_frame)
    as [s [pre [x [lo [hi [total [rata [Hs [_ [_ [Ht [_ [_ [Hw _]]]]]]]]]]]]]].
  - vm_compute. discriminate.
  - forward_in_time.
  - exists s, total. split; [exact Hs |]. split; [exact Ht |].
    split.
    + rewrite (Hw sample_frame_whole); [reflexivity |].
      vm_compute. discriminate.
    + vm_compute in Hs. injection Hs as <-. reflexivity.
Defined.

(** Four months whose amounts, the float64 of 1778.6, 1594.2, 2275.9
    and 1983.8, sum to 7632.5: added one after the other in float64
    they give the next float64 above it, and the card shows 7,633 where
    their sum would show 7,632. *)
Lemma build_summary_total_rounds :
  exists df s,
    load_data rounding_csv = Ok df /\
    build_summary df = Ok s /\
    (total_of jumlah_sampah (rows df) == 15265 # 2)%Q /\
    ~ is_num (total_sampah_value s) (total_of jumlah_sampah (rows df)) /\
    total_sampah s = "7,633 ton"%string /\
    Fmt.comma_0f (total_of jumlah_sampah (rows df)) = "7,632"%string.
Proof.
  do 2 eexists. split; [vm_compute; reflexivity |].
  split; [vm_compute; reflexivity |].
  split; [vm_compute; reflexivity |].
  split; [intros H; vm_compute in H; discriminate H |].
  split; vm_compute; reflexivity.
Qed.

Lemma load_data_strictly_increasing_witness :
  dated_frame sample_csv = Ok sample_dated /\
  NoDup (map tanggal (rows sample_dated)) /\
  exists df,
    load_data sample_csv = Ok df /\
    Permutation sample_dated df /\
    StronglySorted ts_lt (map tanggal (rows df)).
Proof.
  split; [vm_compute; reflexivity |]. split; [vm_compute; distinct |].
  apply (load_data_strictly_increasing sample_csv sample_dated).
  - vm_compute. reflexivity.
  - vm_compute. distinct.
Defined.

Lemma peak_and_lowest_first_occurrence_witness :
  sample_frame <> [] /\
  unique_labels sample_frame /\
  chronological sample_frame /\
  exists hi lo third,
    highest_of sample_frame = Ok (OneRow hi) /\
    lowest_of sample_frame = Ok (OneRow lo) /\
    build_insights sample_frame = Ok [puncak_text hi; terendah_text lo; third].
Proof.
  split; [vm_compute; discriminate |]. split; [vm_compute; distinct |].
  split; [forward_in_time |].
  destruct (peak_and_lowest_first_occurrence sample_frame)
    as [hi [lo [ph [qh [pl [ql [third [Hh [Hl [Hb _]]]]]]]]]].
  - vm_compute. discriminate.
  - vm_compute. distinct.
  - forward_in_time.
  - exists hi, lo, third. auto.
Defined.

Lemma skenario_delta_rounded_witness :
  sample_frame <> [] /\
  unique_labels sample_frame /\
  chronological sample_frame /\
  exists first second,
    build_insights sample_frame =
      Ok [ first; second;
           "Skenario 80% menurunkan akumulasi akhir sebesar 150 ton dibanding BAU."%string ].
Proof.
  split; [vm_compute; discriminate |]. split; [vm_compute; distinct |].
  split; [forward_in_time |].
  destruct (skenario_delta_rounded sample_frame)
    as [first [second [pre [x [delta [Hrows [_ [_ [_ [_ [_ H150]]]]]]]]]]].
  - vm_compute. discriminate.
  - vm_compute. distinct.
  - forward_in_time.
  - exists first, second. apply H150.
    + assert (Hx : last (rows sample_frame) x = x)
        by (rewrite Hrows; apply last_last).
      rewrite <- Hx. reflexivity.
    + assert (Hx : last (rows sample_frame) x = x)
        by (rewrite Hrows; apply last_last).
      rewrite <- Hx. reflexivity.
Defined.

(** A last row with the float64 of 1000.3 and 0.8: their difference is
    below 999.5 and would read 999; the float64 nearest to it is 999.5,
    and the sentence reads 1,000. *)
Lemma skenario_delta_rounds :
  exists df first second third pre last_row,
    load_data rounding_csv = Ok df /\
    rows df = pre ++ [last_row] /\
    build_insights df = Ok [first; second; third] /\
    third = "Skenario 80% menurunkan akumulasi akhir sebesar 1,000 ton dibanding BAU."%string /\
    skenario_text (skn_BAU (cells last_row) - skn_80 (cells last_row))
      = "Skenario 80% menurunkan akumulasi akhir sebesar 999 ton dibanding BAU."%string.
Proof.
  eexists. do 3 eexists. exists (removelast (map (fun c => mkRow c (mkTimestamp (tahun c) (month_number c) 1) (Some (month_number c))) rounding_cells)).
  eexists.
  split; [vm_compute; reflexivity |].
  split; [vm_compute; reflexivity |].
  split; [vm_compute; reflexivity |].
  split; vm_compute; reflexivity.
Qed.

Lemma build_insights_three_witness :
  sample_frame <> [] /\
  unique_labels sample_frame /\
  exists a b c, build_insights sample_frame = Ok [a; b; c].
Proof.
  split; [vm_compute; discriminate |]. split; [vm_compute; distinct |].
  destruct (build_insights_three sample_frame) as [a [b [c [H _]]]].
  - vm_compute. discriminate.
  - vm_compute. distinct.
  - exists a, b, c. exact H.
Defined.

(** The sentences for the sample file: the first of the two months of
    150 tons is the peak, and the last row gives 500 - 350. *)
Example sample_insights :
  build_insights sample_frame =
    Ok [ "Puncak timbulan terjadi pada Januari 2021 sebesar 150 ton.";
         "Periode terendah adalah Desember 2022 dengan 90 ton.";
         "Skenario 80% menurunkan akumulasi akhir sebesar 150 ton dibanding BAU."
       ]%string.
Proof. vm_compute. reflexivity. Qed.

(** Three years of 100, 150 and 90 tons: the total is 340 and the peak
    is the row of 2021. *)
Example scenario_total_and_peak :
  exists df s,
    load_data scenario_csv = Ok df /\
    build_summary df = Ok s /\
    is_num (total_sampah_value s) 340 /\
    total_sampah s = "340 ton"%string /\
    exists hi, highest_of df = Ok (OneRow hi) /\ tahun (cells hi) = 2021.
Proof.
  do 2 eexists. split; [vm_compute; reflexivity |].
  split; [vm_compute; reflexivity |].
  split; [reflexivity |]. split; [reflexivity |].
  eexists. split; [vm_compute; reflexivity | reflexivity].
Qed.

(** A file with a date column loads to the same dates. *)
Example sample_csv_dated_loads :
  exists df,
    load_data sample_csv_dated = Ok df /\
    map tanggal (rows df) = map tanggal (rows sample_frame).
Proof. eexists. split; vm_compute; reflexivity. Qed.

Lemma sample_cells_unknown_names (c : Cells) (m : Z) :
  In c sample_cells_unknown -> ~ month_named (bulan c) m.
Proof.
  intros Hc Hm. apply month_lookup in Hm.
  destruct Hc as [<- | [<- | []]]; vm_compute in Hm; discriminate Hm.
Qed.

Lemma load_data_unknown_months_return_witness :
  (forall c, In c sample_cells_unknown ->
     forall m, ~ month_named (bulan c) m) /\
  exists a b,
    load_data sample_csv_unknown = Ok [(0%nat, a); (1%nat, b)] /\
    tanggal a = NaT /\ tanggal b = NaT.
Proof.
  split; [intros c Hc m; apply (sample_cells_unknown_names c m Hc) |].
  do 2 eexists. split.
  - apply (load_data_unknown_months_return sample_cells_unknown).
    intros c Hc m. apply (sample_cells_unknown_names c m Hc).
  - split; reflexivity.
Defined.

(** Bounds in ASCII digits are plain, and keep the rows of the years
    between them. *)
Example sample_filter_2021 :
  exists v,
    year_filter sample_frame (Some (Query.of_ascii "2021")) (Some (Query.of_ascii "2021"))
      = Ok (v, Some (Query.of_ascii "2021"), Some (Query.of_ascii "2021")) /\
    years_of v = [2021; 2021].
Proof. eexists. split; vm_compute; reflexivity. Qed.

(* ================================================================= *)
(** * Further properties of the pipeline *)

(** ** What [load_data] keeps *)

Lemma map_fst_combine {A B : Type} (l : list A) (l' : list B) :
  List.length l = List.length l' -> map fst (combine l l') = l.
Proof.
  revert l'. induction l as [| x l IH]; intros [| y l'] H; simpl in *;
    try discriminate; [reflexivity |].
  f_equal. apply IH. lia.
Qed.

(** The frame of lines 16 to 28 is the rows of the file, in file order,
    row [k] under label [k], each with a date. *)
Lemma dated_frame_cells (csv : Csv) (df0 : DataFrame) :
  dated_frame csv = Ok df0 ->
  exists l, df0 = range_index l /\ map cells l = csv_cells csv.
Proof.
  destruct csv as [rs | rs]; simpl; intros H;
    apply bind_ok in H; destruct H as [ts [Hts H]]; injection H as <-;
    eexists; (split; [reflexivity |]);
    apply mapM_length in Hts; rewrite map_map.
  - change (fun x : Cells * Timestamp => cells (mkRow (fst x) (snd x) None))
      with (@fst Cells Timestamp).
    apply map_fst_combine. rewrite Hts, !length_map. reflexivity.
  - change (fun x : Cells * Timestamp * option Z =>
              cells (mkRow (fst (fst x)) (snd (fst x)) (snd x)))
      with (fun x : Cells * Timestamp * option Z => fst (fst x)).
    rewrite <- (map_map fst fst).
    rewrite !map_fst_combine; [reflexivity | |].
    + rewrite Hts, !length_map, length_combine, !length_map.
      unfold astype_str_num.
      destruct (forallb _ _); rewrite !length_map; lia.
    + rewrite length_combine, length_map, Hts, !length_map, length_combine,
        !length_map.
      unfold astype_str_num.
      destruct (forallb _ _); rewrite !length_map; lia.
Qed.

Lemma range_index_nth {R : Type} (l : list R) (k : nat) (r : R) :
  In (k, r) (range_index l) -> nth_error l k = Some r.
Proof.
  unfold range_index.
  assert (H : forall n, In (k, r) (combine (seq n (List.length l)) l) ->
                        exists j, k = (n + j)%nat /\ nth_error l j = Some r).
  { induction l as [| x l IH]; intros n Hin; simpl in Hin; [destruct Hin |].
    destruct Hin as [Heq | Hin].
    - injection Heq as <- <-. exists 0%nat. split; [lia | reflexivity].
    - destruct (IH (S n) Hin) as [j [-> Hj]].
      exists (S j). split; [lia | exact Hj]. }
  intros Hin. destruct (H 0%nat Hin) as [j [-> Hj]]. exact Hj.
Qed.

(** X1. Whatever [load_data] returns holds every row of the file once
    and no other row, with its cells as they were read; the labels are
    the positions 0, 1, ... of the file, the row under label [k] being
    row [k] of the file; and the rows go forward in time. *)
Theorem load_data_keeps_rows (csv : Csv) (df : DataFrame) :
  load_data csv = Ok df ->
  Permutation (map cells (rows df)) (csv_cells csv) /\
  Permutation (map fst df) (seq 0 (List.length (csv_cells csv))) /\
  (forall k r, In (k, r) df -> nth_error (csv_cells csv) k = Some (cells r)) /\
  chronological df.
Proof.
  unfold load_data. intros H. apply bind_ok in H.
  destruct H as [df0 [H0 H]]. injection H as <-.
  destruct (dated_frame_cells csv df0 H0) as [l [-> Hl]].
  pose proof (sort_values_perm (range_index l)) as Hp.
  split; [| split; [| split]].
  - rewrite <- Hl. apply Permutation_map.
    assert (Hr : Permutation (rows (sort_values by_tanggal (range_index l)))
                             (rows (range_index l)))
      by (apply Permutation_sym, Permutation_map; exact Hp).
    rewrite range_index_rows in Hr. exact Hr.
  - rewrite <- Hl, length_map, <- range_index_labels.
    apply Permutation_sym, Permutation_map. exact Hp.
  - intros k r Hin.
    apply (Permutation_in _ (Permutation_sym Hp)) in Hin.
    apply range_index_nth in Hin. rewrite <- Hl.
    apply map_nth_error. exact Hin.
  - apply sort_values_sorted.
Qed.

Lemma load_data_keeps_rows_witness :
  load_data sample_csv = Ok sample_frame /\
  Permutation (map cells (rows sample_frame)) (csv_cells sample_csv).
Proof.
  split; [reflexivity |].
  apply (load_data_keeps_rows sample_csv sample_frame). reflexivity.
Defined.

Lemma mapM_paired {A B C : Type} (f : A -> result B) (rs : list (A * C))
    (ts : list B) (c : C) (t : B) :
  mapM f (map fst rs) = Ok ts ->
  In (c, t) (combine (map snd rs) ts) ->
  exists s, In (s, c) rs /\ f s = Ok t.
Proof.
  revert ts. induction rs as [| [s0 c0] rs IH]; simpl; intros ts H Hin.
  - destruct Hin.
  - destruct (f s0) as [y | e] eqn:Hs; simpl in H; [| discriminate].
    destruct (mapM f (map fst rs)) as [ys | e]; simpl in H; [| discriminate].
    injection H as <-. simpl in Hin. destruct Hin as [Heq | Hin].
    + injection Heq as <- <-. exists s0. split; [left; reflexivity | exact Hs].
    + destruct (IH ys eq_refl Hin) as [s [Hs' Hfs]].
      exists s. split; [right; exact Hs' | exact Hfs].
Qed.

Lemma combine_map_left {A A' B : Type} (g : A -> A') (l : list A) (l' : list B) :
  combine (map g l) l' = map (fun p => (g (fst p), snd p)) (combine l l').
Proof.
  revert l'. induction l as [| x l IH]; intros [| y l']; simpl;
    [reflexivity | reflexivity | reflexivity |].
  rewrite IH. reflexivity.
Qed.

Lemma range_index_map {R R' : Type} (h : R -> R') (l : list R) :
  range_index (map h l) = map (fun e => (fst e, h (snd e))) (range_index l).
Proof.
  unfold range_index. rewrite length_map. generalize 0%nat.
  induction l as [| x l IH]; intros k; simpl; [reflexivity |].
  rewrite IH. reflexivity.
Qed.

Lemma sort_values_with_months (f : string -> string) (df : DataFrame) :
  sort_values by_tanggal (with_months f df)
    = with_months f (sort_values by_tanggal df).
Proof.
  assert (Hins : forall e l,
            insert_by by_tanggal
              (fst e, mkRow (rename_month f (cells (snd e))) (tanggal (snd e))
                            (bulan_num (snd e)))
              (with_months f l)
            = with_months f (insert_by by_tanggal e l)).
  { intros e l. induction l as [| e' l IH]; simpl; [reflexivity |].
    unfold by_tanggal at 1 3. simpl.
    destruct (ts_leb (tanggal (snd e)) (tanggal (snd e'))); simpl;
      [reflexivity |].
    rewrite IH. reflexivity. }
  induction df as [| e df IH]; simpl; [reflexivity |].
  rewrite IH. apply Hins.
Qed.

(** X2. When the file has a [tanggal] column the month names are not
    consulted: with the names of the file replaced by any others,
    [load_data] has the same outcome, the same error or the same rows in
    the same order under the same labels with the same dates, only the
    names being the new ones; no row has a month number; and the date of
    a row is the one read from its own cell. *)
Theorem load_data_dated_ignores_months (rs : list (string * Cells))
    (f : string -> string) :
  (forall df, load_data (CsvDated rs) = Ok df ->
     load_data (CsvDated (map (fun r => (fst r, rename_month f (snd r))) rs))
       = Ok (with_months f df) /\
     forall r, In r (rows df) ->
       bulan_num r = None /\
       exists s, In (s, cells r) rs /\
                 to_datetime1 (read_cell s) = Ok (tanggal r)) /\
  (forall e, load_data (CsvDated rs) = Raise e ->
     load_data (CsvDated (map (fun r => (fst r, rename_month f (snd r))) rs))
       = Raise e).
Proof.
  unfold load_data, dated_frame, to_datetime.
  rewrite !map_map. cbn [fst snd].
  rewrite <- (map_map fst read_cell).
  split.
  - intros df H.
    destruct (mapM to_datetime1 (map read_cell (map fst rs))) as [ts |] eqn:Hts;
      simpl in H; [| discriminate].
    injection H as <-. split.
    + cbn [bind]. f_equal.
      rewrite <- (map_map snd (rename_month f)), combine_map_left, map_map.
      cbn [fst snd].
      rewrite <- sort_values_with_months. f_equal.
      unfold with_months. rewrite (range_index_map
        (fun ct => mkRow (fst ct) (snd ct) None)),
        (range_index_map
           (fun ct => mkRow (rename_month f (fst ct)) (snd ct) None)).
      rewrite map_map. reflexivity.
    + intros r Hr.
      assert (Hin : In r (map (fun ct => mkRow (fst ct) (snd ct) None)
                              (combine (map snd rs) ts))).
      { rewrite <- (range_index_rows (map _ (combine (map snd rs) ts))).
        unfold rows in *.
        eapply Permutation_in; [| exact Hr].
        apply Permutation_sym, Permutation_map, sort_values_perm. }
      apply in_map_iff in Hin. destruct Hin as [[c t] [<- Hin]]. simpl.
      split; [reflexivity |].
      rewrite map_map in Hts.
      rewrite <- (map_map fst read_cell) in Hts.
      apply (mapM_paired (fun s => to_datetime1 (read_cell s)) rs ts c t);
        [rewrite <- mapM_map; exact Hts | exact Hin].
  - intros e H.
    destruct (mapM to_datetime1 (map read_cell (map fst rs))) as [ts | e'];
      simpl in H; [discriminate |].
    exact H.
Qed.

(** ** The order [load_data] gives is the only one *)

Lemma later_not_earlier (a b : Timestamp) : ts_lt b a -> ts_le a b -> False.
Proof. intros H1 H2. ts_order. Qed.

Lemma chronological_unique (l1 l2 : DataFrame) :
  chronological l1 ->
  Permutation l1 l2 ->
  StronglySorted (fun a b => ts_lt (tanggal (snd a)) (tanggal (snd b))) l2 ->
  l1 = l2.
Proof.
  unfold chronological. intros H1. revert l2.
  induction H1 as [| a l1 Hs1 IH Hall1]; intros l2 Hp H2.
  - apply Permutation_nil in Hp. congruence.
  - destruct l2 as [| b l2].
    + apply Permutation_sym, Permutation_nil in Hp. discriminate.
    + inversion H2 as [| ? ? Hs2 Hall2]; subst.
      rewrite Forall_forall in Hall1, Hall2.
      assert (Hab : a = b).
      { assert (Ha : In a (b :: l2))
          by (apply (Permutation_in _ Hp); left; reflexivity).
        assert (Hb : In b (a :: l1))
          by (apply (Permutation_in _ (Permutation_sym Hp)); left; reflexivity).
        destruct Ha as [Ha | Ha]; [congruence |].
        destruct Hb as [Hb | Hb]; [congruence |].
        exfalso.
        apply (later_not_earlier (tanggal (snd a)) (tanggal (snd b))).
        - apply Hall2, Ha.
        - apply Hall1, Hb. }
      subst b. f_equal. apply IH; [| exact Hs2].
      apply (Permutation_cons_inv Hp).
Qed.

(** X3. When a rearrangement of the dated frame has strictly
    increasing dates, it is what [load_data] returns: with distinct
    dates the result does not depend on how rows of equal date would be
    ordered, and a file already in date order keeps its order. *)
Theorem load_data_determined (csv : Csv) (df0 df' : DataFrame) :
  dated_frame csv = Ok df0 ->
  Permutation df0 df' ->
  StronglySorted ts_lt (map tanggal (rows df')) ->
  load_data csv = Ok df'.
Proof.
  intros H0 Hp Hs. unfold load_data. rewrite H0. simpl.
  rewrite (chronological_unique (sort_values by_tanggal df0) df');
    [reflexivity | | |].
  - apply sort_values_sorted.
  - eapply perm_trans; [apply Permutation_sym, sort_values_perm | exact Hp].
  - clear -Hs. unfold rows in Hs. rewrite map_map in Hs.
    induction df' as [| e l IH]; [constructor |].
    simpl in Hs. inversion Hs as [| ? ? Hs' Hall]; subst.
    constructor; [apply IH; exact Hs' |].
    rewrite Forall_forall in *. intros x Hx.
    apply Hall. apply in_map_iff. exists x. auto.
Qed.

Lemma load_data_determined_witness :
  dated_frame sample_csv = Ok sample_dated /\
  Permutation sample_dated sample_frame /\
  StronglySorted ts_lt (map tanggal (rows sample_frame)) /\
  load_data sample_csv = Ok sample_frame.
Proof.
  split; [vm_compute; reflexivity |].
  split; [apply sort_values_perm |].
  split; [vm_compute; repeat constructor |].
  apply (load_data_determined sample_csv sample_dated sample_frame).
  - vm_compute. reflexivity.
  - apply sort_values_perm.
  - vm_compute. repeat constructor.
Defined.

(** ** The year filter, argument by argument *)

Lemma rows_select (mask : Row -> bool) (df : DataFrame) (r : Row) :
  In r (rows (select mask df)) <-> In r (rows df) /\ mask r = true.
Proof.
  unfold rows, select. split.
  - intros H. apply in_map_iff in H. destruct H as [e [<- He]].
    apply filter_In in He. destruct He as [He Hm].
    split; [apply in_map; exact He | exact Hm].
  - intros [H Hm]. apply in_map_iff in H. destruct H as [e [<- He]].
    apply in_map. apply filter_In. auto.
Qed.

(** X4. On arguments that are absent, empty, not all digits, or
    decimal digits within the limit of [int], the filter raises
    nothing: when some row has its year within the bounds asked for it
    returns exactly those rows, in order, and the two arguments as they
    came; when none has, it returns the whole frame and two empty
    strings. *)
Theorem year_filter_plain (df : DataFrame) (year_from year_to : option Query.ustr) :
  plain year_from ->
  plain year_to ->
  (select (within (bound_of year_from) (bound_of year_to)) df <> [] ->
   year_filter df year_from year_to =
     Ok (select (within (bound_of year_from) (bound_of year_to)) df,
         year_from, year_to)) /\
  (select (within (bound_of year_from) (bound_of year_to)) df = [] ->
   year_filter df year_from year_to = Ok (df, Some [], Some [])) /\
  (forall r,
     In r (rows (select (within (bound_of year_from) (bound_of year_to)) df)) <->
     In r (rows df) /\ within (bound_of year_from) (bound_of year_to) r = true).
Proof.
  intros Pf Pt. unfold year_filter.
  rewrite (apply_bounds_plain df _ _ Pf Pt). cbn [bind].
  split; [| split].
  - intros Hne.
    destruct (select (within (bound_of year_from) (bound_of year_to)) df);
      [congruence | reflexivity].
  - intros ->. reflexivity.
  - apply rows_select.
Qed.

Lemma plain_ascii_2021 : plain (Some (Query.of_ascii "2021")).
Proof.
  intros s Hs _. injection Hs as <-. split.
  - repeat constructor.
  - vm_compute. repeat constructor.
Qed.

Lemma year_filter_plain_witness :
  plain (Some (Query.of_ascii "2021")) /\
  plain None /\
  year_filter sample_frame (Some (Query.of_ascii "2021")) None =
    Ok (select (within (bound_of (Some (Query.of_ascii "2021"))) (bound_of None))
               sample_frame,
        Some (Query.of_ascii "2021"), None).
Proof.
  split; [exact plain_ascii_2021 |].
  split; [intros s Hs; discriminate Hs |].
  destruct (year_filter_plain sample_frame (Some (Query.of_ascii "2021")) None)
    as [H _].
  - exact plain_ascii_2021.
  - intros s Hs. discriminate Hs.
  - apply H. vm_compute. discriminate.
Defined.

Lemma isdigit_false (s : Query.ustr) (c : Query.uchar) :
  In c s -> Query.char_isdigit c = false -> Query.isdigit s = false.
Proof.
  intros Hin Hc. unfold Query.isdigit. destruct s as [| x s]; [reflexivity |].
  apply not_true_iff_false. intros H. rewrite forallb_forall in H.
  rewrite (H c Hin) in Hc. discriminate Hc.
Qed.

(** X5. An argument with a character that is no digit (a sign, a
    blank, a letter) is no bound at all, in either place: the rows are
    those the other argument alone leaves, and when the frame is not
    empty the text comes back as it was given. *)
Theorem year_filter_ignores_other_text (df : DataFrame) (s : Query.ustr)
    (c : Query.uchar) (other : option Query.ustr) :
  In c s ->
  Query.char_isdigit c = false ->
  apply_bounds df (Some s) other = apply_bounds df None other /\
  apply_bounds df other (Some s) = apply_bounds df other None /\
  (df <> [] ->
   year_filter df (Some s) None = Ok (df, Some s, None) /\
   year_filter df None (Some s) = Ok (df, None, Some s)).
Proof.
  intros Hin Hc. pose proof (isdigit_false s c Hin Hc) as Hd.
  unfold year_filter, apply_bounds.
  change (Query.or_empty (Some s)) with s.
  rewrite Hd, andb_false_r. cbn [Query.truthy andb bind].
  split; [reflexivity |]. split; [reflexivity |].
  intros Hne. destruct df; [congruence |]. split; reflexivity.
Qed.

Lemma year_filter_ignores_other_text_witness :
  year_filter sample_frame (Some (Query.of_ascii "-5")) None
    = Ok (sample_frame, Some (Query.of_ascii "-5"), None).
Proof.
  apply (year_filter_ignores_other_text sample_frame (Query.of_ascii "-5")
           (Query.UOther 45) None).
  - left. reflexivity.
  - reflexivity.
  - vm_compute. discriminate.
Defined.

Lemma select_id (mask : Row -> bool) (df : DataFrame) :
  (forall e, In e df -> mask (snd e) = true) -> select mask df = df.
Proof.
  unfold select. induction df as [| e df IH]; intros H; simpl.
  - reflexivity.
  - rewrite (H e (or_introl eq_refl)). f_equal.
    apply IH. intros x Hx. apply H. right. exact Hx.
Qed.

Lemma select_select_same (f g : Row -> bool) (df : DataFrame) :
  select g (select f (select g (select f df))) = select g (select f df).
Proof.
  rewrite (select_id f (select g (select f df))).
  - apply select_id. intros e He. unfold select in He.
    apply filter_In in He. tauto.
  - intros e He. unfold select in He.
    apply filter_In in He. destruct He as [He _].
    apply filter_In in He. tauto.
Qed.

(** X6. Filtering what the filter returned, with the arguments it
    returned, changes nothing: the same view and the same arguments
    come back. *)
Theorem year_filter_idempotent (df v : DataFrame)
    (year_from year_to a b : option Query.ustr) :
  year_filter df year_from year_to = Ok (v, a, b) ->
  year_filter v a b = Ok (v, a, b).
Proof.
  unfold year_filter. intros H. apply bind_ok in H.
  destruct H as [w [Hw H]].
  destruct w as [| e w]; simpl in H; injection H as <- <- <-.
  - destruct df; reflexivity.
  - assert (Hsame : apply_bounds (e :: w) year_from year_to = Ok (e :: w)).
    { revert Hw. unfold apply_bounds.
      destruct (Query.truthy year_from && Query.isdigit (Query.or_empty year_from))%bool;
        [destruct (Query.int_ (Query.or_empty year_from)) as [n |];
         [| discriminate] |];
        cbn [bind];
        (destruct (Query.truthy year_to && Query.isdigit (Query.or_empty year_to))%bool;
         [destruct (Query.int_ (Query.or_empty year_to)) as [m |];
          [| discriminate] |]);
        cbn [bind]; intros Hw; injection Hw as Hw; rewrite <- Hw;
        try reflexivity; apply (f_equal Ok);
        first [ apply select_select_same
              | apply select_id; intros x Hx; unfold select in Hx;
                apply filter_In in Hx; tauto ]. }
    rewrite Hsame. reflexivity.
Qed.

Lemma year_filter_idempotent_witness :
  year_filter sample_frame (Some text_2025) None
    = Ok (sample_frame, Some [], Some []) /\
  year_filter sample_frame (Some []) (Some [])
    = Ok (sample_frame, Some [], Some []).
Proof.
  split; [vm_compute; reflexivity |].
  apply (year_filter_idempotent sample_frame sample_frame (Some text_2025) None).
  vm_compute. reflexivity.
Defined.

(** X7. Whenever the filter returns, the view is made of rows of the
    frame under their own labels; it has one row per label and goes
    forward in time when the frame does; it is empty only when the
    frame is; and either the arguments come back as given or the view
    is the whole frame and both arguments are empty strings. *)
Theorem year_filter_view_of_frame (df v : DataFrame)
    (year_from year_to a b : option Query.ustr) :
  year_filter df year_from year_to = Ok (v, a, b) ->
  (forall e, In e v -> In e df) /\
  (unique_labels df -> unique_labels v) /\
  (chronological df -> chronological v) /\
  (df <> [] -> v <> []) /\
  ((a = year_from /\ b = year_to) \/ (v = df /\ a = Some [] /\ b = Some [])).
Proof.
  unfold year_filter. intros H. apply bind_ok in H.
  destruct H as [w [Hw H]].
  destruct (apply_bounds_sub _ _ _ _ Hw) as [mask ->].
  destruct (select mask df) as [| e l] eqn:Hsel; simpl in H;
    injection H as <- <- <-.
  - repeat split; auto.
  - rewrite <- Hsel. split; [apply select_sublist |].
    split; [apply select_unique_labels |].
    split; [apply select_chronological |].
    split; [rewrite Hsel; discriminate | left; split; reflexivity].
Qed.

Lemma year_filter_view_of_frame_witness :
  year_filter sample_frame (Some (Query.of_ascii "2021")) None
    = Ok (sample_view_2021, Some (Query.of_ascii "2021"), None) /\
  unique_labels sample_view_2021 /\
  chronological sample_view_2021 /\
  sample_view_2021 <> [].
Proof.
  split; [vm_compute; reflexivity |].
  destruct (year_filter_view_of_frame sample_frame sample_view_2021
              (Some (Query.of_ascii "2021")) None
              (Some (Query.of_ascii "2021")) None)
    as [_ [Hu [Hc [Hn _]]]].
  - vm_compute. reflexivity.
  - split; [apply Hu, sample_frame_unique |].
    split; [apply Hc, sample_frame_chronological |].
    apply Hn, sample_frame_nonempty.
Defined.

Lemma decimal_value_only_ValueError (s : Query.ustr) (acc : Z) (e : exn) :
  Query.decimal_value acc s = Raise e -> e = ValueError.
Proof.
  revert acc. induction s as [| c s IH]; simpl; intros acc H; [discriminate |].
  destruct c; try (injection H as <-; reflexivity). apply (IH _ H).
Qed.

Lemma decimal_value_ok_decimal (s : Query.ustr) (acc n : Z) :
  Query.decimal_value acc s = Ok n -> Forall is_decimal s.
Proof.
  revert acc. induction s as [| c s IH]; simpl; intros acc H; [constructor |].
  destruct c; try discriminate. constructor; [exact I | apply (IH _ H)].
Qed.

(** The guarded conversion of an argument raises exactly when the
    argument is unreadable, and then [ValueError]. *)
Lemma guarded_int_raises (a : option Query.ustr) :
  (unreadable a ->
   Query.truthy a && Query.isdigit (Query.or_empty a) = true /\
   Query.int_ (Query.or_empty a) = Raise ValueError) /\
  (forall e,
     Query.truthy a && Query.isdigit (Query.or_empty a) = true ->
     Query.int_ (Query.or_empty a) = Raise e ->
     e = ValueError /\ unreadable a).
Proof.
  split.
  - intros [s [-> [Hd Hbad]]]. cbn [Query.or_empty].
    destruct s as [| c s]; [discriminate |]. cbn [Query.truthy andb].
    split; [exact Hd |]. unfold Query.int_.
    destruct (Nat.ltb Query.max_str_digits (List.length (c :: s))) eqn:Hlen;
      [reflexivity |].
    destruct Hbad as [Hbad | Hbad].
    + destruct (Query.decimal_value 0 (c :: s)) as [n | e] eqn:Hv.
      * exfalso. apply Hbad. apply (decimal_value_ok_decimal _ _ _ Hv).
      * f_equal. apply (decimal_value_only_ValueError _ _ _ Hv).
    + apply Nat.ltb_ge in Hlen. lia.
  - intros e Hg Hint. destruct a as [[| c s] |]; try discriminate.
    cbn [Query.truthy Query.or_empty andb] in Hg, Hint.
    unfold Query.int_ in Hint.
    destruct (Nat.ltb Query.max_str_digits (List.length (c :: s))) eqn:Hlen.
    + injection Hint as <-. split; [reflexivity |].
      exists (c :: s). split; [reflexivity |]. split; [exact Hg |].
      right. apply Nat.ltb_lt. exact Hlen.
    + split; [apply (decimal_value_only_ValueError _ _ _ Hint) |].
      exists (c :: s). split; [reflexivity |]. split; [exact Hg |].
      left. intros Hall.
      destruct (decimal_value_total (c :: s) 0 Hall) as [n Hn]. congruence.
Qed.

Lemma year_filter_raise_inv (df : DataFrame)
    (year_from year_to : option Query.ustr) :
  forall e, year_filter df year_from year_to = Raise e ->
            e = ValueError /\ (unreadable year_from \/ unreadable year_to).
Proof.
  intros e. unfold year_filter, apply_bounds.
    destruct (Query.truthy year_from && Query.isdigit (Query.or_empty year_from))%bool
      eqn:Gf.
    - destruct (Query.int_ (Query.or_empty year_from)) as [n | e1] eqn:If;
        cbn [bind].
      + destruct (Query.truthy year_to && Query.isdigit (Query.or_empty year_to))%bool
          eqn:Gt.
        * destruct (Query.int_ (Query.or_empty year_to)) as [m | e2] eqn:It;
            cbn [bind].
          -- destruct (empty _); discriminate.
          -- intros H. injection H as <-.
             destruct (proj2 (guarded_int_raises year_to) e2 Gt It). auto.
        * cbn [bind]. destruct (empty _); discriminate.
      + intros H. injection H as <-.
        destruct (proj2 (guarded_int_raises year_from) e1 Gf If). auto.
    - cbn [bind].
      destruct (Query.truthy year_to && Query.isdigit (Query.or_empty year_to))%bool
        eqn:Gt.
      + destruct (Query.int_ (Query.or_empty year_to)) as [m | e2] eqn:It;
          cbn [bind].
        * destruct (empty _); discriminate.
        * intros H. injection H as <-.
          destruct (proj2 (guarded_int_raises year_to) e2 Gt It). auto.
      + cbn [bind]. destruct (empty _); discriminate.
Qed.

(** X8. The filter raises only [ValueError], and it raises exactly
    when one of the two arguments is a string of digits that [int] does
    not convert: a digit that is not decimal, or more digits than the
    limit. No other text, and no frame, makes it raise. *)
Theorem year_filter_raises_iff_unreadable (df : DataFrame)
    (year_from year_to : option Query.ustr) :
  (forall e, year_filter df year_from year_to = Raise e -> e = ValueError) /\
  (year_filter df year_from year_to = Raise ValueError <->
   unreadable year_from \/ unreadable year_to).
Proof.
  pose proof (year_filter_raise_inv df year_from year_to) as Hraise.
  split; [intros e H; apply (Hraise e H) |].
  split; [intros H; apply (Hraise _ H) |].
  intros Hbad. unfold year_filter, apply_bounds.
  destruct (Query.truthy year_from && Query.isdigit (Query.or_empty year_from))%bool
    eqn:Gf.
  - destruct (Query.int_ (Query.or_empty year_from)) as [n | e1] eqn:If;
      cbn [bind].
    + destruct Hbad as [Hbad | Hbad].
      * destruct (proj1 (guarded_int_raises year_from) Hbad) as [_ Hr].
        congruence.
      * destruct (proj1 (guarded_int_raises year_to) Hbad) as [-> ->].
        reflexivity.
    + destruct (proj2 (guarded_int_raises year_from) e1 Gf If) as [-> _].
      reflexivity.
  - cbn [bind]. destruct Hbad as [Hbad | Hbad].
    + destruct (proj1 (guarded_int_raises year_from) Hbad) as [Hg _].
      congruence.
    + destruct (proj1 (guarded_int_raises year_to) Hbad) as [-> ->].
      reflexivity.
Qed.

(** ** The page of [index] *)

Lemma load_data_cells (csv : Csv) (df : DataFrame) :
  load_data csv = Ok df -> Permutation (map cells (rows df)) (csv_cells csv).
Proof.
  unfold load_data. intros H. apply bind_ok in H.
  destruct H as [df0 [H0 H]]. injection H as <-.
  destruct (dated_frame_cells csv df0 H0) as [l [-> Hl]].
  rewrite <- Hl. apply Permutation_map.
  rewrite <- (range_index_rows l) at 2. unfold rows.
  apply Permutation_sym, Permutation_map, sort_values_perm.
Qed.

(** A page is made of one frame and one view of it. *)
Lemma index_inv (render_plotly : Figure -> string) (csv : Csv)
    (year_from year_to : option Query.ustr) (page : Page) :
  index render_plotly csv year_from year_to = Ok page ->
  exists df v a b,
    load_data csv = Ok df /\
    year_filter df year_from year_to = Ok (v, a, b) /\
    build_summary v = Ok (pg_summary page) /\
    build_insights v = Ok (pg_insights page) /\
    generate_charts render_plotly v
      = (pg_tren page, pg_akumulasi page, pg_skenario page) /\
    pg_table page = rows (tail 24 v) /\
    pg_years page = sorted_years df /\
    pg_year_from page = Query.or_empty a /\
    pg_year_to page = Query.or_empty b.
Proof.
  unfold index. intros H.
  destruct (load_data csv) as [df |]; [| discriminate]. cbn [bind] in H.
  destruct (year_filter df year_from year_to) as [[[v a] b] |] eqn:Hf;
    [| discriminate].
  cbn [bind] in H.
  destruct (build_summary v) as [sm |] eqn:Hs; [| discriminate].
  cbn [bind] in H.
  destruct (build_insights v) as [ins |] eqn:Hi; [| discriminate].
  cbn [bind] in H.
  destruct (generate_charts render_plotly v) as [[h1 h2] h3] eqn:Hc.
  injection H as <-. exists df, v, a, b. simpl.
  repeat (split; [first [reflexivity | assumption] |]). reflexivity.
Qed.

Lemma insert_year_in (y z : Z) (l : list Z) :
  In z (insert_year y l) <-> z = y \/ In z l.
Proof.
  induction l as [| x l IH]; simpl.
  - intuition.
  - destruct (y <? x) eqn:Hlt; [simpl; intuition |].
    destruct (y =? x) eqn:Heq.
    + apply Z.eqb_eq in Heq. subst x. simpl. intuition.
    + simpl. rewrite IH. intuition.
Qed.

Lemma insert_year_sorted (y : Z) (l : list Z) :
  StronglySorted Z.lt l -> StronglySorted Z.lt (insert_year y l).
Proof.
  induction 1 as [| x l Hs IH Hall]; simpl.
  - constructor; constructor.
  - rewrite Forall_forall in Hall.
    destruct (y <? x) eqn:Hlt.
    + apply Z.ltb_lt in Hlt. constructor.
      * constructor; [exact Hs | apply Forall_forall; exact Hall].
      * apply Forall_forall. intros z [<- | Hz]; [exact Hlt |].
        specialize (Hall z Hz). lia.
    + destruct (y =? x) eqn:Heq.
      * constructor; [exact Hs | apply Forall_forall; exact Hall].
      * apply Z.ltb_ge in Hlt. apply Z.eqb_neq in Heq.
        constructor; [exact IH |].
        apply Forall_forall. intros z Hz. apply insert_year_in in Hz.
        destruct Hz as [-> | Hz]; [lia | apply Hall, Hz].
Qed.

Lemma sorted_years_spec (df : DataFrame) :
  StronglySorted Z.lt (sorted_years df) /\
  forall y, In y (sorted_years df) <-> In y (years_of df).
Proof.
  unfold sorted_years, years_of. rewrite values_col.
  induction (map (fun r => tahun (cells r)) (rows df)) as [| x l [IHs IHin]];
    simpl.
  - split; [constructor | tauto].
  - split; [apply insert_year_sorted; exact IHs |].
    intros y. rewrite insert_year_in, IHin. intuition.
Qed.

(** X9. The list of years of a page is strictly increasing, so
    without repetition, and holds exactly the years that occur in the
    file: the years of all rows, not only of the rows the bounds keep. *)
Theorem index_years_of_file (render_plotly : Figure -> string) (csv : Csv)
    (year_from year_to : option Query.ustr) (page : Page) :
  index render_plotly csv year_from year_to = Ok page ->
  StronglySorted Z.lt (pg_years page) /\
  forall y, In y (pg_years page) <->
            exists c, In c (csv_cells csv) /\ tahun c = y.
Proof.
  intros H. apply index_inv in H.
  destruct H as [df [v [a [b [Hload [_ [_ [_ [_ [_ [-> _]]]]]]]]]]].
  destruct (sorted_years_spec df) as [Hs Hin]. split; [exact Hs |].
  intros y. rewrite Hin. unfold years_of.
  pose proof (load_data_cells csv df Hload) as Hp.
  rewrite <- (map_map cells tahun). split.
  - intros Hy. apply in_map_iff in Hy. destruct Hy as [c [<- Hc]].
    exists c. split; [apply (Permutation_in _ Hp Hc) | reflexivity].
  - intros [c [Hc <-]]. apply in_map.
    apply (Permutation_in _ (Permutation_sym Hp) Hc).
Qed.

Lemma index_years_of_file_witness :
  exists page,
    index (fun _ => EmptyString) sample_csv (Some (Query.of_ascii "2021")) None
      = Ok page /\
    pg_years page = [2020; 2021; 2022] /\
    StronglySorted Z.lt (pg_years page).
Proof.
  eexists. split; [vm_compute; reflexivity |].
  split; [reflexivity |].
  apply (index_years_of_file (fun _ => EmptyString) sample_csv
           (Some (Query.of_ascii "2021")) None).
  vm_compute. reflexivity.
Defined.

(** X10. For a file with at least one row and arguments on which
    [isdigit] and [int] agree, [index] returns a page; its summary, its
    three sentences, its three charts and its table are all made from
    one and the same view, the one the filter returns, which is not
    empty; and its two bounds are the arguments the filter returns. *)
Theorem index_serves_page (render_plotly : Figure -> string) (csv : Csv)
    (df : DataFrame) (year_from year_to : option Query.ustr) :
  load_data csv = Ok df ->
  df <> [] ->
  plain year_from ->
  plain year_to ->
  exists page v a b,
    index render_plotly csv year_from year_to = Ok page /\
    year_filter df year_from year_to = Ok (v, a, b) /\
    v <> [] /\
    build_summary v = Ok (pg_summary page) /\
    build_insights v = Ok (pg_insights page) /\
    List.length (pg_insights page) = 3%nat /\
    generate_charts render_plotly v
      = (pg_tren page, pg_akumulasi page, pg_skenario page) /\
    pg_table page = rows (tail 24 v) /\
    pg_year_from page = Query.or_empty a /\
    pg_year_to page = Query.or_empty b.
Proof.
  intros Hload Hne Pf Pt.
  destruct (index_returns render_plotly csv df year_from year_to
              Hload Hne Pf Pt) as [page Hpage].
  pose proof (index_inv _ _ _ _ _ Hpage)
    as [df' [v [a [b [Hl [Hf [Hs [Hi [Hc [Ht [_ [Ha Hb]]]]]]]]]]]].
  assert (df' = df) by congruence. subst df'.
  destruct (load_data_frame csv df Hload) as [Hn Hch].
  destruct (year_filter_view df v _ _ a b Hn Hch Hf) as [Hvn [_ Hv]].
  specialize (Hv Hne).
  exists page, v, a, b. repeat (split; [assumption |]).
  split; [| repeat (split; [assumption |]); assumption].
  destruct (highest_of_first_max v Hv Hvn) as [ph [eh [qh [_ [Hh _]]]]].
  destruct (lowest_of_first_min v Hv Hvn) as [pl [el [ql [_ [Hlo _]]]]].
  destruct (nonempty_last (rows v) (rows_nonempty v Hv)) as [pre [x Hrows]].
  pose proof (build_insights_ok v _ _ x pre Hh Hlo Hrows) as Hok.
  rewrite Hi in Hok. injection Hok as ->. reflexivity.
Qed.

Lemma index_serves_page_witness :
  load_data sample_csv = Ok sample_frame /\
  sample_frame <> [] /\
  plain (Some (Query.of_ascii "2021")) /\
  plain None /\
  exists page,
    index (fun _ => EmptyString) sample_csv (Some (Query.of_ascii "2021")) None
      = Ok page.
Proof.
  split; [reflexivity |]. split; [vm_compute; discriminate |].
  split; [exact plain_ascii_2021 |].
  split; [intros s Hs; discriminate Hs |].
  destruct (index_serves_page (fun _ => EmptyString) sample_csv sample_frame
              (Some (Query.of_ascii "2021")) None)
    as [page [v [a [b [H _]]]]].
  - reflexivity.
  - vm_compute. discriminate.
  - exact plain_ascii_2021.
  - intros s Hs. discriminate Hs.
  - exists page. exact H.
Defined.

(** X11. A file without rows gives no page: [load_data] returns the
    empty frame, the fallback of the filter has nothing to fall back
    on, and [index] raises, with [IndexError] from [build_summary]
    unless an argument already made the filter raise [ValueError]. *)
Theorem index_empty_file (render_plotly : Figure -> string) (csv : Csv)
    (year_from year_to : option Query.ustr) :
  csv_cells csv = [] ->
  load_data csv = Ok [] /\
  (index render_plotly csv year_from year_to = Raise IndexError \/
   index render_plotly csv year_from year_to = Raise ValueError) /\
  (plain year_from -> plain year_to ->
   index render_plotly csv year_from year_to = Raise IndexError).
Proof.
  intros Hc.
  assert (Hload : load_data csv = Ok []).
  { destruct csv as [rs | rs]; simpl in Hc.
    - destruct rs; [reflexivity | discriminate].
    - subst rs. reflexivity. }
  split; [exact Hload |].
  assert (Hok : forall v a b, year_filter [] year_from year_to = Ok (v, a, b) ->
                  index render_plotly csv year_from year_to = Raise IndexError).
  { intros v a b Hf. unfold index. rewrite Hload. cbn [bind]. rewrite Hf.
    cbn [bind]. unfold year_filter in Hf. apply bind_ok in Hf.
    destruct Hf as [w [Hw Hf]].
    destruct (apply_bounds_sub _ _ _ _ Hw) as [mask ->].
    simpl in Hf. injection Hf as <- _ _. reflexivity. }
  split.
  - destruct (year_filter [] year_from year_to) as [[[v a] b] | e] eqn:Hf.
    + left. apply (Hok v a b eq_refl).
    + right. destruct (year_filter_raise_inv _ _ _ e Hf) as [-> _].
      unfold index. rewrite Hload. cbn [bind]. rewrite Hf. reflexivity.
  - intros Pf Pt. apply (Hok [] (Some []) (Some [])).
    unfold year_filter. rewrite (apply_bounds_plain [] _ _ Pf Pt). reflexivity.
Qed.

Lemma index_empty_file_witness :
  csv_cells (CsvMonthly []) = [] /\
  index (fun _ => EmptyString) (CsvMonthly []) None None = Raise IndexError.
Proof.
  split; [reflexivity |].
  destruct (index_empty_file (fun _ => EmptyString) (CsvMonthly []) None None)
    as [_ [_ H]].
  - reflexivity.
  - apply H; intros s Hs; discriminate Hs.
Defined.

Lemma chronological_app (pre post : DataFrame) :
  chronological (pre ++ post) ->
  forall e e', In e pre -> In e' post -> earlier e e'.
Proof.
  unfold chronological. induction pre as [| a pre IH]; simpl; intros Hs e e' He He'.
  - destruct He.
  - inversion Hs as [| ? ? Hs' Hall]; subst.
    destruct He as [<- | He]; [| apply (IH Hs' e e' He He')].
    rewrite Forall_forall in Hall. apply Hall.
    apply in_or_app. right. exact He'.
Qed.

(** X12. The table of a page holds the last 24 rows of the view, or
    all of them when the view has fewer: the rows of the view are the
    rows left out followed by the rows of the table, and no row left
    out is later than a row of the table. *)
Theorem index_table_latest (render_plotly : Figure -> string) (csv : Csv)
    (year_from year_to : option Query.ustr) (page : Page) :
  index render_plotly csv year_from year_to = Ok page ->
  exists df v a b older,
    load_data csv = Ok df /\
    year_filter df year_from year_to = Ok (v, a, b) /\
    rows v = older ++ pg_table page /\
    List.length (pg_table page) = Nat.min 24 (List.length v) /\
    forall r r', In r older -> In r' (pg_table page) ->
                 ts_le (tanggal r) (tanggal r').
Proof.
  intros H. apply index_inv in H.
  destruct H as [df [v [a [b [Hload [Hf [_ [_ [_ [Ht _]]]]]]]]]].
  destruct (load_data_frame csv df Hload) as [Hn Hch].
  destruct (year_filter_view df v _ _ a b Hn Hch Hf) as [_ [Hvc _]].
  exists df, v, a, b, (rows (firstn (List.length v - 24) v)).
  split; [exact Hload |]. split; [exact Hf |].
  rewrite Ht. unfold tail.
  split; [rewrite <- rows_app, firstn_skipn; reflexivity |].
  split; [unfold rows; rewrite length_map, length_skipn; lia |].
  intros r r' Hr Hr'. unfold rows in Hr, Hr'.
  apply in_map_iff in Hr. destruct Hr as [e [<- He]].
  apply in_map_iff in Hr'. destruct Hr' as [e' [<- He']].
  apply (chronological_app (firstn (List.length v - 24) v)
           (skipn (List.length v - 24) v)); [| exact He | exact He'].
  rewrite firstn_skipn. exact Hvc.
Qed.

Lemma index_table_latest_witness :
  exists page v older,
    index (fun _ => EmptyString) sample_csv None None = Ok page /\
    rows v = older ++ pg_table page /\
    List.length (pg_table page) = Nat.min 24 (List.length v).
Proof.
  destruct (index (fun _ => EmptyString) sample_csv None None)
    as [page | e] eqn:H; [| vm_compute in H; discriminate H].
  destruct (index_table_latest (fun _ => EmptyString) sample_csv None None
              page H)
    as [df [v [a [b [older [_ [_ [Hrows [Hlen _]]]]]]]]].
  exists page, v, older. auto.
Defined.

(** ** The month name in the sentences *)

Lemma is_cased_to_lower (c : ascii) :
  Str.is_cased (Str.to_lower c) = Str.is_cased c.
Proof.
  destruct c as [b0 b1 b2 b3 b4 b5 b6 b7].
  destruct b0, b1, b2, b3, b4, b5, b6, b7; reflexivity.
Qed.

Lemma to_lower_idem (c : ascii) :
  Str.to_lower (Str.to_lower c) = Str.to_lower c.
Proof.
  destruct c as [b0 b1 b2 b3 b4 b5 b6 b7].
  destruct b0, b1, b2, b3, b4, b5, b6, b7; reflexivity.
Qed.

Lemma title_from_lower (s : string) (p : bool) :
  Str.title_from p (lower s) = Str.title_from p s.
Proof.
  revert p. induction s as [| c s IH]; intros p; simpl; [reflexivity |].
  rewrite is_cased_to_lower, IH, to_lower_idem, to_upper_to_lower.
  reflexivity.
Qed.

(** X13. The month name in the sentences of the peak and of the lowest
    period does not depend on the case of the name in the file: names
    that differ only by case are written the same, first letter of each
    word raised and the rest lowered, so two rows that differ only by
    the case of the month name give the same sentences. *)
Theorem title_ignores_case (s k : string) :
  lower s = lower k ->
  Str.title s = Str.title k /\
  forall c t n,
    puncak_text (mkRow (mkCells (tahun c) s (jumlah_sampah c)
                          (penanganan_estimasi c) (sisa_sampah c) (akumulasi c)
                          (skn_BAU c) (skn_70 c) (skn_80 c)) t n)
    = puncak_text (mkRow (mkCells (tahun c) k (jumlah_sampah c)
                            (penanganan_estimasi c) (sisa_sampah c) (akumulasi c)
                            (skn_BAU c) (skn_70 c) (skn_80 c)) t n) /\
    terendah_text (mkRow (mkCells (tahun c) s (jumlah_sampah c)
                            (penanganan_estimasi c) (sisa_sampah c) (akumulasi c)
                            (skn_BAU c) (skn_70 c) (skn_80 c)) t n)
    = terendah_text (mkRow (mkCells (tahun c) k (jumlah_sampah c)
                              (penanganan_estimasi c) (sisa_sampah c) (akumulasi c)
                              (skn_BAU c) (skn_70 c) (skn_80 c)) t n).
Proof.
  intros H.
  assert (Ht : Str.title s = Str.title k).
  { unfold Str.title.
    rewrite <- (title_from_lower s), <- (title_from_lower k), H. reflexivity. }
  split; [exact Ht |].
  intros c t n. unfold puncak_text, terendah_text. simpl.
  rewrite Ht. split; reflexivity.
Qed.

Lemma title_ignores_case_witness :
  lower "DESEMBER" = lower "desember" /\
  Str.title "DESEMBER" = Str.title "desember".
Proof.
  split; [reflexivity |].
  apply (title_ignores_case "DESEMBER" "desember"). reflexivity.
Defined.

(** ** The numbers a summary displays *)

(** The integer [.0f] writes is no further than one half from the
    value. *)
Lemma commas_rev_strip (l : list ascii) (k : nat) :
  filter not_comma (Fmt.commas_rev k l) = filter not_comma l.
Proof.
  revert k. induction l as [| c l IH]; intros k; simpl; [reflexivity |].
  destruct k as [| [| [| [| k]]]]; simpl; rewrite ?IH; reflexivity.
Qed.

Lemma list_ascii_app (a b : string) :
  list_ascii_of_string (a ++ b) =
    list_ascii_of_string a ++ list_ascii_of_string b.
Proof.
  induction a as [| c a IH]; simpl; [| rewrite IH]; reflexivity.
Qed.

Lemma string_of_list_app (a b : list ascii) :
  string_of_list_ascii (a ++ b) =
    (string_of_list_ascii a ++ string_of_list_ascii b)%string.
Proof.
  induction a as [| c a IH]; simpl; [| rewrite IH]; reflexivity.
Qed.

Lemma strip_commas_app (a b : string) :
  strip_commas (a ++ b) = (strip_commas a ++ strip_commas b)%string.
Proof.
  unfold strip_commas.
  rewrite list_ascii_app, filter_app, string_of_list_app. reflexivity.
Qed.

Lemma strip_group_thousands (digits : string) :
  strip_commas digits = digits ->
  strip_commas (Fmt.group_thousands digits) = digits.
Proof.
  intros H. unfold strip_commas, Fmt.group_thousands in *.
  rewrite list_ascii_of_string_of_list_ascii, filter_rev, commas_rev_strip,
    <- filter_rev, rev_involutive.
  exact H.
Qed.

Lemma uint_digits_no_comma (d : Decimal.uint) :
  strip_commas (NilEmpty.string_of_uint d) = NilEmpty.string_of_uint d.
Proof.
  unfold strip_commas.
  induction d as [| d IH | d IH | d IH | d IH | d IH | d IH | d IH | d IH
                  | d IH | d IH];
    simpl; [reflexivity | ..];
    change (not_comma _) with true; cbv iota; simpl; f_equal; exact IH.
Qed.

Lemma of_Z_no_comma (n : Z) : 0 <= n -> strip_commas (Str.of_Z n) = Str.of_Z n.
Proof.
  intros Hn. unfold Str.of_Z.
  destruct n as [| p | p]; [reflexivity | | lia].
  unfold Z.to_int, NilZero.string_of_int, NilZero.string_of_uint.
  destruct (Pos.to_uint p); try apply uint_digits_no_comma. reflexivity.
Qed.

Lemma comma_0f_shows (q : Q) (suffix : string) :
  strip_commas suffix = suffix ->
  shows (Fmt.comma_0f q ++ suffix) (Num q) suffix.
Proof.
  intros Hu. exists q, (Fmt.round_half_even q).
  destruct (round_half_even_near q) as [Hlo Hhi].
  split; [reflexivity |]. split; [exact Hlo |]. split; [exact Hhi |].
  rewrite strip_commas_app, Hu. unfold Fmt.comma_0f.
  destruct (Qnum q <? 0).
  - rewrite strip_commas_app.
    rewrite strip_group_thousands by (apply of_Z_no_comma, Z.abs_nonneg).
    reflexivity.
  - rewrite strip_group_thousands by (apply of_Z_no_comma, Z.abs_nonneg).
    reflexivity.
Qed.

(** X14. In every summary [build_summary] returns, each of the four
    texts agrees with the number beside it: it is the unit after the
    number rounded to an integer at most one half away, written in
    decimal digits with commas and, for a negative number, a minus sign
    before it. *)
Theorem build_summary_texts_show_values (df : DataFrame) (s : Summary) :
  build_summary df = Ok s ->
  shows (total_sampah s) (total_sampah_value s) " ton" /\
  shows (rata_penanganan s) (rata_penanganan_value s) " ton/bulan" /\
  shows (sisa_akhir s) (sisa_akhir_value s) " ton" /\
  shows (akumulasi_akhir s) (akumulasi_akhir_value s) " ton".
Proof.
  intros H.
  assert (Hne : df <> []) by (intros ->; discriminate H).
  destruct (nonempty_last (rows df) (rows_nonempty df Hne)) as [pre [x Hrows]].
  rewrite (build_summary_ok df pre x Hrows) in H. injection H as <-. simpl.
  assert (Hmean : exists m, mean (col penanganan_estimasi df) = Num m).
  { unfold mean. destruct (col penanganan_estimasi df) eqn:Hc.
    - destruct df; [congruence | discriminate].
    - eexists. reflexivity. }
  destruct Hmean as [m ->]. simpl.
  repeat split; apply comma_0f_shows; reflexivity.
Qed.

Lemma build_summary_texts_show_values_witness :
  exists s,
    build_summary sample_frame = Ok s /\
    shows (total_sampah s) (total_sampah_value s) " ton".
Proof.
  destruct (build_summary sample_frame) as [s | e] eqn:H;
    [| vm_compute in H; discriminate H].
  exists s. split; [reflexivity |].
  apply (build_summary_texts_show_values sample_frame s H).
Defined.

(** ** A year of the list as a bound *)

Lemma year_text_read_all : forallb year_text_read years_to_9999 = true.
Proof. vm_compute. reflexivity. Qed.

Lemma year_text_int (y : Z) :
  0 <= y <= 9999 ->
  Query.int_ (year_text y) = Ok y /\ Query.isdigit (year_text y) = true.
Proof.
  intros Hy. pose proof year_text_read_all as H.
  rewrite forallb_forall in H.
  assert (Hin : In y years_to_9999).
  { unfold years_to_9999. apply in_map_iff. exists (Z.to_nat y).
    split; [lia | apply in_seq; lia]. }
  specialize (H y Hin). unfold year_text_read in H.
  destruct (Query.int_ (year_text y)) as [n | e]; [| discriminate].
  apply andb_true_iff in H. destruct H as [Hn Hd].
  apply Z.eqb_eq in Hn. subst n. auto.
Qed.

Lemma year_text_plain (y : Z) :
  0 <= y <= 9999 ->
  plain (Some (year_text y)) /\ bound_of (Some (year_text y)) = Some y.
Proof.
  intros Hy. destruct (year_text_int y Hy) as [Hint Hd].
  unfold Query.int_ in Hint.
  destruct (year_text y) as [| c s] eqn:Ht; [discriminate |].
  destruct (Nat.ltb Query.max_str_digits (List.length (c :: s))) eqn:Hlen;
    [discriminate |].
  split.
  - intros s' Hs' _. injection Hs' as <-. split.
    + apply (decimal_value_ok_decimal _ _ _ Hint).
    + apply Nat.ltb_ge. exact Hlen.
  - unfold bound_of. rewrite Hint. reflexivity.
Qed.

(** X15. A year that occurs in the frame, written in decimal digits as
    both bounds, selects that year: the filter returns exactly the rows
    of that year, never the fallback, and gives the two arguments back
    as they came. (Years from 0 to 9999.) *)
Theorem year_filter_one_year (df : DataFrame) (y : Z) :
  0 <= y <= 9999 ->
  In y (years_of df) ->
  exists v,
    year_filter df (Some (year_text y)) (Some (year_text y))
      = Ok (v, Some (year_text y), Some (year_text y)) /\
    v <> [] /\
    forall r, In r (rows v) <-> In r (rows df) /\ tahun (cells r) = y.
Proof.
  intros Hy Hin. destruct (year_text_plain y Hy) as [Hp Hb].
  exists (select (within (Some y) (Some y)) df).
  assert (Hrows : forall r,
            In r (rows (select (within (Some y) (Some y)) df)) <->
            In r (rows df) /\ tahun (cells r) = y).
  { intros r. rewrite rows_select. unfold within.
    rewrite andb_true_iff, !Z.leb_le. intuition lia. }
  assert (Hne : select (within (Some y) (Some y)) df <> []).
  { unfold years_of in Hin. apply in_map_iff in Hin.
    destruct Hin as [r [Hr Hin]].
    assert (Hv : In r (rows (select (within (Some y) (Some y)) df)))
      by (apply Hrows; auto).
    intros Heq. rewrite Heq in Hv. destruct Hv. }
  split; [| split; [exact Hne | exact Hrows]].
  unfold year_filter. rewrite (apply_bounds_plain df _ _ Hp Hp), Hb.
  cbn [bind].
  destruct (select (within (Some y) (Some y)) df); [congruence | reflexivity].
Qed.

Lemma year_filter_one_year_witness :
  0 <= 2021 <= 9999 /\
  In 2021 (years_of sample_frame) /\
  exists v,
    year_filter sample_frame (Some (year_text 2021)) (Some (year_text 2021))
      = Ok (v, Some (year_text 2021), Some (year_text 2021)) /\
    v <> [].
Proof.
  split; [lia |]. split; [vm_compute; auto |].
  destruct (year_filter_one_year sample_frame 2021) as [v [H [Hne _]]].
  - lia.
  - vm_compute. auto.
  - exists v. auto.
Defined.

(** ** The order of a file without a date column *)

Lemma StronglySorted_map_in {A B : Type} (R : A -> A -> Prop)
    (R' : B -> B -> Prop) (f : A -> B) (l : list A) :
  (forall a b, In a l -> In b l -> R a b -> R' (f a) (f b)) ->
  StronglySorted R l -> StronglySorted R' (map f l).
Proof.
  intros Hrel Hs. induction Hs as [| a l Hs IH Hall]; simpl.
  - constructor.
  - constructor.
    + apply IH. intros x y Hx Hy. apply Hrel; right; assumption.
    + rewrite Forall_forall in *. intros y Hy.
      apply in_map_iff in Hy. destruct Hy as [x [<- Hx]].
      apply Hrel; [left; reflexivity | right; exact Hx | apply Hall, Hx].
Qed.

Lemma ts_le_calendar (y1 m1 y2 m2 : Z) :
  ts_le (mkTimestamp y1 m1 1) (mkTimestamp y2 m2 1) ->
  y1 < y2 \/ (y1 = y2 /\ m1 <= m2).
Proof.
  unfold ts_le, ts_leb, ts_compare. simpl.
  destruct (Z.compare_spec y1 y2); [| lia | discriminate].
  destruct (Z.compare_spec m1 m2); [lia | lia | discriminate].
Qed.

(** X16. A file without a date column whose month names are all known
    (and whose years are from 1678 to 2261) is loaded in the
    order of the calendar, by year and within a year by the number of
    the month; in particular its years never decrease from a row to the
    next. *)
Theorem load_data_calendar_order (months : list Cells) :
  (forall c, In c months ->
     1678 <= tahun c <= 2261 /\ exists m, month_named (bulan c) m) ->
  exists df,
    load_data (CsvMonthly months) = Ok df /\
    StronglySorted calendar_le (map cells (rows df)) /\
    StronglySorted Z.le (years_of df).
Proof.
  intros H. eexists. split; [apply (load_data_monthly_ok months H) |].
  set (mk := fun c => mkRow c (mkTimestamp (tahun c) (month_number c) 1)
                            (Some (month_number c))).
  set (df := sort_values by_tanggal (range_index (map mk months))).
  assert (Hform : forall e, In e df ->
            tanggal (snd e) =
              mkTimestamp (tahun (cells (snd e))) (month_number (cells (snd e))) 1).
  { intros e He.
    apply (Permutation_in _ (Permutation_sym (sort_values_perm _))) in He.
    apply (in_map snd) in He. fold (rows (range_index (map mk months))) in He.
    rewrite range_index_rows in He. apply in_map_iff in He.
    destruct He as [c [<- _]]. reflexivity. }
  assert (Hcal : StronglySorted calendar_le (map cells (rows df))).
  { unfold rows. rewrite map_map.
    apply (StronglySorted_map_in earlier); [| apply sort_values_sorted].
    intros a b Ha Hb Hab. unfold earlier in Hab.
    rewrite (Hform a Ha), (Hform b Hb) in Hab.
    apply (ts_le_calendar _ _ _ _ Hab). }
  split; [exact Hcal |].
  unfold years_of. rewrite <- (map_map cells tahun).
  apply (StronglySorted_map_in calendar_le); [| exact Hcal].
  intros a b _ _ [Hlt | [Heq _]]; lia.
Qed.

Lemma load_data_calendar_order_witness :
  exists df,
    load_data sample_csv = Ok df /\
    StronglySorted Z.le (years_of df).
Proof.
  destruct (load_data_calendar_order sample_cells) as [df [H [_ Hs]]].
  - intros c Hc. simpl in Hc.
    repeat (destruct Hc as [<- | Hc];
            [split; [simpl; lia |]; eexists; apply month_lookup; reflexivity |]).
    destruct Hc.
  - exists df. split; [exact H | exact Hs].
Defined.

(** ** The cards, the sentences and the charts together *)

Lemma build_insights_inv (df : DataFrame) (l : list string) :
  build_insights df = Ok l ->
  exists h lo pre x,
    highest_of df = Ok (OneRow h) /\
    lowest_of df = Ok (OneRow lo) /\
    rows df = pre ++ [x] /\
    l = [ puncak_text h; terendah_text lo;
          skenario_text (Float64.sub (skn_BAU (cells x)) (skn_80 (cells x))) ].
Proof.
  intros H.
  assert (Hne : df <> []) by (intros ->; discriminate H).
  destruct (nonempty_last (rows df) (rows_nonempty df Hne)) as [pre [x Hrows]].
  unfold build_insights in H.
  destruct (highest_of df) as [[h | fr] |] eqn:Hh; cbn [bind] in H;
    [| | discriminate];
    (destruct (lowest_of df) as [[lo | fr'] |] eqn:Hl; cbn [bind] in H;
     [| | discriminate]);
    rewrite (iloc_last (col skn_80 df)
               (map (fun r => skn_80 (cells r)) pre) (skn_80 (cells x)))
      in H by (rewrite values_col, Hrows, map_app; reflexivity);
    rewrite (iloc_last (col skn_BAU df)
               (map (fun r => skn_BAU (cells r)) pre) (skn_BAU (cells x)))
      in H by (rewrite values_col, Hrows, map_app; reflexivity);
    cbn [bind as_row] in H; try discriminate.
  injection H as <-. exists h, lo, pre, x. auto.
Qed.

(** X17. What the cards and the third sentence say is what the charts
    draw: the total of the summary is the float64 sum of the points of
    the trend, as near their sum as one rounding for each point allows;
    its last accumulation is the last point of the accumulation chart;
    and the third sentence reports, with no decimals, the float64
    nearest to the last point of the BAU line minus the last point of
    the 80% line. *)
Theorem summary_and_insights_match_charts (df : DataFrame) (s : Summary)
    (l : list string) :
  build_summary df = Ok s ->
  build_insights df = Ok l ->
  exists tren akum bau s70 s80 t1 t2 t3 ys_akum ys_bau ys_80 a b
         y_akum y_bau y_80 total,
    chart_figures df =
      (mkFigure t1 [tren], mkFigure t2 [akum], mkFigure t3 [bau; s70; s80]) /\
    total_sampah_value s = Num total /\
    total = Numpy.add_reduce (tr_y tren) /\
    (Qabs (total - fold_right Qplus 0 (tr_y tren))
       <= drift (List.length (tr_y tren))
          * fold_right Qplus 0 (map Qabs (tr_y tren)))%Q /\
    tr_y akum = ys_akum ++ [y_akum] /\
    akumulasi_akhir_value s = Num y_akum /\
    tr_y bau = ys_bau ++ [y_bau] /\
    tr_y s80 = ys_80 ++ [y_80] /\
    l = [ a; b;
          ("Skenario 80% menurunkan akumulasi akhir sebesar "
             ++ Fmt.comma_0f (Float64.sub y_bau y_80)
             ++ " ton dibanding BAU.")%string ].
Proof.
  intros Hs Hl.
  apply build_insights_inv in Hl.
  destruct Hl as [h [lo [pre [x [_ [_ [Hrows ->]]]]]]].
  rewrite (build_summary_ok df pre x Hrows) in Hs. injection Hs as <-.
  unfold chart_figures, px_line, scatter.
  do 8 eexists.
  exists (map (fun r => akumulasi (cells r)) pre),
         (map (fun r => skn_BAU (cells r)) pre),
         (map (fun r => skn_80 (cells r)) pre).
  do 2 eexists.
  exists (akumulasi (cells x)), (skn_BAU (cells x)), (skn_80 (cells x)),
         (sum (col jumlah_sampah df)).
  split; [reflexivity |]. cbn [tr_y total_sampah_value akumulasi_akhir_value].
  split; [reflexivity |]. split; [reflexivity |].
  split.
  - pose proof (sum_col_near jumlah_sampah df) as H.
    unfold mass_of in H. rewrite !total_of_fold in H.
    rewrite values_col, length_map, map_map. exact H.
  - rewrite !values_col, Hrows, !map_app. cbn [map].
    repeat split; reflexivity.
Qed.

Lemma summary_and_insights_match_charts_witness :
  exists s l tren t1 total,
    build_summary sample_frame = Ok s /\
    build_insights sample_frame = Ok l /\
    fst (fst (chart_figures sample_frame)) = mkFigure t1 [tren] /\
    total_sampah_value s = Num total /\
    total = Numpy.add_reduce (tr_y tren).
Proof.
  destruct (build_summary sample_frame) as [s | e] eqn:Hs;
    [| vm_compute in Hs; discriminate Hs].
  destruct (build_insights sample_frame) as [l | e] eqn:Hl;
    [| vm_compute in Hl; discriminate Hl].
  destruct (summary_and_insights_match_charts sample_frame s l Hs Hl)
    as [tren [akum [bau [s70 [s80 [t1 [t2 [t3 [ya [yb [y8 [a [b [y1 [y2 [y3
        [total [Hc [Ht [Hr _]]]]]]]]]]]]]]]]]]]].
  exists s, l, tren, t1, total. rewrite Hc. auto.
Defined.

(** X18. When the arguments are plain and some row lies within the
    bounds, the summary of the view exists and its period is the text
    of two years of the view, the least and the greatest, that
    themselves lie within the bounds asked for. *)
Theorem period_within_bounds (df : DataFrame) (year_from year_to : option Query.ustr) :
  plain year_from ->
  plain year_to ->
  select (within (bound_of year_from) (bound_of year_to)) df <> [] ->
  exists v s lo hi,
    year_filter df year_from year_to = Ok (v, year_from, year_to) /\
    build_summary v = Ok s /\
    periode s = (Str.of_Z lo ++ " - " ++ Str.of_Z hi)%string /\
    In lo (years_of v) /\ In hi (years_of v) /\
    (forall y, In y (years_of v) -> lo <= y <= hi) /\
    (forall n, bound_of year_from = Some n -> n <= lo) /\
    (forall n, bound_of year_to = Some n -> hi <= n).
Proof.
  intros Pf Pt Hne.
  set (v := select (within (bound_of year_from) (bound_of year_to)) df) in *.
  destruct (nonempty_last (rows v) (rows_nonempty v Hne)) as [pre [x Hrows]].
  destruct (min_col_tahun v Hne) as [lo [Hlo [Hlo_in Hlo_le]]].
  destruct (max_col_tahun v Hne) as [hi [Hhi [Hhi_in Hhi_le]]].
  exists v. eexists. exists lo, hi.
  split.
  { unfold year_filter. rewrite (apply_bounds_plain df _ _ Pf Pt).
    fold v. cbn [bind]. destruct v; [congruence | reflexivity]. }
  split; [apply (build_summary_ok v pre x Hrows) |].
  cbn [periode]. rewrite Hlo, Hhi.
  split; [reflexivity |]. split; [exact Hlo_in |]. split; [exact Hhi_in |].
  split; [intros y Hy; split; [apply Hlo_le | apply Hhi_le]; exact Hy |].
  assert (Hin : forall y, In y (years_of v) ->
            exists r, tahun (cells r) = y /\
                      within (bound_of year_from) (bound_of year_to) r = true).
  { intros y Hy. unfold years_of in Hy. apply in_map_iff in Hy.
    destruct Hy as [r [<- Hr]]. exists r. split; [reflexivity |].
    apply (rows_select _ df r). exact Hr. }
  split; intros n Hn.
  - destruct (Hin lo Hlo_in) as [r [<- Hw]]. unfold within in Hw.
    rewrite Hn in Hw. apply andb_true_iff in Hw. destruct Hw as [Hw _].
    apply Z.leb_le. exact Hw.
  - destruct (Hin hi Hhi_in) as [r [<- Hw]]. unfold within in Hw.
    rewrite Hn in Hw. apply andb_true_iff in Hw. destruct Hw as [_ Hw].
    apply Z.leb_le. exact Hw.
Qed.

Lemma period_within_bounds_witness :
  plain (Some (Query.of_ascii "2021")) /\
  plain None /\
  exists v s lo hi,
    year_filter sample_frame (Some (Query.of_ascii "2021")) None
      = Ok (v, Some (Query.of_ascii "2021"), None) /\
    build_summary v = Ok s /\
    periode s = (Str.of_Z lo ++ " - " ++ Str.of_Z hi)%string /\
    forall y, In y (years_of v) -> lo <= y <= hi.
Proof.
  split; [exact plain_ascii_2021 |].
  split; [intros s Hs; discriminate Hs |].
  destruct (period_within_bounds sample_frame (Some (Query.of_ascii "2021")) None)
    as [v [s [lo [hi [Hf [Hs [Hp [_ [_ [Hle _]]]]]]]]]].
  - exact plain_ascii_2021.
  - intros s Hs. discriminate Hs.
  - vm_compute. discriminate.
  - exists v, s, lo, hi. auto.
Defined.

(** ** The table of month names *)

Lemma in_distinct_values (d : list (string * Z)) (k k' : string) (m : Z) :
  NoDup (map snd d) -> In (k, m) d -> In (k', m) d -> k = k'.
Proof.
  induction d as [| [k0 m0] d IH]; simpl; intros Hn H H'; [destruct H |].
  inversion Hn as [| ? ? Hnotin Hn']; subst.
  destruct H as [H | H]; destruct H' as [H' | H'].
  - congruence.
  - injection H as <- <-. exfalso. apply Hnotin.
    apply (in_map snd) in H'. exact H'.
  - injection H' as <- <-. exfalso. apply Hnotin.
    apply (in_map snd) in H. exact H.
  - apply (IH Hn' H H').
Qed.

(** X19. The table of month names is one-to-one onto 1 to 12: a name
    has at most one number, two names of the same number are the same
    but for case, and every number from 1 to 12 has a name. *)
Theorem bulan_map_one_to_one :
  (forall s m m', month_named s m -> month_named s m' -> m = m') /\
  (forall s s' m, month_named s m -> month_named s' m -> lower s = lower s') /\
  (forall m, 1 <= m <= 12 -> exists s, month_named s m) /\
  (forall s m, month_named s m -> 1 <= m <= 12).
Proof.
  split; [| split; [| split]].
  - intros s m m' H H'. apply month_lookup in H. apply month_lookup in H'.
    congruence.
  - intros s s' m [k [Hk Hs]] [k' [Hk' Hs']].
    rewrite Hs, Hs'. f_equal.
    apply (in_distinct_values bulan_map k k' m); [| exact Hk | exact Hk'].
    simpl. repeat constructor; simpl; intuition discriminate.
  - intros m Hm.
    assert (Hc : m = 1 \/ m = 2 \/ m = 3 \/ m = 4 \/ m = 5 \/ m = 6 \/
                 m = 7 \/ m = 8 \/ m = 9 \/ m = 10 \/ m = 11 \/ m = 12) by lia.
    destruct Hc as [-> | [-> | [-> | [-> | [-> | [-> | [-> | [-> | [-> |
                   [-> | [-> | ->]]]]]]]]]]];
      unfold month_named; do 2 eexists;
      (split; [simpl; repeat (first [left; reflexivity | right])
              | reflexivity]).
  - intros s m [k [Hk _]]. apply (bulan_map_upper k m Hk).
Qed.
